(** * ugci_driver.c: transfer lifecycle of the UGCI bulk driver

    A shallow embedding of [src/ugci_driver.c].  [struct usb_ugci] becomes the
    record [usb_ugci]; every entry point of the driver ([ugci_read],
    [ugci_write], [ugci_flush], the two completion callbacks, the life-cycle
    callbacks) becomes a function on that record.  What the kernel decides
    (whether a wait is interrupted, what [usb_submit_urb] returns, when and how
    a transfer completes) is passed in as an explicit environment.

    C integers are [Z]; conversions between [size_t], [int] and [ssize_t] are
    written out where the source performs them (LP64: [size_t] has 64 bits). *)

From Stdlib Require Import ZArith List Bool Lia Permutation.
From Stdlib.Strings Require Import Byte.
Import ListNotations.
Open Scope Z_scope.

(** ** Constants *)

Definition ENOENT : Z := 2.
Definition EINTR : Z := 4.
Definition EIO : Z := 5.
Definition EAGAIN : Z := 11.
Definition ENOMEM : Z := 12.
Definition EFAULT : Z := 14.
Definition ENODEV : Z := 19.
Definition EPIPE : Z := 32.
Definition ECONNRESET : Z := 104.
Definition ESHUTDOWN : Z := 108.
Definition ERESTARTSYS : Z := 512.

Definition WRITES_IN_FLIGHT : Z := 8.

(** ** Integer conversions *)

Definition size_t (z : Z) : Z := z mod 2 ^ 64.
Definition to_u32 (z : Z) : Z := z mod 2 ^ 32.
Definition to_int (z : Z) : Z := (z + 2 ^ 31) mod 2 ^ 32 - 2 ^ 31.
Definition to_ssize_t (z : Z) : Z := (z + 2 ^ 63) mod 2 ^ 64 - 2 ^ 63.

(** ** Data model *)

(** An outbound transfer request with its staging buffer. *)
Record urb : Type := mkUrb {
  transfer_buffer : list byte;
  transfer_buffer_length : Z
}.

(** History of observable effects, newest first.  It is never read by the
    driver; it records what [dev_err], [usb_submit_urb] on the bulk-in URB and
    [copy_to_user] were asked to do. *)
Inductive event : Type :=
| EvLog (status : Z)
| EvSubmitIn (len : Z) (rv : Z)
| EvCopyOut (off : Z) (len : Z) (ok : bool).

(** [struct usb_ugci], followed by the state the USB core keeps for it.
    Pointers are modelled by whether they are non-NULL. *)
Record usb_ugci : Type := mkDev {
  interface : bool;
  limit_sem : Z;
  submitted : list urb;
  bulk_in_urb : bool;
  bulk_in_buffer : list byte;
  bulk_in_size : Z;
  bulk_in_filled : Z;
  bulk_in_copied : Z;
  errors : Z;
  ongoing_read : bool;
  kref : Z;
  io_mutex : bool;
  (* USB core *)
  in_flight_reads : list Z;
  intfdata : bool;
  minor : bool;
  hist : list event;
  (* DMA-coherent memory handed out by usb_alloc_coherent and not yet given
     back: the staging buffers of the write path, newest first *)
  coherent : list (list byte)
}.

Record file : Type := mkFile {
  private_data : bool;
  f_nonblock : bool
}.

Definition set_interface (v : bool) (d : usb_ugci) : usb_ugci :=
  mkDev v (limit_sem d) (submitted d) (bulk_in_urb d) (bulk_in_buffer d)
        (bulk_in_size d) (bulk_in_filled d) (bulk_in_copied d) (errors d)
        (ongoing_read d) (kref d) (io_mutex d) (in_flight_reads d)
        (intfdata d) (minor d) (hist d)
        (coherent d).

Definition set_limit_sem (v : Z) (d : usb_ugci) : usb_ugci :=
  mkDev (interface d) v (submitted d) (bulk_in_urb d) (bulk_in_buffer d)
        (bulk_in_size d) (bulk_in_filled d) (bulk_in_copied d) (errors d)
        (ongoing_read d) (kref d) (io_mutex d) (in_flight_reads d)
        (intfdata d) (minor d) (hist d)
        (coherent d).

Definition set_submitted (v : list urb) (d : usb_ugci) : usb_ugci :=
  mkDev (interface d) (limit_sem d) v (bulk_in_urb d) (bulk_in_buffer d)
        (bulk_in_size d) (bulk_in_filled d) (bulk_in_copied d) (errors d)
        (ongoing_read d) (kref d) (io_mutex d) (in_flight_reads d)
        (intfdata d) (minor d) (hist d)
        (coherent d).

Definition set_bulk_in_buffer (v : list byte) (d : usb_ugci) : usb_ugci :=
  mkDev (interface d) (limit_sem d) (submitted d) (bulk_in_urb d) v
        (bulk_in_size d) (bulk_in_filled d) (bulk_in_copied d) (errors d)
        (ongoing_read d) (kref d) (io_mutex d) (in_flight_reads d)
        (intfdata d) (minor d) (hist d)
        (coherent d).

Definition set_bulk_in_filled (v : Z) (d : usb_ugci) : usb_ugci :=
  mkDev (interface d) (limit_sem d) (submitted d) (bulk_in_urb d)
        (bulk_in_buffer d) (bulk_in_size d) v (bulk_in_copied d) (errors d)
        (ongoing_read d) (kref d) (io_mutex d) (in_flight_reads d)
        (intfdata d) (minor d) (hist d)
        (coherent d).

Definition set_bulk_in_copied (v : Z) (d : usb_ugci) : usb_ugci :=
  mkDev (interface d) (limit_sem d) (submitted d) (bulk_in_urb d)
        (bulk_in_buffer d) (bulk_in_size d) (bulk_in_filled d) v (errors d)
        (ongoing_read d) (kref d) (io_mutex d) (in_flight_reads d)
        (intfdata d) (minor d) (hist d)
        (coherent d).

Definition set_errors (v : Z) (d : usb_ugci) : usb_ugci :=
  mkDev (interface d) (limit_sem d) (submitted d) (bulk_in_urb d)
        (bulk_in_buffer d) (bulk_in_size d) (bulk_in_filled d)
        (bulk_in_copied d) v (ongoing_read d) (kref d) (io_mutex d)
        (in_flight_reads d) (intfdata d) (minor d) (hist d)
        (coherent d).

Definition set_ongoing_read (v : bool) (d : usb_ugci) : usb_ugci :=
  mkDev (interface d) (limit_sem d) (submitted d) (bulk_in_urb d)
        (bulk_in_buffer d) (bulk_in_size d) (bulk_in_filled d)
        (bulk_in_copied d) (errors d) v (kref d) (io_mutex d)
        (in_flight_reads d) (intfdata d) (minor d) (hist d)
        (coherent d).

Definition set_kref (v : Z) (d : usb_ugci) : usb_ugci :=
  mkDev (interface d) (limit_sem d) (submitted d) (bulk_in_urb d)
        (bulk_in_buffer d) (bulk_in_size d) (bulk_in_filled d)
        (bulk_in_copied d) (errors d) (ongoing_read d) v (io_mutex d)
        (in_flight_reads d) (intfdata d) (minor d) (hist d)
        (coherent d).

Definition set_io_mutex (v : bool) (d : usb_ugci) : usb_ugci :=
  mkDev (interface d) (limit_sem d) (submitted d) (bulk_in_urb d)
        (bulk_in_buffer d) (bulk_in_size d) (bulk_in_filled d)
        (bulk_in_copied d) (errors d) (ongoing_read d) (kref d) v
        (in_flight_reads d) (intfdata d) (minor d) (hist d)
        (coherent d).

Definition set_in_flight_reads (v : list Z) (d : usb_ugci) : usb_ugci :=
  mkDev (interface d) (limit_sem d) (submitted d) (bulk_in_urb d)
        (bulk_in_buffer d) (bulk_in_size d) (bulk_in_filled d)
        (bulk_in_copied d) (errors d) (ongoing_read d) (kref d) (io_mutex d)
        v (intfdata d) (minor d) (hist d)
        (coherent d).

Definition set_intfdata (v : bool) (d : usb_ugci) : usb_ugci :=
  mkDev (interface d) (limit_sem d) (submitted d) (bulk_in_urb d)
        (bulk_in_buffer d) (bulk_in_size d) (bulk_in_filled d)
        (bulk_in_copied d) (errors d) (ongoing_read d) (kref d) (io_mutex d)
        (in_flight_reads d) v (minor d) (hist d)
        (coherent d).

Definition set_minor (v : bool) (d : usb_ugci) : usb_ugci :=
  mkDev (interface d) (limit_sem d) (submitted d) (bulk_in_urb d)
        (bulk_in_buffer d) (bulk_in_size d) (bulk_in_filled d)
        (bulk_in_copied d) (errors d) (ongoing_read d) (kref d) (io_mutex d)
        (in_flight_reads d) (intfdata d) v (hist d)
        (coherent d).

Definition set_coherent (v : list (list byte)) (d : usb_ugci) : usb_ugci :=
  mkDev (interface d) (limit_sem d) (submitted d) (bulk_in_urb d)
        (bulk_in_buffer d) (bulk_in_size d) (bulk_in_filled d)
        (bulk_in_copied d) (errors d) (ongoing_read d) (kref d) (io_mutex d)
        (in_flight_reads d) (intfdata d) (minor d) (hist d) v.

Definition record (e : event) (d : usb_ugci) : usb_ugci :=
  mkDev (interface d) (limit_sem d) (submitted d) (bulk_in_urb d)
        (bulk_in_buffer d) (bulk_in_size d) (bulk_in_filled d)
        (bulk_in_copied d) (errors d) (ongoing_read d) (kref d) (io_mutex d)
        (in_flight_reads d) (intfdata d) (minor d) (e :: hist d)
        (coherent d).

(** ** DMA-coherent memory *)

Fixpoint bytes_eqb (a b : list byte) : bool :=
  match a, b with
  | [], [] => true
  | x :: a', y :: b' => Byte.eqb x y && bytes_eqb a' b'
  | _, _ => false
  end.

(** The first buffer holding [buf] is taken out of [l]. *)
Fixpoint remove_one (buf : list byte) (l : list (list byte))
    : list (list byte) :=
  match l with
  | [] => []
  | x :: l' => if bytes_eqb x buf then l' else x :: remove_one buf l'
  end.

(** [usb_alloc_coherent(dev->udev, n, GFP_KERNEL, &urb->transfer_dma)] when
    it succeeds: the new buffer and the state in which it is live.  Its
    content is arbitrary; zeroes stand for it. *)
Definition usb_alloc_coherent (n : Z) (d : usb_ugci) : list byte * usb_ugci :=
  let buf := repeat x00 (Z.to_nat n) in
  (buf, set_coherent (buf :: coherent d) d).

(** The newest live buffer, the one the caller has just been given, is
    written: it holds [data] afterwards. *)
Definition fill_coherent (data : list byte) (d : usb_ugci) : usb_ugci :=
  set_coherent (data :: tl (coherent d)) d.

(** [usb_free_coherent(udev, size, addr, dma)]: the buffer at [addr] is given
    back.  A buffer is named by what it holds, so of two live buffers with
    the same content either one is taken; the kernel does nothing for a NULL
    [addr], and nothing is removed here when no such buffer is live. *)
Definition usb_free_coherent (buf : list byte) (d : usb_ugci) : usb_ugci :=
  set_coherent (remove_one buf (coherent d)) d.

(** ** Reference counting *)

(** [kref_put(&dev->kref, ugci_delete)]: the object is freed when the count
    reaches zero, see [deleted]. *)
Definition kref_put (d : usb_ugci) : usb_ugci := set_kref (kref d - 1) d.

Definition deleted (d : usb_ugci) : bool := kref d <=? 0.

(** ** Completion callbacks *)

(** The test guarding [dev_err] in both callbacks. *)
Definition unlink_status (status : Z) : bool :=
  (status =? - ENOENT) || (status =? - ECONNRESET) || (status =? - ESHUTDOWN).

Definition dev_err (status : Z) (d : usb_ugci) : usb_ugci :=
  record (EvLog status) d.

Definition ugci_read_bulk_callback
    (status actual_length : Z) (d : usb_ugci) : usb_ugci :=
  let d1 :=
    if status =? 0 then set_bulk_in_filled actual_length d
    else
      let d0 := if unlink_status status then d else dev_err status d in
      set_errors status d0 in
  set_ongoing_read false d1.

Definition ugci_write_bulk_callback
    (status : Z) (u : urb) (d : usb_ugci) : usb_ugci :=
  let d1 :=
    if status =? 0 then d
    else
      let d0 := if unlink_status status then d else dev_err status d in
      set_errors status d0 in
  (* free up our allocated buffer *)
  let d2 := usb_free_coherent (transfer_buffer u) d1 in
  (* up(&dev->limit_sem) *)
  set_limit_sem (limit_sem d2 + 1) d2.

(** ** The USB core giving transfers back *)

Definition overlay (data buf : list byte) : list byte :=
  data ++ skipn (length data) buf.

(** The outstanding submission of [bulk_in_urb] completes with [status]; the
    device delivered [data], of which at most the requested length lands at
    the start of [bulk_in_buffer].  Nothing happens when nothing is in
    flight. *)
Definition giveback_bulk_in
    (status : Z) (data : list byte) (d : usb_ugci) : usb_ugci :=
  match in_flight_reads d with
  | [] => d
  | len :: rest =>
      let got := firstn (Z.to_nat len) data in
      let d1 :=
        set_bulk_in_buffer (overlay got (bulk_in_buffer d))
                           (set_in_flight_reads rest d) in
      ugci_read_bulk_callback status (Z.of_nat (length got)) d1
  end.

Definition remove_nth {A : Type} (i : nat) (l : list A) : list A :=
  firstn i l ++ skipn (S i) l.

(** The [i]-th anchored outbound URB completes with [status]: the core
    unanchors it and calls the write callback. *)
Definition giveback_bulk_out
    (i : nat) (status : Z) (d : usb_ugci) : usb_ugci :=
  match nth_error (submitted d) i with
  | None => d
  | Some u =>
      ugci_write_bulk_callback status u
        (set_submitted (remove_nth i (submitted d)) d)
  end.

Fixpoint kill_anchored (n : nat) (d : usb_ugci) : usb_ugci :=
  match n with
  | O => d
  | S n' =>
      kill_anchored n'
        (giveback_bulk_out (pred (length (submitted d))) (- ENOENT) d)
  end.

(** [usb_kill_anchored_urbs(&dev->submitted)]: every anchored URB, newest
    first, is unlinked and given back with [-ENOENT]. *)
Definition usb_kill_anchored_urbs (d : usb_ugci) : usb_ugci :=
  kill_anchored (length (submitted d)) d.

(** [usb_kill_urb(dev->bulk_in_urb)]. *)
Definition usb_kill_urb_in (d : usb_ugci) : usb_ugci :=
  if bulk_in_urb d then giveback_bulk_in (- ENOENT) [] d else d.

(** [usb_wait_anchor_empty_timeout(&dev->submitted, 1000)]: the outbound
    completions [evs] arrive while waiting; the result is 0 when the anchor
    is still populated afterwards (time-out). *)
Definition usb_wait_anchor_empty_timeout
    (evs : list (nat * Z)) (d : usb_ugci) : Z * usb_ugci :=
  let d1 :=
    fold_left (fun acc ev => giveback_bulk_out (fst ev) (snd ev) acc) evs d in
  (match submitted d1 with [] => 1 | _ :: _ => 0 end, d1).

Definition ugci_draw_down (evs : list (nat * Z)) (d : usb_ugci) : usb_ugci :=
  let '(time, d1) := usb_wait_anchor_empty_timeout evs d in
  let d2 := if time =? 0 then usb_kill_anchored_urbs d1 else d1 in
  usb_kill_urb_in d2.

(** ** open, release, flush *)

(** [ugci_open].  [usb_find_interface] succeeds while the minor is
    registered; [pm_rv] is the result of [usb_autopm_get_interface]. *)
Definition ugci_open (pm_rv : Z) (d : usb_ugci) : Z * usb_ugci :=
  if negb (minor d) then (- ENODEV, d)
  else if negb (intfdata d) then (- ENODEV, d)
  else if negb (pm_rv =? 0) then (pm_rv, d)
  else (0, set_kref (kref d + 1) d).

Definition ugci_release (f : file) (d : usb_ugci) : Z * usb_ugci :=
  if negb (private_data f) then (- ENODEV, d)
  else (0, kref_put d).

(** The mapping applied to a recorded error when it is reported. *)
Definition report (e : Z) : Z := if e =? - EPIPE then - EPIPE else - EIO.

Definition ugci_flush
    (f : file) (evs : list (nat * Z)) (d : usb_ugci) : Z * usb_ugci :=
  if negb (private_data f) then (- ENODEV, d)
  else
    let d1 := ugci_draw_down evs d in
    let res := if negb (errors d1 =? 0) then report (errors d1) else 0 in
    (res, set_errors 0 d1).

(** ** Read path *)

(** [usb_submit_urb(dev->bulk_in_urb)] answering [rv]: the request is in
    flight exactly when the answer is 0. *)
Definition usb_submit_urb_in (rv len : Z) (d : usb_ugci) : usb_ugci :=
  let d1 := record (EvSubmitIn len rv) d in
  if rv =? 0 then set_in_flight_reads (in_flight_reads d1 ++ [len]) d1
  else d1.

Definition ugci_do_read_io
    (submit_rv : Z) (count : Z) (d : usb_ugci) : Z * usb_ugci :=
  (* usb_fill_bulk_urb: int buffer_length, stored as u32 *)
  let len := to_u32 (to_int (Z.min (bulk_in_size d) count)) in
  let d1 := set_ongoing_read true d in
  let d2 := set_bulk_in_copied 0 (set_bulk_in_filled 0 d1) in
  let d3 := usb_submit_urb_in submit_rv len d2 in
  if submit_rv <? 0 then
    let d4 := dev_err submit_rv d3 in
    let rv := if submit_rv =? - ENOMEM then submit_rv else - EIO in
    (rv, set_ongoing_read false d4)
  else (submit_rv, d3).

(** What ends a sleep on [bulk_in_wait]. *)
Inductive wait_outcome : Type :=
| WaitSignal
| WaitCompleted (status : Z) (data : list byte).

(** What the kernel decides during one [ugci_read] call; [wait_ev] and
    [submit_rv] are indexed by the pass through the [retry] label. *)
Record read_env : Type := mkReadEnv {
  lock_intr : bool;
  wait_ev : nat -> wait_outcome;
  submit_rv : nat -> Z;
  copy_fault : bool
}.

(** [wait_event_interruptible(dev->bulk_in_wait, !dev->ongoing_read)], entered
    with [ongoing_read] set.  A sleeper that is not released by the completion
    can only be ended by a signal. *)
Definition wait_bulk_in (w : wait_outcome) (d : usb_ugci) : Z * usb_ugci :=
  match w with
  | WaitSignal => (- ERESTARTSYS, d)
  | WaitCompleted status data =>
      let d1 := giveback_bulk_in status data d in
      if ongoing_read d1 then (- ERESTARTSYS, d1) else (0, d1)
  end.

(** Lines 258-277: the test of [ongoing_read] at [retry]. *)
Definition read_wait
    (nonblock : bool) (w : wait_outcome) (d : usb_ugci) : Z * usb_ugci :=
  if ongoing_read d then
    if nonblock then (- EAGAIN, d) else wait_bulk_in w d
  else (0, d).

(** The [retry] loop of [ugci_read]; the result is [None] when [fuel] passes
    were not enough to leave it.  The list is what the call hands to the
    caller: the chunk, when [copy_to_user] stores all of it.  When
    [copy_to_user] faults the call fails with [-EFAULT] and hands out
    nothing; what the faulting copy wrote into the caller's memory before it
    stopped, some prefix of the chunk, is not followed. *)
Fixpoint ugci_read_retry
    (fuel : nat) (i : nat) (env : read_env) (nonblock : bool) (count : Z)
    (d : usb_ugci) : option Z * list byte * usb_ugci :=
  match fuel with
  | O => (None, [], d)
  | S fuel' =>
      let '(rv, d1) := read_wait nonblock (wait_ev env i) d in
      if rv <? 0 then (Some rv, [], d1)
      else
        let rv := errors d1 in
        if rv <? 0 then (Some (report rv), [], set_errors 0 d1)
        else if negb (bulk_in_filled d1 =? 0) then
          let available :=
            size_t (bulk_in_filled d1 - bulk_in_copied d1) in
          let chunk := Z.min available count in
          if available =? 0 then
            let '(rv, d2) := ugci_do_read_io (submit_rv env i) count d1 in
            if rv <? 0 then (Some rv, [], d2)
            else ugci_read_retry fuel' (S i) env nonblock count d2
          else
            let off := bulk_in_copied d1 in
            let ok := negb (copy_fault env) in
            let out :=
              if ok
              then firstn (Z.to_nat chunk)
                          (skipn (Z.to_nat off) (bulk_in_buffer d1))
              else [] in
            let rv := if ok then to_int chunk else - EFAULT in
            let d2 :=
              set_bulk_in_copied (size_t (off + chunk))
                                 (record (EvCopyOut off chunk ok) d1) in
            let d3 :=
              if available <? count
              then snd (ugci_do_read_io (submit_rv env i)
                                        (size_t (count - chunk)) d2)
              else d2 in
            (Some rv, out, d3)
        else
          let '(rv, d2) := ugci_do_read_io (submit_rv env i) count d1 in
          if rv <? 0 then (Some rv, [], d2)
          else ugci_read_retry fuel' (S i) env nonblock count d2
  end.

(** [ugci_read]: the value returned (if the call returns within [fuel]
    passes), the bytes handed to the caller, and the new state.
    [io_mutex] is taken after the first test and released on every later
    exit, so the call begins and ends with it free. *)
Definition ugci_read
    (f : file) (env : read_env) (fuel : nat) (count : Z) (d : usb_ugci)
    : option Z * list byte * usb_ugci :=
  if negb (bulk_in_urb d) || (count =? 0) then (Some 0, [], d)
  else if lock_intr env then (Some (- EINTR), [], d)
  else if negb (interface d) then (Some (- ENODEV), [], d)
  else ugci_read_retry fuel 0 env (f_nonblock f) count d.

(** ** Write path *)

Record write_env : Type := mkWriteEnv {
  sem_wait : option (nat * Z);
  alloc_urb_ok : bool;
  alloc_buf_ok : bool;
  out_submit_rv : Z
}.

(** [down_trylock] / [down_interruptible] on [limit_sem].  A blocked
    [down_interruptible] is released by the completion [w] of an outbound
    URB, or ended by a signal. *)
Definition down_limit_sem
    (nonblock : bool) (w : option (nat * Z)) (d : usb_ugci) : Z * usb_ugci :=
  if 0 <? limit_sem d then (0, set_limit_sem (limit_sem d - 1) d)
  else if nonblock then (1, d)
  else
    match w with
    | None => (- EINTR, d)
    | Some (i, status) =>
        let d1 := giveback_bulk_out i status d in
        if 0 <? limit_sem d1 then (0, set_limit_sem (limit_sem d1 - 1) d1)
        else (- EINTR, d1)
    end.

Definition up_limit_sem (d : usb_ugci) : usb_ugci :=
  set_limit_sem (limit_sem d + 1) d.

(** [copy_from_user(buf, user_buffer, n)]: [user_buffer] is the readable
    memory at the caller's pointer. *)
Definition copy_from_user (user_buffer : list byte) (n : Z)
    : option (list byte) :=
  if n <=? Z.of_nat (length user_buffer)
  then Some (firstn (Z.to_nat n) user_buffer)
  else None.

Definition usb_anchor_urb (u : urb) (d : usb_ugci) : usb_ugci :=
  set_submitted (submitted d ++ [u]) d.

Definition usb_unanchor_urb (d : usb_ugci) : usb_ugci :=
  set_submitted (removelast (submitted d)) d.

Section Driver.

(** [PAGE_SIZE] comes from the kernel headers of the target. *)
Variable PAGE_SIZE : Z.

Definition MAX_TRANSFER : Z := PAGE_SIZE - 512.

Definition ugci_write
    (f : file) (env : write_env) (user_buffer : list byte) (count : Z)
    (d : usb_ugci) : Z * usb_ugci :=
  let writesize := Z.min count (size_t MAX_TRANSFER) in
  if count =? 0 then (0, d)
  else
    let '(rc, d1) := down_limit_sem (f_nonblock f) (sem_wait env) d in
    if negb (rc =? 0) then
      (if f_nonblock f then - EAGAIN else - ERESTARTSYS, d1)
    else
      let retval := errors d1 in
      let '(retval, d2) :=
        if retval <? 0 then (report retval, set_errors 0 d1)
        else (retval, d1) in
      if retval <? 0 then (retval, up_limit_sem d2)
      else if negb (alloc_urb_ok env) then (- ENOMEM, up_limit_sem d2)
      else if negb (alloc_buf_ok env) then (- ENOMEM, up_limit_sem d2)
      else
        let '(buf0, d2a) := usb_alloc_coherent writesize d2 in
        match copy_from_user user_buffer writesize with
        | None => (- EFAULT, up_limit_sem (usb_free_coherent buf0 d2a))
        | Some buf =>
            let d2b := fill_coherent buf d2a in
            if negb (interface d2b) then
              (- ENODEV, up_limit_sem (usb_free_coherent buf d2b))
            else
              let u := mkUrb buf (to_u32 (to_int writesize)) in
              let d3 := usb_anchor_urb u d2b in
              let retval := out_submit_rv env in
              if negb (retval =? 0) then
                (retval,
                 up_limit_sem
                   (usb_free_coherent buf
                      (usb_unanchor_urb (dev_err retval d3))))
              else (to_ssize_t writesize, d3)
        end.

(** ** Life cycle *)

Record probe_env : Type := mkProbeEnv {
  kzalloc_ok : bool;
  endpoints_rv : Z;
  maxp : Z;
  kmalloc_ok : bool;
  alloc_in_urb_ok : bool;
  register_rv : Z
}.

(** [ugci_probe]: the state of a freshly attached device, or [None] with the
    error when the attach fails (the object is released again).  The content
    of the new [bulk_in_buffer] is arbitrary; zeroes stand for it. *)
Definition ugci_probe (p : probe_env) : Z * option usb_ugci :=
  if negb (kzalloc_ok p) then (- ENOMEM, None)
  else if negb (endpoints_rv p =? 0) then (endpoints_rv p, None)
  else if negb (kmalloc_ok p) then (- ENOMEM, None)
  else if negb (alloc_in_urb_ok p) then (- ENOMEM, None)
  else if negb (register_rv p =? 0) then (register_rv p, None)
  else
    (0, Some (mkDev true WRITES_IN_FLIGHT [] true
                    (repeat x00 (Z.to_nat (size_t (maxp p))))
                    (size_t (maxp p)) 0 0 0 false 1 false [] true true []
                    [])).

Definition ugci_disconnect (d : usb_ugci) : usb_ugci :=
  let d1 := set_intfdata false d in
  let d2 := set_minor false d1 in        (* usb_deregister_dev *)
  let d3 := set_interface false d2 in    (* under io_mutex *)
  let d4 := usb_kill_anchored_urbs d3 in
  kref_put d4.

Definition ugci_suspend (evs : list (nat * Z)) (d : usb_ugci) : usb_ugci :=
  if negb (intfdata d) then d else ugci_draw_down evs d.

Definition ugci_resume (d : usb_ugci) : usb_ugci := d.

Definition ugci_pre_reset (evs : list (nat * Z)) (d : usb_ugci) : usb_ugci :=
  ugci_draw_down evs (set_io_mutex true d).

Definition ugci_post_reset (d : usb_ugci) : usb_ugci :=
  set_io_mutex false (set_errors (- EPIPE) d).

(** ** Histories of the device *)

(** Everything that can happen to an attached device: calls into the driver
    and transfers being given back by the USB core. *)
Inductive op : Type :=
| OpOpen (pm_rv : Z)
| OpRelease (f : file)
| OpFlush (f : file) (evs : list (nat * Z))
| OpRead (f : file) (env : read_env) (fuel : nat) (count : Z)
| OpWrite (f : file) (env : write_env) (user_buffer : list byte) (count : Z)
| OpReadComplete (status : Z) (data : list byte)
| OpWriteComplete (i : nat) (status : Z)
| OpDisconnect
| OpSuspend (evs : list (nat * Z))
| OpResume
| OpPreReset (evs : list (nat * Z))
| OpPostReset.

(** The effect of one of them on the device.  Calls are taken one at a time;
    a call that would have to sleep on [io_mutex] is let through, which only
    adds behaviours. *)
Definition exec (o : op) (d : usb_ugci) : usb_ugci :=
  match o with
  | OpOpen pm_rv => snd (ugci_open pm_rv d)
  | OpRelease f => snd (ugci_release f d)
  | OpFlush f evs => snd (ugci_flush f evs d)
  | OpRead f env fuel count => snd (ugci_read f env fuel count d)
  | OpWrite f env user_buffer count =>
      snd (ugci_write f env user_buffer count d)
  | OpReadComplete status data => giveback_bulk_in status data d
  | OpWriteComplete i status => giveback_bulk_out i status d
  | OpDisconnect => ugci_disconnect d
  | OpSuspend evs => ugci_suspend evs d
  | OpResume => ugci_resume d
  | OpPreReset evs => ugci_pre_reset evs d
  | OpPostReset => ugci_post_reset d
  end.

Definition run (ops : list op) (d : usb_ugci) : usb_ugci :=
  fold_left (fun acc o => exec o acc) ops d.

(** The kernel's side of the interface: a completion status and the result of
    [usb_submit_urb] are 0 or a negative errno, a [size_t] is in range. *)
Definition statuses_ok (evs : list (nat * Z)) : Prop :=
  Forall (fun ev => snd ev <= 0) evs.

Definition wait_ok (w : wait_outcome) : Prop :=
  match w with
  | WaitSignal => True
  | WaitCompleted status _ => status <= 0
  end.

Definition op_ok (o : op) : Prop :=
  match o with
  | OpFlush _ evs | OpSuspend evs | OpPreReset evs => statuses_ok evs
  | OpRead _ env _ count =>
      0 <= count < 2 ^ 64 /\
      (forall i, wait_ok (wait_ev env i)) /\
      (forall i, submit_rv env i <= 0)
  | OpWrite _ env _ count =>
      0 <= count < 2 ^ 64 /\
      out_submit_rv env <= 0 /\
      match sem_wait env with Some (_, status) => status <= 0 | None => True end
  | OpReadComplete status _ => status <= 0
  | OpWriteComplete _ status => status <= 0
  | _ => True
  end.

Definition probe_ok (p : probe_env) : Prop := 0 <= maxp p < 2 ^ 16.

(** States an attached device can be in. *)
Inductive reachable : usb_ugci -> Prop :=
| reach_probe : forall p d,
    probe_ok p -> ugci_probe p = (0, Some d) -> reachable d
| reach_exec : forall o d,
    reachable d -> op_ok o -> reachable (exec o d).

(** ** Invariant *)

(** Where consumption of the current inbound transfer stands according to the
    history: [Some c] when every [copy_to_user] since the latest inbound
    submission began at or after the end of the one before it, [c] being the
    end of the last one; [None] when some copy went back over earlier
    bytes. *)
Fixpoint frontier (h : list event) : option Z :=
  match h with
  | [] => Some 0
  | e :: h' =>
      match frontier h' with
      | None => None
      | Some c =>
          match e with
          | EvLog _ => Some c
          | EvSubmitIn _ _ => Some 0
          | EvCopyOut off len _ =>
              if (c <=? off) && (0 <=? len) then Some (off + len) else None
          end
      end
  end.

(** Number of inbound submissions asked for so far. *)
Fixpoint submissions (h : list event) : nat :=
  match h with
  | [] => O
  | EvSubmitIn _ _ :: h' => S (submissions h')
  | _ :: h' => submissions h'
  end.

(** Bytes of the current inbound transfer not yet handed to a reader. *)
Definition pending (d : usb_ugci) : list byte :=
  firstn (Z.to_nat (bulk_in_filled d - bulk_in_copied d))
         (skipn (Z.to_nat (bulk_in_copied d)) (bulk_in_buffer d)).

Record Inv (d : usb_ugci) : Prop := mkInv {
  inv_sem_nonneg : 0 <= limit_sem d;
  inv_sem : limit_sem d + Z.of_nat (length (submitted d)) = WRITES_IN_FLIGHT;
  inv_size : 0 <= bulk_in_size d < 2 ^ 16;
  inv_buf : Z.of_nat (length (bulk_in_buffer d)) = bulk_in_size d;
  inv_copied : 0 <= bulk_in_copied d <= bulk_in_filled d;
  inv_filled : bulk_in_filled d <= bulk_in_size d;
  inv_urb : bulk_in_urb d = true;
  inv_err : errors d <= 0;
  inv_read :
    (in_flight_reads d = [] /\ ongoing_read d = false) \/
    (exists n, in_flight_reads d = [n] /\ 0 <= n <= bulk_in_size d /\
               ongoing_read d = true /\
               bulk_in_filled d = 0 /\ bulk_in_copied d = 0);
  inv_hist : frontier (hist d) = Some (bulk_in_copied d)
}.

(** A state in which the caller holds one permit not yet bound to a URB. *)
Definition holds_permit (d : usb_ugci) : Prop :=
  0 <= limit_sem d /\ Inv (up_limit_sem d).

(** [d'] has the history of [d] with further events after it. *)
Definition extends (d d' : usb_ugci) : Prop :=
  exists new, hist d' = new ++ hist d.

(** The state left by the copy step of [ugci_read] (lines 319-326). *)
Definition after_copy (ok : bool) (count : Z) (d : usb_ugci) : usb_ugci :=
  let chunk := Z.min (bulk_in_filled d - bulk_in_copied d) count in
  set_bulk_in_copied (bulk_in_copied d + chunk)
                     (record (EvCopyOut (bulk_in_copied d) chunk ok) d).



(** Fields that the completion of an outbound URB does not touch. *)
Definition same_inbound (d d' : usb_ugci) : Prop :=
  in_flight_reads d' = in_flight_reads d /\
  ongoing_read d' = ongoing_read d /\
  interface d' = interface d /\
  minor d' = minor d /\
  intfdata d' = intfdata d /\
  kref d' = kref d /\
  bulk_in_urb d' = bulk_in_urb d.

(** ** A concrete device *)

(** A device whose bulk-in endpoint has 64-byte packets, just attached. *)
Definition probe64 : probe_env := mkProbeEnv true 0 64 true true 0.

Definition attached64 : usb_ugci :=
  mkDev true 8 [] true (repeat x00 64) 64 0 0 0 false 1 false [] true true []
        [].

Definition file_blocking : file := mkFile true false.
Definition file_nonblocking : file := mkFile true true.

(** Nothing completes, submissions are accepted, the caller's buffer is
    writable. *)
Definition env_idle : read_env :=
  mkReadEnv false (fun _ => WaitSignal) (fun _ => 0) false.

(** [attached64] after a non-blocking read of 100 bytes has started the
    inbound transfer and returned [-EAGAIN]. *)
Definition reading64 : usb_ugci :=
  mkDev true 8 [] true (repeat x00 64) 64 0 0 0 true 1 false [64] true true
        [EvSubmitIn 64 0] [].


(** [reading64] after the transfer has brought four bytes. *)
Definition filled64 : usb_ugci :=
  giveback_bulk_in 0 [x41; x42; x43; x44] reading64.

(** As [env_idle], but the caller's buffer is not writable. *)
Definition env_fault : read_env :=
  mkReadEnv false (fun _ => WaitSignal) (fun _ => 0) true.

(** Allocations succeed and the submission is accepted. *)
Definition wenv_ok : write_env := mkWriteEnv None true true 0.

(** ** Further notions used below *)

(** Fields that no read, write, flush or completion changes. *)
Definition same_attachment (d d' : usb_ugci) : Prop :=
  interface d' = interface d /\
  bulk_in_urb d' = bulk_in_urb d /\
  bulk_in_size d' = bulk_in_size d /\
  minor d' = minor d /\
  intfdata d' = intfdata d /\
  kref d' = kref d /\
  io_mutex d' = io_mutex d.

(** The device has been detached. *)
Definition detached (d : usb_ugci) : Prop :=
  interface d = false /\ minor d = false /\ intfdata d = false.

(** The inbound buffer and its two offsets. *)
Definition same_buffer (d d' : usb_ugci) : Prop :=
  bulk_in_buffer d' = bulk_in_buffer d /\
  bulk_in_filled d' = bulk_in_filled d /\
  bulk_in_copied d' = bulk_in_copied d.

(** The outbound side: the anchored URBs and the free permits. *)
Definition same_outbound (d d' : usb_ugci) : Prop :=
  submitted d' = submitted d /\ limit_sem d' = limit_sem d.

(** [attached64] with eight one-byte writes outstanding. *)
Definition full64 : usb_ugci :=
  mkDev true 0 (repeat (mkUrb [x01] 1) 8) true (repeat x00 64) 64 0 0 0
        false 1 false [] true true [] (repeat [x01] 8).

(** [filled64] after a reset of the device. *)
Definition reset64 : usb_ugci := ugci_post_reset filled64.

(** The core refuses every submission for lack of memory. *)
Definition env_refuse : read_env :=
  mkReadEnv false (fun _ => WaitSignal) (fun _ => - ENOMEM) false.

(** Every transfer completes with the four bytes [ABCD]. *)
Definition env_data : read_env :=
  mkReadEnv false (fun _ => WaitCompleted 0 [x41; x42; x43; x44])
            (fun _ => 0) false.

(** The anchored URBs and the live staging buffers. *)
Definition same_staging (d d' : usb_ugci) : Prop :=
  submitted d' = submitted d /\ coherent d' = coherent d.

(** The staging buffers that are live are those of the anchored URBs, one
    for each. *)
Definition staged (d : usb_ugci) : Prop :=
  Permutation (coherent d) (map transfer_buffer (submitted d)).

(** ** Arithmetic of the conversions *)

Lemma size_t_small (z : Z) : 0 <= z < 2 ^ 64 -> size_t z = z.
Proof. intros H. unfold size_t. apply Z.mod_small. exact H. Qed.

Lemma to_u32_small (z : Z) : 0 <= z < 2 ^ 32 -> to_u32 z = z.
Proof. intros H. unfold to_u32. apply Z.mod_small. exact H. Qed.

Lemma to_int_small (z : Z) : - 2 ^ 31 <= z < 2 ^ 31 -> to_int z = z.
Proof. intros H. unfold to_int. rewrite Z.mod_small; lia. Qed.

Lemma to_ssize_t_small (z : Z) : - 2 ^ 63 <= z < 2 ^ 63 -> to_ssize_t z = z.
Proof. intros H. unfold to_ssize_t. rewrite Z.mod_small; lia. Qed.

(** ** Staging buffers *)

Lemma bytes_eqb_refl (b : list byte) : bytes_eqb b b = true.
Proof.
  induction b as [|x b IH]; simpl; [reflexivity|].
  rewrite IH, (Byte.byte_dec_lb eq_refl). reflexivity.
Qed.

Lemma bytes_eqb_eq (a b : list byte) : bytes_eqb a b = true -> a = b.
Proof.
  revert b. induction a as [|x a IH]; intros [|y b]; simpl;
    try discriminate; [reflexivity|].
  intros H. apply andb_prop in H. destruct H as [Hx Hab].
  apply Byte.byte_dec_bl in Hx. rewrite Hx, (IH b Hab). reflexivity.
Qed.

Lemma remove_one_head (b : list byte) (l : list (list byte)) :
  remove_one b (b :: l) = l.
Proof. simpl. rewrite bytes_eqb_refl. reflexivity. Qed.

Lemma remove_one_perm (b : list byte) (l : list (list byte)) :
  In b l -> Permutation l (b :: remove_one b l).
Proof.
  induction l as [|x l IH]; simpl; [intros []|].
  intros H. destruct (bytes_eqb x b) eqn:E.
  - apply bytes_eqb_eq in E. rewrite E. apply Permutation_refl.
  - destruct H as [H|H].
    + rewrite H, bytes_eqb_refl in E. discriminate.
    + apply Permutation_trans with (x :: b :: remove_one b l).
      * apply perm_skip. apply IH. exact H.
      * apply perm_swap.
Qed.

Lemma remove_one_length (b : list byte) (l : list (list byte)) :
  In b l -> S (length (remove_one b l)) = length l.
Proof.
  intros H. apply remove_one_perm in H. apply Permutation_length in H.
  simpl in H. symmetry. exact H.
Qed.

(** Giving a buffer back right after it was obtained leaves the device as
    it was. *)
Lemma usb_free_coherent_fresh (buf : list byte) (d : usb_ugci) :
  usb_free_coherent buf (set_coherent (buf :: coherent d) d) = d.
Proof.
  destruct d. unfold usb_free_coherent, set_coherent. simpl.
  rewrite bytes_eqb_refl. reflexivity.
Qed.

Lemma usb_free_coherent_alloc (n : Z) (d : usb_ugci) :
  usb_free_coherent (fst (usb_alloc_coherent n d))
                    (snd (usb_alloc_coherent n d)) = d.
Proof. unfold usb_alloc_coherent. simpl. apply usb_free_coherent_fresh. Qed.

Lemma fill_coherent_alloc (buf : list byte) (n : Z) (d : usb_ugci) :
  fill_coherent buf (snd (usb_alloc_coherent n d)) =
  set_coherent (buf :: coherent d) d.
Proof. destruct d. reflexivity. Qed.

Lemma usb_free_coherent_unanchor
    (buf : list byte) (rv : Z) (u : urb) (d : usb_ugci) :
  usb_free_coherent buf
    (usb_unanchor_urb
       (dev_err rv (usb_anchor_urb u (set_coherent (buf :: coherent d) d)))) =
  usb_unanchor_urb (dev_err rv (usb_anchor_urb u d)).
Proof.
  destruct d. unfold usb_free_coherent, usb_unanchor_urb, dev_err, record,
    usb_anchor_urb, set_submitted, set_coherent. simpl.
  rewrite bytes_eqb_refl. reflexivity.
Qed.

Lemma urb_len_small (z : Z) : 0 <= z < 2 ^ 16 -> to_u32 (to_int z) = z.
Proof.
  intros H. rewrite to_int_small by lia. apply to_u32_small. lia.
Qed.

Lemma overlay_length (data buf : list byte) :
  (length data <= length buf)%nat -> length (overlay data buf) = length buf.
Proof.
  intros H. unfold overlay. rewrite length_app, length_skipn. lia.
Qed.

Lemma remove_nth_length {A : Type} (i : nat) (l : list A) :
  (i < length l)%nat -> length (remove_nth i l) = pred (length l).
Proof.
  intros H. unfold remove_nth.
  rewrite length_app, length_firstn, length_skipn. lia.
Qed.

(** ** The invariant is kept by the USB core's give-backs *)

Lemma Inv_giveback_bulk_in (status : Z) (data : list byte) (d : usb_ugci) :
  status <= 0 -> Inv d -> Inv (giveback_bulk_in status data d).
Proof.
  intros Hst HI. unfold giveback_bulk_in.
  destruct (in_flight_reads d) as [|n rest] eqn:E; [exact HI|].
  destruct HI as [Hsn Hs Hsz Hb Hc Hf Hu He Hr Hh].
  destruct Hr as [[Hr _]|[m (Hr & Hm & Ho & Hf0 & Hc0)]]; [congruence|].
  rewrite E in Hr. injection Hr as Hn Hrest. subst n rest.
  assert (Hlen : Z.of_nat (length (firstn (Z.to_nat m) data)) <= m)
    by (rewrite length_firstn; lia).
  assert (Hov : Z.of_nat (length (overlay (firstn (Z.to_nat m) data)
                                          (bulk_in_buffer d)))
                = bulk_in_size d)
    by (rewrite overlay_length; lia).
  unfold ugci_read_bulk_callback.
  destruct (status =? 0) eqn:Es.
  - constructor; simpl; auto; lia.
  - destruct (unlink_status status); constructor; simpl; auto; try lia.
    rewrite Hh. reflexivity.
Qed.

Lemma Inv_giveback_bulk_out (i : nat) (status : Z) (d : usb_ugci) :
  status <= 0 -> Inv d -> Inv (giveback_bulk_out i status d).
Proof.
  intros Hst HI. unfold giveback_bulk_out.
  destruct (nth_error (submitted d) i) as [u|] eqn:E; [|exact HI].
  assert (Hi : (i < length (submitted d))%nat)
    by (apply nth_error_Some; congruence).
  destruct HI as [Hsn Hs Hsz Hb Hc Hf Hu He Hr Hh].
  unfold ugci_write_bulk_callback.
  destruct (status =? 0) eqn:Es; [|destruct (unlink_status status)];
    constructor; simpl; auto; try lia;
    try (rewrite remove_nth_length by exact Hi; lia).
  rewrite Hh. reflexivity.
Qed.

Lemma giveback_bulk_out_length (i : nat) (status : Z) (d : usb_ugci) :
  (i < length (submitted d))%nat ->
  length (submitted (giveback_bulk_out i status d))
  = pred (length (submitted d)).
Proof.
  intros Hi. unfold giveback_bulk_out.
  destruct (nth_error (submitted d) i) as [u|] eqn:E.
  - unfold ugci_write_bulk_callback.
    destruct (status =? 0); [|destruct (unlink_status status)]; simpl;
      apply remove_nth_length; exact Hi.
  - apply nth_error_None in E. lia.
Qed.

Lemma Inv_kill_anchored (n : nat) (d : usb_ugci) :
  Inv d -> Inv (kill_anchored n d).
Proof.
  revert d. induction n as [|n IH]; intros d HI; simpl; [exact HI|].
  apply IH. apply Inv_giveback_bulk_out; [unfold ENOENT; lia | exact HI].
Qed.

Lemma kill_anchored_empty (n : nat) (d : usb_ugci) :
  length (submitted d) = n -> submitted (kill_anchored n d) = [].
Proof.
  revert d. induction n as [|n IH]; intros d Hn; simpl.
  - destruct (submitted d); [reflexivity | discriminate].
  - apply IH. rewrite giveback_bulk_out_length; lia.
Qed.

Lemma usb_kill_anchored_urbs_empty (d : usb_ugci) :
  submitted (usb_kill_anchored_urbs d) = [].
Proof. apply kill_anchored_empty. reflexivity. Qed.

Lemma Inv_usb_kill_urb_in (d : usb_ugci) : Inv d -> Inv (usb_kill_urb_in d).
Proof.
  intros HI. unfold usb_kill_urb_in. destruct (bulk_in_urb d); [|exact HI].
  apply Inv_giveback_bulk_in; [unfold ENOENT; lia | exact HI].
Qed.

Lemma Inv_givebacks (evs : list (nat * Z)) (d : usb_ugci) :
  statuses_ok evs -> Inv d ->
  Inv (fold_left (fun acc ev => giveback_bulk_out (fst ev) (snd ev) acc)
                 evs d).
Proof.
  intros Hok. revert d. induction Hok as [|ev evs Hev _ IH]; intros d HI;
    simpl; [exact HI|].
  apply IH. apply Inv_giveback_bulk_out; assumption.
Qed.

Lemma Inv_ugci_draw_down (evs : list (nat * Z)) (d : usb_ugci) :
  statuses_ok evs -> Inv d -> Inv (ugci_draw_down evs d).
Proof.
  intros Hok HI. unfold ugci_draw_down, usb_wait_anchor_empty_timeout.
  apply Inv_usb_kill_urb_in.
  pose proof (Inv_givebacks evs d Hok HI) as HI1.
  destruct (submitted (fold_left _ evs d)); simpl; [exact HI1|].
  apply Inv_kill_anchored. exact HI1.
Qed.

(** ** The invariant is kept by the read path *)

Lemma Inv_idle (d : usb_ugci) :
  Inv d -> ongoing_read d = false -> in_flight_reads d = [].
Proof.
  intros HI Ho. destruct (inv_read d HI) as [[H _]|[n (_ & _ & H & _)]];
    [exact H | congruence].
Qed.

Lemma Inv_ugci_do_read_io (rv count : Z) (d : usb_ugci) :
  Inv d -> ongoing_read d = false -> 0 <= count -> rv <= 0 ->
  Inv (snd (ugci_do_read_io rv count d)).
Proof.
  intros HI Ho Hcount Hrv. pose proof (Inv_idle d HI Ho) as Hidle.
  destruct HI as [Hsn Hs Hsz Hb Hc Hf Hu He Hr Hh].
  unfold ugci_do_read_io, usb_submit_urb_in.
  rewrite urb_len_small by lia.
  destruct (rv <? 0) eqn:Eneg.
  - assert (Hz : (rv =? 0) = false) by lia. rewrite Hz.
    constructor; simpl; auto; try lia. rewrite Hh. reflexivity.
  - assert (Hz : (rv =? 0) = true) by lia. rewrite Hz.
    constructor; simpl; auto; try lia.
    + right. exists (Z.min (bulk_in_size d) count). rewrite Hidle.
      simpl. repeat split; auto; lia.
    + rewrite Hh. reflexivity.
Qed.

Lemma read_wait_spec (nonblock : bool) (w : wait_outcome) (d : usb_ugci) :
  wait_ok w -> Inv d ->
  Inv (snd (read_wait nonblock w d)) /\
  ((fst (read_wait nonblock w d) <? 0) = false ->
   ongoing_read (snd (read_wait nonblock w d)) = false).
Proof.
  intros Hw HI. unfold read_wait.
  destruct (ongoing_read d) eqn:Ho; [|simpl; auto].
  destruct nonblock; [simpl; split; [exact HI | discriminate]|].
  unfold wait_bulk_in. destruct w as [|status data]; simpl.
  - split; [exact HI | discriminate].
  - pose proof (Inv_giveback_bulk_in status data d Hw HI) as HI1.
    destruct (ongoing_read (giveback_bulk_in status data d)) eqn:Ho1; simpl;
      split; auto; discriminate.
Qed.

Lemma Inv_ugci_read_retry
    (env : read_env) (nonblock : bool) (count : Z) :
  0 <= count < 2 ^ 64 ->
  (forall i, wait_ok (wait_ev env i)) ->
  (forall i, submit_rv env i <= 0) ->
  forall (fuel i : nat) (d : usb_ugci),
    Inv d -> Inv (snd (ugci_read_retry fuel i env nonblock count d)).
Proof.
  intros Hcount Hw Hsub. induction fuel as [|fuel IH]; intros i d HI;
    simpl; [exact HI|].
  destruct (read_wait_spec nonblock (wait_ev env i) d (Hw i) HI)
    as [HI1 Hidle].
  destruct (read_wait nonblock (wait_ev env i) d) as [rv d1]; simpl in *.
  destruct (rv <? 0) eqn:Erv; [exact HI1|].
  specialize (Hidle eq_refl).
  assert (Hretry : forall c, 0 <= c ->
            Inv (snd (let '(rv0, d2) :=
                        ugci_do_read_io (submit_rv env i) c d1 in
                      if rv0 <? 0 then (Some rv0, [], d2)
                      else ugci_read_retry fuel (S i) env nonblock count d2))).
  { intros c Hc.
    pose proof (Inv_ugci_do_read_io (submit_rv env i) c d1 HI1 Hidle Hc
                                    (Hsub i)) as HI2.
    destruct (ugci_do_read_io (submit_rv env i) c d1) as [rv0 d2];
      simpl in *.
    destruct (rv0 <? 0); [exact HI2 | apply IH; exact HI2]. }
  destruct (errors d1 <? 0).
  { destruct HI1; constructor; simpl; auto; lia. }
  destruct (bulk_in_filled d1 =? 0) eqn:Efill; simpl;
    [apply Hretry; lia|].
  pose proof (inv_copied d1 HI1) as Hc1.
  pose proof (inv_filled d1 HI1) as Hf1.
  pose proof (inv_size d1 HI1) as Hs1.
  rewrite (size_t_small (bulk_in_filled d1 - bulk_in_copied d1)) by lia.
  destruct (bulk_in_filled d1 - bulk_in_copied d1 =? 0) eqn:Eav;
    [apply Hretry; lia|].
  simpl.
  set (chunk := Z.min (bulk_in_filled d1 - bulk_in_copied d1) count).
  assert (Hchunk : 0 <= chunk <= bulk_in_filled d1 - bulk_in_copied d1)
    by (unfold chunk; lia).
  assert (HI2 : Inv (set_bulk_in_copied
                       (size_t (bulk_in_copied d1 + chunk))
                       (record (EvCopyOut (bulk_in_copied d1) chunk
                                          (negb (copy_fault env))) d1))).
  { rewrite size_t_small by lia.
    destruct HI1 as [Hsn Hs Hsz Hb Hc Hf Hu He Hr Hh].
    constructor; simpl; auto; try lia.
    - left. split; [apply Inv_idle; [constructor; auto | exact Hidle]
                   | exact Hidle].
    - rewrite Hh.
      replace (bulk_in_copied d1 <=? bulk_in_copied d1) with true by lia.
      replace (0 <=? chunk) with true by lia. reflexivity. }
  destruct (bulk_in_filled d1 - bulk_in_copied d1 <? count) eqn:Elt;
    [|exact HI2].
  apply Inv_ugci_do_read_io; auto.
  unfold size_t. apply Z.mod_pos_bound. lia.
Qed.

Lemma Inv_ugci_read
    (f : file) (env : read_env) (fuel : nat) (count : Z) (d : usb_ugci) :
  0 <= count < 2 ^ 64 ->
  (forall i, wait_ok (wait_ev env i)) ->
  (forall i, submit_rv env i <= 0) ->
  Inv d -> Inv (snd (ugci_read f env fuel count d)).
Proof.
  intros Hcount Hw Hsub HI. unfold ugci_read.
  destruct (negb (bulk_in_urb d) || (count =? 0)); [exact HI|].
  destruct (lock_intr env); [exact HI|].
  destruct (negb (interface d)); [exact HI|].
  apply Inv_ugci_read_retry; assumption.
Qed.

(** ** The invariant is kept by the write path *)

Lemma down_limit_sem_spec
    (nonblock : bool) (w : option (nat * Z)) (d : usb_ugci) :
  match w with Some (_, status) => status <= 0 | None => True end ->
  Inv d ->
  let '(rc, d1) := down_limit_sem nonblock w d in
  if rc =? 0 then holds_permit d1 else Inv d1.
Proof.
  intros Hw HI. unfold down_limit_sem.
  assert (Htake : forall d0, Inv d0 -> (0 <? limit_sem d0) = true ->
            holds_permit (set_limit_sem (limit_sem d0 - 1) d0)).
  { intros d0 [Hsn Hs Hsz Hb Hc Hf Hu He Hr Hh] Hpos. split; [simpl; lia|].
    constructor; simpl; auto; lia. }
  destruct (0 <? limit_sem d) eqn:Epos; [simpl; auto|].
  destruct nonblock; [simpl; exact HI|].
  destruct w as [[i status]|]; [|simpl; exact HI].
  pose proof (Inv_giveback_bulk_out i status d Hw HI) as HI1.
  destruct (0 <? limit_sem (giveback_bulk_out i status d)) eqn:Epos1; simpl;
    auto.
Qed.

Lemma Inv_release_permit (d : usb_ugci) :
  holds_permit d -> Inv (up_limit_sem d).
Proof. intros [_ H]. exact H. Qed.

Lemma holds_permit_clear_errors (d : usb_ugci) :
  holds_permit d -> holds_permit (set_errors 0 d).
Proof.
  intros [Hn [Hsn Hs Hsz Hb Hc Hf Hu He Hr Hh]]. split; [exact Hn|].
  constructor; simpl in *; auto; lia.
Qed.

Lemma Inv_anchor (u : urb) (d : usb_ugci) :
  holds_permit d -> Inv (usb_anchor_urb u d).
Proof.
  intros [Hn [Hsn Hs Hsz Hb Hc Hf Hu He Hr Hh]].
  constructor; simpl in *; auto. rewrite last_length. lia.
Qed.

Lemma Inv_unanchor (u : urb) (rv : Z) (d : usb_ugci) :
  holds_permit d ->
  Inv (up_limit_sem (usb_unanchor_urb (dev_err rv (usb_anchor_urb u d)))).
Proof.
  intros [Hn [Hsn Hs Hsz Hb Hc Hf Hu He Hr Hh]].
  constructor; simpl in *; auto; try lia.
  - rewrite removelast_last. lia.
  - rewrite Hh. reflexivity.
Qed.

(** [ugci_write] with the staging buffer followed through: it is live in
    the resulting state exactly when the URB was submitted. *)
Lemma ugci_write_eq
    (f : file) (env : write_env) (user_buffer : list byte) (count : Z)
    (d : usb_ugci) :
  ugci_write f env user_buffer count d =
  let writesize := Z.min count (size_t MAX_TRANSFER) in
  if count =? 0 then (0, d)
  else
    let '(rc, d1) := down_limit_sem (f_nonblock f) (sem_wait env) d in
    if negb (rc =? 0) then
      (if f_nonblock f then - EAGAIN else - ERESTARTSYS, d1)
    else
      let retval := errors d1 in
      let '(retval, d2) :=
        if retval <? 0 then (report retval, set_errors 0 d1)
        else (retval, d1) in
      if retval <? 0 then (retval, up_limit_sem d2)
      else if negb (alloc_urb_ok env) then (- ENOMEM, up_limit_sem d2)
      else if negb (alloc_buf_ok env) then (- ENOMEM, up_limit_sem d2)
      else
        match copy_from_user user_buffer writesize with
        | None => (- EFAULT, up_limit_sem d2)
        | Some buf =>
            if negb (interface d2) then (- ENODEV, up_limit_sem d2)
            else
              let u := mkUrb buf (to_u32 (to_int writesize)) in
              let d3 := usb_anchor_urb u d2 in
              let retval := out_submit_rv env in
              if negb (retval =? 0) then
                (retval,
                 up_limit_sem (usb_unanchor_urb (dev_err retval d3)))
              else
                (to_ssize_t writesize, set_coherent (buf :: coherent d3) d3)
        end.
Proof.
  unfold ugci_write. cbv zeta.
  destruct (count =? 0); [reflexivity|].
  destruct (down_limit_sem (f_nonblock f) (sem_wait env) d) as [rc d1].
  destruct (negb (rc =? 0)); [reflexivity|].
  destruct (if errors d1 <? 0 then (report (errors d1), set_errors 0 d1)
            else (errors d1, d1)) as [retval d2].
  destruct (retval <? 0); [reflexivity|].
  destruct (negb (alloc_urb_ok env)); [reflexivity|].
  destruct (negb (alloc_buf_ok env)); [reflexivity|].
  pose proof (usb_free_coherent_alloc
                (Z.min count (size_t MAX_TRANSFER)) d2) as Hfree.
  destruct (usb_alloc_coherent (Z.min count (size_t MAX_TRANSFER)) d2)
    as [buf0 d2a] eqn:Ha.
  cbn [fst snd] in Hfree.
  destruct (copy_from_user user_buffer (Z.min count (size_t MAX_TRANSFER)))
    as [buf|]; [|rewrite Hfree; reflexivity].
  assert (Hfill : fill_coherent buf d2a = set_coherent (buf :: coherent d2) d2).
  { rewrite <- (fill_coherent_alloc buf (Z.min count (size_t MAX_TRANSFER))).
    rewrite Ha. reflexivity. }
  rewrite Hfill.
  replace (interface (set_coherent (buf :: coherent d2) d2))
    with (interface d2) by reflexivity.
  destruct (negb (interface d2)).
  - rewrite usb_free_coherent_fresh. reflexivity.
  - destruct (negb (out_submit_rv env =? 0)).
    + rewrite usb_free_coherent_unanchor. reflexivity.
    + destruct d2. reflexivity.
Qed.

Lemma Inv_set_coherent (v : list (list byte)) (d : usb_ugci) :
  Inv d -> Inv (set_coherent v d).
Proof. intros [Hsn Hs Hsz Hb Hc Hf Hu He Hr Hh]. constructor; assumption. Qed.

Lemma Inv_ugci_write
    (f : file) (env : write_env) (user_buffer : list byte) (count : Z)
    (d : usb_ugci) :
  match sem_wait env with Some (_, status) => status <= 0 | None => True end ->
  Inv d -> Inv (snd (ugci_write f env user_buffer count d)).
Proof.
  intros Hw HI. rewrite ugci_write_eq.
  destruct (count =? 0); [exact HI|].
  pose proof (down_limit_sem_spec (f_nonblock f) (sem_wait env) d Hw HI)
    as Hdown.
  destruct (down_limit_sem (f_nonblock f) (sem_wait env) d) as [rc d1].
  destruct (rc =? 0); simpl; [|exact Hdown].
  assert (Hd2 : holds_permit
                  (snd (if errors d1 <? 0
                        then (report (errors d1), set_errors 0 d1)
                        else (errors d1, d1)))).
  { destruct (errors d1 <? 0); simpl;
      [apply holds_permit_clear_errors|]; exact Hdown. }
  destruct (if errors d1 <? 0 then (report (errors d1), set_errors 0 d1)
            else (errors d1, d1)) as [retval d2]; simpl in Hd2.
  destruct (retval <? 0); [apply Inv_release_permit; exact Hd2|].
  destruct (alloc_urb_ok env); simpl;
    [|apply Inv_release_permit; exact Hd2].
  destruct (alloc_buf_ok env); simpl;
    [|apply Inv_release_permit; exact Hd2].
  destruct (copy_from_user user_buffer _) as [buf|];
    [|apply Inv_release_permit; exact Hd2].
  destruct (interface d2); simpl; [|apply Inv_release_permit; exact Hd2].
  destruct (out_submit_rv env =? 0); cbn [negb snd].
  - apply Inv_set_coherent, Inv_anchor. exact Hd2.
  - apply Inv_unanchor. exact Hd2.
Qed.

(** ** The invariant holds in every reachable state *)

Lemma Inv_probe (p : probe_env) (d : usb_ugci) :
  probe_ok p -> ugci_probe p = (0, Some d) -> Inv d.
Proof.
  unfold probe_ok, ugci_probe. intros Hp H.
  destruct (kzalloc_ok p); [|discriminate].
  destruct (endpoints_rv p =? 0); [|discriminate].
  destruct (kmalloc_ok p); [|discriminate].
  destruct (alloc_in_urb_ok p); [|discriminate].
  destruct (register_rv p =? 0); [|discriminate].
  simpl in H. injection H as <-.
  rewrite size_t_small by lia.
  constructor; simpl; auto; try (unfold WRITES_IN_FLIGHT; lia).
  rewrite repeat_length. lia.
Qed.

Lemma Inv_exec (o : op) (d : usb_ugci) :
  op_ok o -> Inv d -> Inv (exec o d).
Proof.
  destruct o as [pm_rv|f|f evs|f env fuel count|f env ub count|status data
                |i status| |evs| |evs| ]; simpl; intros Hok HI.
  - unfold ugci_open. destruct (minor d), (intfdata d), (pm_rv =? 0); simpl;
      try exact HI.
    destruct HI; constructor; simpl; auto.
  - unfold ugci_release. destruct (private_data f); simpl; [|exact HI].
    destruct HI; constructor; simpl; auto.
  - unfold ugci_flush. destruct (private_data f); simpl; [|exact HI].
    destruct (Inv_ugci_draw_down evs d Hok HI).
    constructor; simpl; auto; lia.
  - destruct Hok as (Hc & Hw & Hs). apply Inv_ugci_read; assumption.
  - destruct Hok as (Hc & Hs & Hw). apply Inv_ugci_write; assumption.
  - apply Inv_giveback_bulk_in; assumption.
  - apply Inv_giveback_bulk_out; assumption.
  - unfold ugci_disconnect, kref_put, usb_kill_anchored_urbs.
    assert (HI3 : Inv (set_interface false
                         (set_minor false (set_intfdata false d))))
      by (destruct HI; constructor; simpl; auto).
    destruct (Inv_kill_anchored
                (length (submitted (set_interface false
                           (set_minor false (set_intfdata false d)))))
                _ HI3).
    constructor; simpl; auto.
  - unfold ugci_suspend. destruct (intfdata d); simpl; [|exact HI].
    apply Inv_ugci_draw_down; assumption.
  - exact HI.
  - unfold ugci_pre_reset. apply Inv_ugci_draw_down; [assumption|].
    destruct HI; constructor; simpl; auto.
  - unfold ugci_post_reset.
    destruct HI; constructor; simpl; auto. unfold EPIPE. lia.
Qed.

Lemma reachable_Inv (d : usb_ugci) : reachable d -> Inv d.
Proof.
  induction 1 as [p d Hp Hprobe | o d _ IH Hok].
  - exact (Inv_probe p d Hp Hprobe).
  - apply Inv_exec; assumption.
Qed.

(** ** The history only grows *)

Ltac grows :=
  first [ now (exists [])
        | now (eexists [_])
        | now (eexists [_; _])
        | now (eexists [_; _; _]) ].

Lemma extends_refl (d : usb_ugci) : extends d d.
Proof. grows. Qed.

Lemma extends_trans (d1 d2 d3 : usb_ugci) :
  extends d1 d2 -> extends d2 d3 -> extends d1 d3.
Proof.
  intros [n1 H1] [n2 H2]. exists (n2 ++ n1).
  rewrite H2, H1. apply app_assoc.
Qed.

Lemma extends_giveback_bulk_in (status : Z) (data : list byte) (d : usb_ugci) :
  extends d (giveback_bulk_in status data d).
Proof.
  unfold giveback_bulk_in, ugci_read_bulk_callback.
  destruct (in_flight_reads d); [grows|].
  destruct (status =? 0); [grows|]. destruct (unlink_status status); grows.
Qed.

Lemma extends_giveback_bulk_out (i : nat) (status : Z) (d : usb_ugci) :
  extends d (giveback_bulk_out i status d).
Proof.
  unfold giveback_bulk_out, ugci_write_bulk_callback.
  destruct (nth_error (submitted d) i); [|grows].
  destruct (status =? 0); [grows|]. destruct (unlink_status status); grows.
Qed.

Lemma extends_kill_anchored (n : nat) (d : usb_ugci) :
  extends d (kill_anchored n d).
Proof.
  revert d. induction n as [|n IH]; intros d; simpl; [apply extends_refl|].
  eapply extends_trans; [apply extends_giveback_bulk_out | apply IH].
Qed.

Lemma extends_ugci_draw_down (evs : list (nat * Z)) (d : usb_ugci) :
  extends d (ugci_draw_down evs d).
Proof.
  unfold ugci_draw_down, usb_wait_anchor_empty_timeout.
  assert (H1 : extends d (fold_left
             (fun acc ev => giveback_bulk_out (fst ev) (snd ev) acc) evs d)).
  { revert d. induction evs as [|ev evs IH]; intros d; simpl;
      [apply extends_refl|].
    eapply extends_trans; [apply extends_giveback_bulk_out | apply IH]. }
  eapply extends_trans; [exact H1|].
  assert (H2 : forall d0, extends d0 (usb_kill_urb_in d0)).
  { intros d0. unfold usb_kill_urb_in. destruct (bulk_in_urb d0);
      [apply extends_giveback_bulk_in | apply extends_refl]. }
  destruct (submitted (fold_left _ evs d)); simpl; [apply H2|].
  eapply extends_trans; [apply extends_kill_anchored | apply H2].
Qed.

Lemma extends_ugci_do_read_io (rv count : Z) (d : usb_ugci) :
  extends d (snd (ugci_do_read_io rv count d)).
Proof.
  unfold ugci_do_read_io, usb_submit_urb_in.
  destruct (rv <? 0), (rv =? 0); grows.
Qed.

Lemma extends_ugci_read_retry
    (env : read_env) (nonblock : bool) (count : Z) (fuel i : nat)
    (d : usb_ugci) :
  extends d (snd (ugci_read_retry fuel i env nonblock count d)).
Proof.
  revert i d. induction fuel as [|fuel IH]; intros i d; simpl;
    [apply extends_refl|].
  assert (Hw : extends d (snd (read_wait nonblock (wait_ev env i) d))).
  { unfold read_wait, wait_bulk_in. destruct (ongoing_read d); [|grows].
    destruct nonblock; [grows|].
    destruct (wait_ev env i) as [|status data]; [grows|].
    destruct (ongoing_read (giveback_bulk_in status data d)); simpl;
      apply extends_giveback_bulk_in. }
  destruct (read_wait nonblock (wait_ev env i) d) as [rv d1]; simpl in Hw.
  destruct (rv <? 0); [exact Hw|].
  eapply extends_trans; [exact Hw|].
  assert (Hretry : forall c,
            extends d1
              (snd (let '(rv0, d2) :=
                      ugci_do_read_io (submit_rv env i) c d1 in
                    if rv0 <? 0 then (Some rv0, [], d2)
                    else ugci_read_retry fuel (S i) env nonblock count d2))).
  { intros c. pose proof (extends_ugci_do_read_io (submit_rv env i) c d1)
      as H2.
    destruct (ugci_do_read_io (submit_rv env i) c d1) as [rv0 d2];
      simpl in H2.
    destruct (rv0 <? 0); [exact H2|].
    eapply extends_trans; [exact H2 | apply IH]. }
  destruct (errors d1 <? 0); [grows|].
  destruct (bulk_in_filled d1 =? 0); simpl; [apply Hretry|].
  destruct (size_t (bulk_in_filled d1 - bulk_in_copied d1) =? 0);
    [apply Hretry|].
  simpl.
  destruct (size_t (bulk_in_filled d1 - bulk_in_copied d1) <? count);
    [|grows].
  eapply extends_trans; [|apply extends_ugci_do_read_io]. grows.
Qed.

Lemma extends_ugci_write
    (f : file) (env : write_env) (user_buffer : list byte) (count : Z)
    (d : usb_ugci) :
  extends d (snd (ugci_write f env user_buffer count d)).
Proof.
  unfold ugci_write. destruct (count =? 0); [grows|].
  assert (Hd : extends d (snd (down_limit_sem (f_nonblock f)
                                              (sem_wait env) d))).
  { unfold down_limit_sem. destruct (0 <? limit_sem d); [grows|].
    destruct (f_nonblock f); [grows|].
    destruct (sem_wait env) as [[i status]|]; [|grows].
    destruct (0 <? limit_sem (giveback_bulk_out i status d)); simpl;
      apply extends_giveback_bulk_out. }
  destruct (down_limit_sem (f_nonblock f) (sem_wait env) d) as [rc d1];
    simpl in Hd.
  destruct (rc =? 0); simpl; [|exact Hd].
  eapply extends_trans; [exact Hd|].
  destruct (errors d1 <? 0); simpl;
    repeat match goal with
           | |- context [if ?b then _ else _] => destruct b; simpl
           | |- context [match copy_from_user ?b ?n with _ => _ end] =>
               destruct (copy_from_user b n); simpl
           end; grows.
Qed.

Lemma extends_exec (o : op) (d : usb_ugci) : extends d (exec o d).
Proof.
  destruct o as [pm_rv|f|f evs|f env fuel count|f env ub count|status data
                |i status| |evs| |evs| ]; simpl.
  - unfold ugci_open. destruct (minor d), (intfdata d), (pm_rv =? 0); grows.
  - unfold ugci_release. destruct (private_data f); grows.
  - unfold ugci_flush. destruct (private_data f); simpl; [|grows].
    destruct (extends_ugci_draw_down evs d) as [new H]. exists new. exact H.
  - unfold ugci_read.
    destruct (negb (bulk_in_urb d) || (count =? 0)); [grows|].
    destruct (lock_intr env); [grows|].
    destruct (negb (interface d)); [grows|].
    apply extends_ugci_read_retry.
  - apply extends_ugci_write.
  - apply extends_giveback_bulk_in.
  - apply extends_giveback_bulk_out.
  - unfold ugci_disconnect, kref_put, usb_kill_anchored_urbs.
    destruct (extends_kill_anchored
                (length (submitted (set_interface false
                           (set_minor false (set_intfdata false d)))))
                (set_interface false
                   (set_minor false (set_intfdata false d)))) as [new H].
    exists new. exact H.
  - unfold ugci_suspend. destruct (intfdata d); simpl; [|grows].
    apply extends_ugci_draw_down.
  - grows.
  - unfold ugci_pre_reset.
    destruct (extends_ugci_draw_down evs (set_io_mutex true d)) as [new H].
    exists new. exact H.
  - grows.
Qed.

(** ** Consumption according to the history *)

Lemma submissions_app (a b : list event) :
  submissions (a ++ b) = (submissions a + submissions b)%nat.
Proof.
  induction a as [|e a IH]; simpl; [reflexivity|].
  destruct e; simpl; rewrite IH; reflexivity.
Qed.

Lemma frontier_mono (new h : list event) (c c' : Z) :
  frontier h = Some c -> frontier (new ++ h) = Some c' ->
  submissions (new ++ h) = submissions h -> c <= c'.
Proof.
  intros Hc. revert c'. induction new as [|e new IH]; intros c' Hc' Hs;
    simpl in *.
  - rewrite Hc in Hc'. injection Hc' as <-. lia.
  - destruct (frontier (new ++ h)) as [c''|] eqn:E; [|discriminate].
    destruct e as [s|len rv|off len ok].
    + injection Hc' as <-. apply IH; auto.
    + rewrite submissions_app in Hs. lia.
    + destruct ((c'' <=? off) && (0 <=? len)) eqn:Eb; [|discriminate].
      injection Hc' as <-. apply andb_prop in Eb. destruct Eb as [E1 E2].
      specialize (IH c'' eq_refl Hs). lia.
Qed.

Lemma frontier_behind
    (new h : list event) (off len : Z) (ok : bool) (c : Z) :
  frontier (new ++ EvCopyOut off len ok :: h) = Some c ->
  submissions new = O ->
  off + len <= c /\
  forall off' len' ok', In (EvCopyOut off' len' ok') new -> off + len <= off'.
Proof.
  revert c. induction new as [|e new IH]; intros c Hc Hs; simpl in *.
  - destruct (frontier h) as [c0|]; [|discriminate].
    destruct ((c0 <=? off) && (0 <=? len)); [|discriminate].
    injection Hc as <-. split; [lia | intros ? ? ? []].
  - destruct (frontier (new ++ EvCopyOut off len ok :: h)) as [c1|] eqn:E;
      [|discriminate].
    destruct e as [s|l rv|o l k]; [| discriminate |].
    + injection Hc as <-. destruct (IH c1 eq_refl Hs) as [H1 H2].
      split; [exact H1|].
      intros off' len' ok' [Heq | Hin]; [discriminate | eauto].
    + destruct ((c1 <=? o) && (0 <=? l)) eqn:Eb; [|discriminate].
      injection Hc as <-. apply andb_prop in Eb. destruct Eb as [E1 E2].
      destruct (IH c1 eq_refl Hs) as [H1 H2].
      split; [lia|].
      intros off' len' ok' [Heq | Hin]; [|eauto].
      injection Heq as <- _ _. lia.
Qed.

Lemma Inv_run (ops : list op) (d : usb_ugci) :
  Forall op_ok ops -> Inv d -> Inv (run ops d).
Proof.
  intros Hok. revert d. unfold run.
  induction Hok as [|o ops Ho _ IH]; intros d HI; simpl; [exact HI|].
  apply IH. apply Inv_exec; assumption.
Qed.

(** ** What a read does when data is waiting in the buffer *)

Lemma ugci_read_retry_data
    (env : read_env) (nonblock : bool) (count : Z) (fuel i : nat)
    (d : usb_ugci) :
  Inv d -> ongoing_read d = false -> errors d = 0 ->
  bulk_in_copied d < bulk_in_filled d -> 0 < count < 2 ^ 64 ->
  let avail := bulk_in_filled d - bulk_in_copied d in
  let chunk := Z.min avail count in
  let ok := negb (copy_fault env) in
  ugci_read_retry (S fuel) i env nonblock count d =
  (Some (if ok then chunk else - EFAULT),
   if ok
   then firstn (Z.to_nat chunk)
               (skipn (Z.to_nat (bulk_in_copied d)) (bulk_in_buffer d))
   else [],
   if avail <? count
   then snd (ugci_do_read_io (submit_rv env i) (count - chunk)
                             (after_copy ok count d))
   else after_copy ok count d).
Proof.
  intros HI Ho He Hav Hcount avail chunk ok.
  pose proof (inv_copied d HI) as Hc.
  pose proof (inv_filled d HI) as Hf.
  pose proof (inv_size d HI) as Hs.
  cbn [ugci_read_retry]. unfold read_wait. rewrite Ho.
  change (0 <? 0) with false. cbv iota. rewrite He.
  change (0 <? 0) with false. cbv iota.
  replace (bulk_in_filled d =? 0) with false by lia. cbn [negb].
  rewrite (size_t_small (bulk_in_filled d - bulk_in_copied d)) by lia.
  fold avail. fold chunk.
  replace (avail =? 0) with false by (unfold avail; lia).
  assert (Hchunk : 0 <= chunk <= avail) by (unfold chunk, avail; lia).
  rewrite (size_t_small (bulk_in_copied d + chunk))
    by (unfold avail in Hchunk; lia).
  rewrite (size_t_small (count - chunk)) by (unfold avail in Hchunk; lia).
  rewrite (to_int_small chunk) by (unfold avail in Hchunk; lia).
  fold ok. unfold after_copy. fold avail. fold chunk.
  reflexivity.
Qed.

(** ** What the outbound give-backs leave alone *)

Lemma same_inbound_refl (d : usb_ugci) : same_inbound d d.
Proof. repeat split. Qed.

Lemma same_inbound_trans (d1 d2 d3 : usb_ugci) :
  same_inbound d1 d2 -> same_inbound d2 d3 -> same_inbound d1 d3.
Proof.
  unfold same_inbound. intros (A1 & A2 & A3 & A4 & A5 & A6 & A7)
                              (B1 & B2 & B3 & B4 & B5 & B6 & B7).
  repeat split; congruence.
Qed.

Lemma same_inbound_giveback_bulk_out (i : nat) (status : Z) (d : usb_ugci) :
  same_inbound d (giveback_bulk_out i status d).
Proof.
  unfold giveback_bulk_out, ugci_write_bulk_callback.
  destruct (nth_error (submitted d) i); [|apply same_inbound_refl].
  destruct (status =? 0); [|destruct (unlink_status status)];
    repeat split.
Qed.

Lemma same_inbound_kill_anchored (n : nat) (d : usb_ugci) :
  same_inbound d (kill_anchored n d).
Proof.
  revert d. induction n as [|n IH]; intros d; simpl;
    [apply same_inbound_refl|].
  eapply same_inbound_trans;
    [apply same_inbound_giveback_bulk_out | apply IH].
Qed.

(** * Properties of the driver *)

(** C1 (the code departs from it): a completion with a cancellation-class
    status is not logged, but both callbacks still store the status in
    [errors], exactly as they do for a genuine failure such as [-EPIPE]; the
    read or flush that follows reports it as [-EIO].  Shown for the three
    statuses on any state, and end to end on [reading64], whose inbound
    transfer is cancelled by suspend or by flush itself. *)
Theorem C1_unlink_status_is_recorded :
  (forall n d,
     errors (ugci_read_bulk_callback (- ENOENT) n d) = - ENOENT /\
     errors (ugci_read_bulk_callback (- ECONNRESET) n d) = - ECONNRESET /\
     errors (ugci_read_bulk_callback (- ESHUTDOWN) n d) = - ESHUTDOWN /\
     hist (ugci_read_bulk_callback (- ENOENT) n d) = hist d /\
     hist (ugci_read_bulk_callback (- ECONNRESET) n d) = hist d /\
     hist (ugci_read_bulk_callback (- ESHUTDOWN) n d) = hist d /\
     errors (ugci_read_bulk_callback (- EPIPE) n d) = - EPIPE /\
     hist (ugci_read_bulk_callback (- EPIPE) n d)
     = EvLog (- EPIPE) :: hist d) /\
  (forall u d,
     errors (ugci_write_bulk_callback (- ENOENT) u d) = - ENOENT /\
     errors (ugci_write_bulk_callback (- ECONNRESET) u d) = - ECONNRESET /\
     errors (ugci_write_bulk_callback (- ESHUTDOWN) u d) = - ESHUTDOWN /\
     hist (ugci_write_bulk_callback (- ENOENT) u d) = hist d /\
     hist (ugci_write_bulk_callback (- ECONNRESET) u d) = hist d /\
     hist (ugci_write_bulk_callback (- ESHUTDOWN) u d) = hist d /\
     errors (ugci_write_bulk_callback (- EPIPE) u d) = - EPIPE /\
     hist (ugci_write_bulk_callback (- EPIPE) u d)
     = EvLog (- EPIPE) :: hist d) /\
  ugci_read file_nonblocking env_idle 2 100 attached64
  = (Some (- EAGAIN), [], reading64) /\
  errors (ugci_suspend [] reading64) = - ENOENT /\
  fst (fst (ugci_read file_nonblocking env_idle 2 100
                      (ugci_suspend [] reading64))) = Some (- EIO) /\
  fst (ugci_flush file_blocking [] reading64) = - EIO.
Proof.
  split; [intros n d; repeat split|].
  split; [intros u d; repeat split|].
  repeat split.
Qed.

(** C3 (the code departs from it): [ugci_disconnect] deregisters, clears
    [interface] and kills the anchored outbound URBs, then drops its
    reference; it never touches the inbound URB.  An inbound transfer in
    flight stays in flight, here even after the last reference is gone,
    whereas [ugci_draw_down] on the same state cancels it. *)
Theorem C3_disconnect_leaves_inbound_in_flight :
  (forall d,
     in_flight_reads (ugci_disconnect d) = in_flight_reads d /\
     ongoing_read (ugci_disconnect d) = ongoing_read d /\
     minor (ugci_disconnect d) = false /\
     interface (ugci_disconnect d) = false /\
     submitted (ugci_disconnect d) = [] /\
     kref (ugci_disconnect d) = kref d - 1) /\
  in_flight_reads (ugci_disconnect reading64) = [64] /\
  ongoing_read (ugci_disconnect reading64) = true /\
  deleted (ugci_disconnect reading64) = true /\
  in_flight_reads (ugci_draw_down [] reading64) = [].
Proof.
  split; [|repeat split].
  intros d. unfold ugci_disconnect, kref_put, usb_kill_anchored_urbs.
  set (d3 := set_interface false (set_minor false (set_intfdata false d))).
  destruct (same_inbound_kill_anchored (length (submitted d3)) d3)
    as (H1 & H2 & H3 & H4 & H5 & H6 & H7).
  pose proof (kill_anchored_empty (length (submitted d3)) d3 eq_refl) as H8.
  simpl. repeat split; try assumption.
  change (submitted d) with (submitted d3). rewrite H6. reflexivity.
Qed.

(** C9: a read of length 0, and a read on a device without a bulk-in URB,
    returns 0, stores nothing in the caller's buffer and leaves every field
    of the state as it was. *)
Theorem C9_read_nothing_to_do
    (f : file) (env : read_env) (fuel : nat) (count : Z) (d : usb_ugci) :
  count = 0 \/ bulk_in_urb d = false ->
  ugci_read f env fuel count d = (Some 0, [], d).
Proof.
  intros [-> | H]; unfold ugci_read.
  - rewrite orb_true_r. reflexivity.
  - rewrite H. reflexivity.
Qed.

(** ** Draining *)

Lemma giveback_bulk_in_submitted (status : Z) (data : list byte) (d : usb_ugci) :
  submitted (giveback_bulk_in status data d) = submitted d.
Proof.
  unfold giveback_bulk_in, ugci_read_bulk_callback.
  destruct (in_flight_reads d); [reflexivity|].
  destruct (status =? 0); [|destruct (unlink_status status)]; reflexivity.
Qed.

Lemma ugci_draw_down_drained (evs : list (nat * Z)) (d : usb_ugci) :
  statuses_ok evs -> Inv d ->
  submitted (ugci_draw_down evs d) = [] /\
  in_flight_reads (ugci_draw_down evs d) = [].
Proof.
  intros Hok HI. unfold ugci_draw_down, usb_wait_anchor_empty_timeout.
  pose proof (Inv_givebacks evs d Hok HI) as HI1.
  set (d1 := fold_left _ evs d) in *.
  assert (Hkill : forall d2, Inv d2 -> submitted d2 = [] ->
            submitted (usb_kill_urb_in d2) = [] /\
            in_flight_reads (usb_kill_urb_in d2) = []).
  { intros d2 HI2 Hs2. unfold usb_kill_urb_in.
    rewrite (inv_urb d2 HI2). rewrite giveback_bulk_in_submitted.
    split; [exact Hs2|].
    unfold giveback_bulk_in, ugci_read_bulk_callback.
    destruct (inv_read d2 HI2) as [[H _]|[n (H & _)]]; rewrite H;
      [exact H|].
    change (- ENOENT =? 0) with false. reflexivity. }
  destruct (submitted d1) eqn:Es; simpl.
  - apply Hkill; assumption.
  - apply Hkill; [apply Inv_kill_anchored; exact HI1
                 | apply usb_kill_anchored_urbs_empty].
Qed.

Lemma giveback_bulk_out_idle (i : nat) (status : Z) (d : usb_ugci) :
  submitted d = [] -> giveback_bulk_out i status d = d.
Proof.
  intros H. unfold giveback_bulk_out. rewrite H.
  destruct i; reflexivity.
Qed.

Lemma ugci_draw_down_idle (evs : list (nat * Z)) (d : usb_ugci) :
  submitted d = [] -> in_flight_reads d = [] -> ugci_draw_down evs d = d.
Proof.
  intros Hs Hr. unfold ugci_draw_down, usb_wait_anchor_empty_timeout.
  assert (H1 : fold_left
                 (fun acc ev => giveback_bulk_out (fst ev) (snd ev) acc)
                 evs d = d).
  { induction evs as [|ev evs IH]; simpl; [reflexivity|].
    rewrite giveback_bulk_out_idle by exact Hs. exact IH. }
  rewrite H1, Hs. simpl. unfold usb_kill_urb_in, giveback_bulk_in.
  rewrite Hr. destruct (bulk_in_urb d); reflexivity.
Qed.

(** C8: [ugci_flush] first drains (afterwards no outbound URB is anchored and
    no inbound transfer is in flight), then returns the error left in
    [errors]: 0 for none, [-EPIPE] for [-EPIPE], [-EIO] for any other
    non-zero code, and clears it.  A second flush right after it returns 0
    and changes nothing. *)
Theorem C8_flush_reports_once
    (f : file) (evs : list (nat * Z)) (d : usb_ugci) :
  reachable d -> private_data f = true -> statuses_ok evs ->
  let d1 := ugci_draw_down evs d in
  let r := ugci_flush f evs d in
  (submitted d1 = [] /\ in_flight_reads d1 = []) /\
  (errors d1 = 0 -> fst r = 0) /\
  (errors d1 = - EPIPE -> fst r = - EPIPE) /\
  (errors d1 <> 0 -> errors d1 <> - EPIPE -> fst r = - EIO) /\
  snd r = set_errors 0 d1 /\
  forall evs', ugci_flush f evs' (snd r) = (0, snd r).
Proof.
  intros Hreach Hf Hok d1 r.
  pose proof (ugci_draw_down_drained evs d Hok (reachable_Inv d Hreach))
    as [Hs Hr].
  fold d1 in Hs, Hr.
  assert (Er : r = (if negb (errors d1 =? 0) then report (errors d1) else 0,
                    set_errors 0 d1)).
  { unfold r, ugci_flush. rewrite Hf. reflexivity. }
  rewrite Er. simpl. split; [split; assumption|].
  split; [intros ->; reflexivity|].
  split; [intros ->; reflexivity|].
  split.
  { intros H0 Hp. unfold report.
    destruct (errors d1 =? 0) eqn:E0;
      [apply Z.eqb_eq in E0; exact (False_ind _ (H0 E0))|].
    destruct (errors d1 =? - EPIPE) eqn:E1;
      [apply Z.eqb_eq in E1; exact (False_ind _ (Hp E1))|].
    reflexivity. }
  split; [reflexivity|].
  intros evs'. unfold ugci_flush. rewrite Hf. cbn [negb].
  rewrite ugci_draw_down_idle by assumption. reflexivity.
Qed.

(** ** What the inbound give-back leaves alone *)

Lemma giveback_bulk_in_frame (status : Z) (data : list byte) (d : usb_ugci) :
  interface (giveback_bulk_in status data d) = interface d /\
  bulk_in_urb (giveback_bulk_in status data d) = bulk_in_urb d /\
  limit_sem (giveback_bulk_in status data d) = limit_sem d.
Proof.
  unfold giveback_bulk_in, ugci_read_bulk_callback.
  destruct (in_flight_reads d); [repeat split|].
  destruct (status =? 0); [|destruct (unlink_status status)]; repeat split.
Qed.

Lemma giveback_bulk_in_idle (status : Z) (data : list byte) (d : usb_ugci) :
  Inv d -> ongoing_read d = true ->
  ongoing_read (giveback_bulk_in status data d) = false /\
  in_flight_reads (giveback_bulk_in status data d) = [].
Proof.
  intros HI Ho. unfold giveback_bulk_in, ugci_read_bulk_callback.
  destruct (inv_read d HI) as [[_ H]|[n (H & _)]]; [congruence|].
  rewrite H.
  destruct (status =? 0); [|destruct (unlink_status status)]; split;
    reflexivity.
Qed.

(** C6: in every reachable state at most one inbound transfer is in flight,
    and [ongoing_read] is set exactly when one is.  A read that finds
    [ongoing_read] set does nothing before the transfer has completed: it
    returns [-EAGAIN] (non-blocking) or [-ERESTARTSYS] (signal) with the state
    untouched, or proceeds as the same read entered after the completion.  A
    failed submission leaves [ongoing_read] clear and nothing in flight. *)
Theorem C6_single_inbound_transfer (d : usb_ugci) :
  reachable d ->
  (length (in_flight_reads d) <= 1)%nat /\
  (ongoing_read d = true <-> length (in_flight_reads d) = 1%nat) /\
  (forall f env fuel count,
     count <> 0 -> lock_intr env = false -> interface d = true ->
     ongoing_read d = true ->
     (f_nonblock f = true ->
      ugci_read f env (S fuel) count d = (Some (- EAGAIN), [], d)) /\
     (f_nonblock f = false -> wait_ev env 0%nat = WaitSignal ->
      ugci_read f env (S fuel) count d = (Some (- ERESTARTSYS), [], d)) /\
     (f_nonblock f = false ->
      forall status data,
        wait_ev env 0%nat = WaitCompleted status data ->
        ongoing_read (giveback_bulk_in status data d) = false /\
        in_flight_reads (giveback_bulk_in status data d) = [] /\
        ugci_read f env (S fuel) count d
        = ugci_read f env (S fuel) count
                    (giveback_bulk_in status data d))) /\
  (forall rv count,
     rv < 0 ->
     ongoing_read (snd (ugci_do_read_io rv count d)) = false /\
     in_flight_reads (snd (ugci_do_read_io rv count d))
     = in_flight_reads d).
Proof.
  intros Hreach. pose proof (reachable_Inv d Hreach) as HI.
  split; [|split; [|split]].
  - destruct (inv_read d HI) as [[H _]|[n (H & _)]]; rewrite H; simpl; lia.
  - destruct (inv_read d HI) as [[H Ho]|[n (H & _ & Ho & _)]];
      rewrite H, Ho; simpl; split; auto; discriminate.
  - intros f env fuel count Hcount Hlock Hif Ho.
    assert (Hentry : forall d0,
              bulk_in_urb d0 = true -> interface d0 = true ->
              ugci_read f env (S fuel) count d0
              = ugci_read_retry (S fuel) 0 env (f_nonblock f) count d0).
    { intros d0 Hu0 Hi0. unfold ugci_read. rewrite Hu0, Hi0, Hlock.
      apply Z.eqb_neq in Hcount. rewrite Hcount. reflexivity. }
    rewrite (Hentry d (inv_urb d HI) Hif).
    split; [|split].
    + intros ->. cbn [ugci_read_retry]. unfold read_wait. rewrite Ho.
      reflexivity.
    + intros -> Hw. cbn [ugci_read_retry]. unfold read_wait, wait_bulk_in.
      rewrite Ho, Hw. reflexivity.
    + intros Hnb status data Hw.
      destruct (giveback_bulk_in_idle status data d HI Ho) as [Ho1 Hr1].
      destruct (giveback_bulk_in_frame status data d) as (Hi1 & Hu1 & _).
      split; [exact Ho1|]. split; [exact Hr1|].
      rewrite Hentry
        by (rewrite ?Hi1, ?Hu1; auto; apply (inv_urb d HI)).
      rewrite Hnb. cbn [ugci_read_retry]. unfold read_wait, wait_bulk_in.
      rewrite Ho, Hw, Ho1. reflexivity.
  - intros rv count Hrv. unfold ugci_do_read_io, usb_submit_urb_in.
    replace (rv <? 0) with true by lia.
    replace (rv =? 0) with false by lia. split; reflexivity.
Qed.

(** ** The staging buffers follow the anchored URBs *)

Lemma same_staging_trans (d1 d2 d3 : usb_ugci) :
  same_staging d1 d2 -> same_staging d2 d3 -> same_staging d1 d3.
Proof.
  unfold same_staging. intros (A1 & A2) (B1 & B2). split; congruence.
Qed.

Lemma staged_same_staging (d d' : usb_ugci) :
  same_staging d d' -> staged d -> staged d'.
Proof.
  unfold same_staging, staged. intros [Hs Hc]. rewrite Hs, Hc. auto.
Qed.

Lemma same_staging_giveback_bulk_in
    (status : Z) (data : list byte) (d : usb_ugci) :
  same_staging d (giveback_bulk_in status data d).
Proof.
  unfold giveback_bulk_in, ugci_read_bulk_callback.
  destruct (in_flight_reads d); [split; reflexivity|].
  destruct (status =? 0); [|destruct (unlink_status status)];
    split; reflexivity.
Qed.

Lemma same_staging_ugci_do_read_io (rv count : Z) (d : usb_ugci) :
  same_staging d (snd (ugci_do_read_io rv count d)).
Proof.
  unfold ugci_do_read_io, usb_submit_urb_in.
  destruct (rv <? 0), (rv =? 0); split; reflexivity.
Qed.

Lemma same_staging_read_wait
    (nonblock : bool) (w : wait_outcome) (d : usb_ugci) :
  same_staging d (snd (read_wait nonblock w d)).
Proof.
  unfold read_wait, wait_bulk_in.
  destruct (ongoing_read d); [|split; reflexivity].
  destruct nonblock; [split; reflexivity|].
  destruct w as [|status data]; [split; reflexivity|].
  destruct (ongoing_read (giveback_bulk_in status data d)); simpl;
    apply same_staging_giveback_bulk_in.
Qed.

Lemma same_staging_ugci_read_retry
    (env : read_env) (nonblock : bool) (count : Z) (fuel i : nat)
    (d : usb_ugci) :
  same_staging d (snd (ugci_read_retry fuel i env nonblock count d)).
Proof.
  revert i d. induction fuel as [|fuel IH]; intros i d; simpl;
    [split; reflexivity|].
  pose proof (same_staging_read_wait nonblock (wait_ev env i) d) as Hw.
  destruct (read_wait nonblock (wait_ev env i) d) as [rv d1]; simpl in Hw.
  destruct (rv <? 0); [exact Hw|].
  eapply same_staging_trans; [exact Hw|].
  assert (Hretry : forall c,
            same_staging d1
              (snd (let '(rv0, d2) :=
                      ugci_do_read_io (submit_rv env i) c d1 in
                    if rv0 <? 0 then (Some rv0, [], d2)
                    else ugci_read_retry fuel (S i) env nonblock count d2))).
  { intros c.
    pose proof (same_staging_ugci_do_read_io (submit_rv env i) c d1) as H2.
    destruct (ugci_do_read_io (submit_rv env i) c d1) as [rv0 d2];
      simpl in H2.
    destruct (rv0 <? 0); [exact H2|].
    eapply same_staging_trans; [exact H2 | apply IH]. }
  destruct (errors d1 <? 0); [split; reflexivity|].
  destruct (bulk_in_filled d1 =? 0); simpl; [apply Hretry|].
  destruct (size_t (bulk_in_filled d1 - bulk_in_copied d1) =? 0);
    [apply Hretry|].
  simpl.
  destruct (size_t (bulk_in_filled d1 - bulk_in_copied d1) <? count);
    [|split; reflexivity].
  eapply same_staging_trans; [|apply same_staging_ugci_do_read_io].
  split; reflexivity.
Qed.

Lemma same_staging_ugci_read
    (f : file) (env : read_env) (fuel : nat) (count : Z) (d : usb_ugci) :
  same_staging d (snd (ugci_read f env fuel count d)).
Proof.
  unfold ugci_read.
  destruct (negb (bulk_in_urb d) || (count =? 0)); [split; reflexivity|].
  destruct (lock_intr env); [split; reflexivity|].
  destruct (negb (interface d)); [split; reflexivity|].
  apply same_staging_ugci_read_retry.
Qed.

Lemma remove_nth_perm {A : Type} (i : nat) (l : list A) (u : A) :
  nth_error l i = Some u -> Permutation l (u :: remove_nth i l).
Proof.
  intros H. destruct (nth_error_split l i H) as (l1 & l2 & -> & <-).
  unfold remove_nth.
  rewrite firstn_app, firstn_all, Nat.sub_diag, firstn_O, app_nil_r.
  rewrite skipn_app, skipn_all2 by lia.
  replace (S (length l1) - length l1)%nat with 1%nat by lia.
  simpl. symmetry. apply Permutation_middle.
Qed.

(** What the completion of the [i]-th anchored URB does to the outbound
    side, whatever the status. *)
Lemma giveback_bulk_out_outbound
    (i : nat) (status : Z) (d : usb_ugci) (u : urb) :
  nth_error (submitted d) i = Some u ->
  limit_sem (giveback_bulk_out i status d) = limit_sem d + 1 /\
  submitted (giveback_bulk_out i status d) = remove_nth i (submitted d) /\
  coherent (giveback_bulk_out i status d)
  = remove_one (transfer_buffer u) (coherent d).
Proof.
  intros H. unfold giveback_bulk_out, ugci_write_bulk_callback. rewrite H.
  destruct (status =? 0); [|destruct (unlink_status status)];
    repeat split; reflexivity.
Qed.

Lemma staged_live (d : usb_ugci) (i : nat) (u : urb) :
  staged d -> nth_error (submitted d) i = Some u ->
  In (transfer_buffer u) (coherent d).
Proof.
  intros Hs E. apply (Permutation_in _ (Permutation_sym Hs)).
  apply in_map. eapply nth_error_In. exact E.
Qed.

Lemma staged_giveback_bulk_out (i : nat) (status : Z) (d : usb_ugci) :
  staged d -> staged (giveback_bulk_out i status d).
Proof.
  intros Hs. destruct (nth_error (submitted d) i) as [u|] eqn:E.
  - destruct (giveback_bulk_out_outbound i status d u E) as (_ & H1 & H2).
    unfold staged. rewrite H1, H2.
    apply Permutation_cons_inv with (a := transfer_buffer u).
    eapply Permutation_trans;
      [apply Permutation_sym, remove_one_perm, (staged_live d i u Hs E)|].
    eapply Permutation_trans; [exact Hs|].
    change (transfer_buffer u
            :: map transfer_buffer (remove_nth i (submitted d)))
      with (map transfer_buffer (u :: remove_nth i (submitted d))).
    apply Permutation_map, remove_nth_perm. exact E.
  - unfold giveback_bulk_out. rewrite E. exact Hs.
Qed.

Lemma staged_kill_anchored (n : nat) (d : usb_ugci) :
  staged d -> staged (kill_anchored n d).
Proof.
  revert d. induction n as [|n IH]; intros d Hs; simpl; [exact Hs|].
  apply IH, staged_giveback_bulk_out, Hs.
Qed.

Lemma staged_givebacks (evs : list (nat * Z)) (d : usb_ugci) :
  staged d ->
  staged (fold_left (fun acc ev => giveback_bulk_out (fst ev) (snd ev) acc)
                    evs d).
Proof.
  revert d. induction evs as [|ev evs IH]; intros d Hs; simpl; [exact Hs|].
  apply IH, staged_giveback_bulk_out, Hs.
Qed.

Lemma staged_ugci_draw_down (evs : list (nat * Z)) (d : usb_ugci) :
  staged d -> staged (ugci_draw_down evs d).
Proof.
  intros Hs. unfold ugci_draw_down, usb_wait_anchor_empty_timeout.
  pose proof (staged_givebacks evs d Hs) as H1.
  set (d1 := fold_left _ evs d) in *.
  assert (H2 : staged (if (match submitted d1 with [] => 1 | _ :: _ => 0 end)
                          =? 0
                       then usb_kill_anchored_urbs d1 else d1)).
  { destruct (_ =? 0); [apply staged_kill_anchored|]; exact H1. }
  unfold usb_kill_urb_in.
  destruct (bulk_in_urb _); [|exact H2].
  eapply staged_same_staging; [apply same_staging_giveback_bulk_in|exact H2].
Qed.

Lemma staged_down_limit_sem
    (nonblock : bool) (w : option (nat * Z)) (d : usb_ugci) :
  staged d -> staged (snd (down_limit_sem nonblock w d)).
Proof.
  intros Hs. unfold down_limit_sem.
  destruct (0 <? limit_sem d); [exact Hs|].
  destruct nonblock; [exact Hs|].
  destruct w as [[i status]|]; [|exact Hs].
  pose proof (staged_giveback_bulk_out i status d Hs) as H1.
  destruct (0 <? limit_sem (giveback_bulk_out i status d)); exact H1.
Qed.

Lemma staged_ugci_write
    (f : file) (env : write_env) (user_buffer : list byte) (count : Z)
    (d : usb_ugci) :
  staged d -> staged (snd (ugci_write f env user_buffer count d)).
Proof.
  intros Hs. rewrite ugci_write_eq. cbv zeta.
  destruct (count =? 0); [exact Hs|].
  pose proof (staged_down_limit_sem (f_nonblock f) (sem_wait env) d Hs)
    as Hdown.
  destruct (down_limit_sem (f_nonblock f) (sem_wait env) d) as [rc d1].
  cbn [snd] in Hdown.
  destruct (negb (rc =? 0)); [exact Hdown|].
  assert (Hd2 : staged
                  (snd (if errors d1 <? 0
                        then (report (errors d1), set_errors 0 d1)
                        else (errors d1, d1))))
    by (destruct (errors d1 <? 0); exact Hdown).
  destruct (if errors d1 <? 0 then (report (errors d1), set_errors 0 d1)
            else (errors d1, d1)) as [retval d2]; cbn [snd] in Hd2.
  destruct (retval <? 0); [exact Hd2|].
  destruct (negb (alloc_urb_ok env)); [exact Hd2|].
  destruct (negb (alloc_buf_ok env)); [exact Hd2|].
  destruct (copy_from_user user_buffer _) as [buf|]; [|exact Hd2].
  destruct (negb (interface d2)); [exact Hd2|].
  destruct (negb (out_submit_rv env =? 0)); unfold staged; simpl.
  - rewrite removelast_last. exact Hd2.
  - rewrite map_app. simpl.
    eapply Permutation_trans; [apply perm_skip; exact Hd2|].
    apply Permutation_cons_append.
Qed.

Lemma staged_probe (p : probe_env) (d : usb_ugci) :
  ugci_probe p = (0, Some d) -> staged d.
Proof.
  unfold ugci_probe. intros H.
  destruct (kzalloc_ok p); [|discriminate].
  destruct (endpoints_rv p =? 0); [|discriminate].
  destruct (kmalloc_ok p); [|discriminate].
  destruct (alloc_in_urb_ok p); [|discriminate].
  destruct (register_rv p =? 0); [|discriminate].
  simpl in H. injection H as <-. apply perm_nil.
Qed.

Lemma staged_exec (o : op) (d : usb_ugci) : staged d -> staged (exec o d).
Proof.
  destruct o as [pm_rv|f|f evs|f env fuel count|f env ub count|status data
                |i status| |evs| |evs| ]; simpl; intros Hs.
  - unfold ugci_open. destruct (minor d), (intfdata d), (pm_rv =? 0);
      exact Hs.
  - unfold ugci_release. destruct (private_data f); exact Hs.
  - unfold ugci_flush. destruct (private_data f); [|exact Hs].
    exact (staged_ugci_draw_down evs d Hs).
  - exact (staged_same_staging _ _ (same_staging_ugci_read f env fuel count d)
                               Hs).
  - apply staged_ugci_write. exact Hs.
  - exact (staged_same_staging _ _
             (same_staging_giveback_bulk_in status data d) Hs).
  - apply staged_giveback_bulk_out. exact Hs.
  - unfold ugci_disconnect, kref_put, usb_kill_anchored_urbs.
    exact (staged_kill_anchored _
             (set_interface false (set_minor false (set_intfdata false d)))
             Hs).
  - unfold ugci_suspend. destruct (intfdata d); [|exact Hs].
    apply staged_ugci_draw_down. exact Hs.
  - exact Hs.
  - unfold ugci_pre_reset.
    exact (staged_ugci_draw_down evs (set_io_mutex true d) Hs).
  - exact Hs.
Qed.

Lemma reachable_staged (d : usb_ugci) : reachable d -> staged d.
Proof.
  induction 1 as [p d Hp Hprobe | o d _ IH Hok].
  - exact (staged_probe p d Hprobe).
  - apply staged_exec. exact IH.
Qed.

(** ** Exits of an admitted write *)

Lemma ugci_write_admitted
    (f : file) (env : write_env) (user_buffer : list byte) (count : Z)
    (d d1 : usb_ugci) :
  count <> 0 -> out_submit_rv env <= 0 ->
  down_limit_sem (f_nonblock f) (sem_wait env) d = (0, d1) ->
  let r := ugci_write f env user_buffer count d in
  let writesize := Z.min count (size_t MAX_TRANSFER) in
  (fst r < 0 /\ limit_sem (snd r) = limit_sem d1 + 1 /\
   submitted (snd r) = submitted d1 /\
   errors (snd r) = (if errors d1 <? 0 then 0 else errors d1)) \/
  (fst r = to_ssize_t writesize /\ limit_sem (snd r) = limit_sem d1 /\
   submitted (snd r)
   = submitted d1
     ++ [mkUrb (firstn (Z.to_nat writesize) user_buffer)
               (to_u32 (to_int writesize))] /\
   writesize <= Z.of_nat (length user_buffer) /\
   0 <= errors d1 /\ alloc_urb_ok env = true /\ alloc_buf_ok env = true /\
   interface d1 = true /\ out_submit_rv env = 0).
Proof.
  intros Hcount Hsub Hdown r writesize. unfold r. rewrite ugci_write_eq.
  fold writesize. apply Z.eqb_neq in Hcount. rewrite Hcount, Hdown.
  cbn [Z.eqb negb].
  assert (Hrep : forall e, report e < 0)
    by (intros e; unfold report; destruct (e =? - EPIPE);
        unfold EPIPE, EIO; lia).
  destruct (errors d1 <? 0) eqn:Eerr.
  { left. pose proof (Hrep (errors d1)) as Hneg.
    replace (report (errors d1) <? 0) with true by lia.
    simpl. repeat split; auto. }
  rewrite Eerr.
  destruct (alloc_urb_ok env); cbn [negb];
    [|left; simpl; repeat split; unfold ENOMEM; lia].
  destruct (alloc_buf_ok env); cbn [negb];
    [|left; simpl; repeat split; unfold ENOMEM; lia].
  unfold copy_from_user.
  destruct (writesize <=? Z.of_nat (length user_buffer)) eqn:Elen;
    [|left; simpl; repeat split; unfold EFAULT; lia].
  destruct (interface d1); cbn [negb];
    [|left; simpl; repeat split; unfold ENODEV; lia].
  destruct (out_submit_rv env =? 0) eqn:Esub; cbn [negb].
  - right. simpl. repeat split; auto; lia.
  - left. simpl. rewrite removelast_last. repeat split; auto; lia.
Qed.

Lemma ugci_write_admitted_staging
    (f : file) (env : write_env) (user_buffer : list byte) (count : Z)
    (d d1 : usb_ugci) :
  count <> 0 ->
  down_limit_sem (f_nonblock f) (sem_wait env) d = (0, d1) ->
  let r := ugci_write f env user_buffer count d in
  (submitted (snd r) = submitted d1 /\ coherent (snd r) = coherent d1) \/
  (exists u, submitted (snd r) = submitted d1 ++ [u] /\
             coherent (snd r) = transfer_buffer u :: coherent d1).
Proof.
  intros Hcount Hdown r. unfold r. rewrite ugci_write_eq. cbv zeta.
  apply Z.eqb_neq in Hcount. rewrite Hcount, Hdown. cbn [Z.eqb negb].
  assert (Hd2 : submitted
                  (snd (if errors d1 <? 0
                        then (report (errors d1), set_errors 0 d1)
                        else (errors d1, d1))) = submitted d1 /\
                coherent
                  (snd (if errors d1 <? 0
                        then (report (errors d1), set_errors 0 d1)
                        else (errors d1, d1))) = coherent d1)
    by (destruct (errors d1 <? 0); split; reflexivity).
  destruct (if errors d1 <? 0 then (report (errors d1), set_errors 0 d1)
            else (errors d1, d1)) as [retval d2]; cbn [snd] in Hd2.
  destruct Hd2 as [Hs2 Hc2].
  destruct (retval <? 0); [left; split; assumption|].
  destruct (negb (alloc_urb_ok env)); [left; split; assumption|].
  destruct (negb (alloc_buf_ok env)); [left; split; assumption|].
  destruct (copy_from_user user_buffer _) as [buf|];
    [|left; split; assumption].
  destruct (negb (interface d2)); [left; split; assumption|].
  destruct (negb (out_submit_rv env =? 0)); simpl.
  - left. rewrite removelast_last. split; assumption.
  - right. rewrite Hs2, Hc2. eexists. split; reflexivity.
Qed.

(** C4: in every reachable state the free permits and the anchored outbound
    URBs add up to [WRITES_IN_FLIGHT], so at most 8 URBs are outstanding; the
    live staging buffers are those of the anchored URBs, one for each, so at
    most 8 of them are live.  A write whose admission fails takes nothing; an
    admitted write holds one permit, and either fails and gives it back with
    nothing submitted and no staging buffer left behind, or keeps it for the
    one URB it adds, whose staging buffer is the one buffer that becomes
    live.  The completion of an outbound URB removes it, gives its staging
    buffer back (which was live) and frees one permit, whatever its
    status. *)
Theorem C4_writes_in_flight_bounded (d : usb_ugci) :
  reachable d ->
  (0 <= limit_sem d /\
   limit_sem d + Z.of_nat (length (submitted d)) = WRITES_IN_FLIGHT /\
   Z.of_nat (length (submitted d)) <= WRITES_IN_FLIGHT /\
   staged d /\
   Z.of_nat (length (coherent d)) <= WRITES_IN_FLIGHT) /\
  (forall f env user_buffer count rc d1,
     count <> 0 -> op_ok (OpWrite f env user_buffer count) ->
     down_limit_sem (f_nonblock f) (sem_wait env) d = (rc, d1) ->
     let r := ugci_write f env user_buffer count d in
     (rc <> 0 -> fst r < 0 /\ snd r = d1 /\ Inv d1 /\ staged d1) /\
     (rc = 0 ->
      limit_sem d1 + Z.of_nat (length (submitted d1)) = WRITES_IN_FLIGHT - 1 /\
      staged d1 /\
      ((fst r < 0 /\ limit_sem (snd r) = limit_sem d1 + 1 /\
        submitted (snd r) = submitted d1 /\
        coherent (snd r) = coherent d1) \/
       (0 <= limit_sem (snd r) /\ limit_sem (snd r) = limit_sem d1 /\
        exists u, submitted (snd r) = submitted d1 ++ [u] /\
                  coherent (snd r) = transfer_buffer u :: coherent d1)))) /\
  (forall i u status,
     nth_error (submitted d) i = Some u ->
     limit_sem (giveback_bulk_out i status d) = limit_sem d + 1 /\
     submitted (giveback_bulk_out i status d) = remove_nth i (submitted d) /\
     In (transfer_buffer u) (coherent d) /\
     coherent (giveback_bulk_out i status d)
     = remove_one (transfer_buffer u) (coherent d) /\
     S (length (coherent (giveback_bulk_out i status d)))
     = length (coherent d)).
Proof.
  intros Hreach. pose proof (reachable_Inv d Hreach) as HI.
  pose proof (reachable_staged d Hreach) as HS.
  split; [|split].
  - pose proof (inv_sem_nonneg d HI). pose proof (inv_sem d HI).
    pose proof (Permutation_length HS) as Hlen. rewrite length_map in Hlen.
    repeat split; try exact HS; lia.
  - intros f env ub count rc d1 Hcount (Hc & Hsub & Hw) Hdown r.
    pose proof (down_limit_sem_spec (f_nonblock f) (sem_wait env) d Hw HI)
      as Hspec.
    pose proof (staged_down_limit_sem (f_nonblock f) (sem_wait env) d HS)
      as HS1.
    rewrite Hdown in Hspec, HS1. cbn [snd] in HS1. split.
    + intros Hrc. apply Z.eqb_neq in Hrc. rewrite Hrc in Hspec.
      unfold r. rewrite ugci_write_eq. apply Z.eqb_neq in Hcount.
      rewrite Hcount, Hdown, Hrc. simpl.
      split; [destruct (f_nonblock f); unfold EAGAIN, ERESTARTSYS; lia|].
      split; [reflexivity|]. split; [exact Hspec | exact HS1].
    + intros ->. simpl in Hspec. destruct Hspec as [Hn HIup].
      pose proof (inv_sem _ HIup) as Hsum. simpl in Hsum.
      split; [lia|]. split; [exact HS1|].
      pose proof (ugci_write_admitted_staging f env ub count d d1 Hcount
                                              Hdown) as Hst.
      cbv zeta in Hst. fold r in Hst.
      destruct (ugci_write_admitted f env ub count d d1 Hcount Hsub Hdown)
        as [(H1 & H2 & H3 & _)|(H1 & H2 & H3 & _)]; fold r in H2, H3.
      * left. split; [exact H1|]. split; [exact H2|]. split; [exact H3|].
        destruct Hst as [[_ Hco]|(u & Hsu & _)]; [exact Hco|].
        rewrite H3 in Hsu. apply (f_equal (@length urb)) in Hsu.
        rewrite last_length in Hsu. lia.
      * right. split; [lia|]. split; [exact H2|].
        destruct Hst as [[Hsu _]|(u & Hsu & Hco)].
        -- rewrite H3 in Hsu. apply (f_equal (@length urb)) in Hsu.
           rewrite last_length in Hsu. lia.
        -- exists u. split; [exact Hsu | exact Hco].
  - intros i u status Hnth.
    destruct (giveback_bulk_out_outbound i status d u Hnth)
      as (H1 & H2 & H3).
    pose proof (staged_live d i u HS Hnth) as Hin.
    split; [exact H1|]. split; [exact H2|]. split; [exact Hin|].
    split; [exact H3|]. rewrite H3. apply remove_one_length. exact Hin.
Qed.

(** C5: in every reachable state [0 <= bulk_in_copied <= bulk_in_filled <=
    bulk_in_size], the size being the length of the buffer.  No operation
    lowers [bulk_in_copied] unless it asks for a new inbound submission.  By
    the history, every [copy_to_user] since the latest submission began at or
    after the end of the one before it: no two copies from one transfer
    overlap, and all of them end at or below [bulk_in_copied].  A read that
    finds data waiting hands out the bytes that start exactly at
    [bulk_in_copied]. *)
Theorem C5_buffer_offsets (d : usb_ugci) :
  reachable d ->
  (0 <= bulk_in_copied d <= bulk_in_filled d /\
   bulk_in_filled d <= bulk_in_size d /\
   bulk_in_size d = Z.of_nat (length (bulk_in_buffer d))) /\
  (forall o,
     op_ok o ->
     submissions (hist (exec o d)) = submissions (hist d) ->
     bulk_in_copied d <= bulk_in_copied (exec o d)) /\
  frontier (hist d) = Some (bulk_in_copied d) /\
  (forall new off len ok h,
     hist d = new ++ EvCopyOut off len ok :: h -> submissions new = O ->
     off + len <= bulk_in_copied d /\
     forall off' len' ok',
       In (EvCopyOut off' len' ok') new -> off + len <= off') /\
  (forall f env fuel count,
     0 < count < 2 ^ 64 -> lock_intr env = false -> interface d = true ->
     ongoing_read d = false -> errors d = 0 ->
     bulk_in_copied d < bulk_in_filled d -> copy_fault env = false ->
     let chunk := Z.min (bulk_in_filled d - bulk_in_copied d) count in
     fst (ugci_read f env (S fuel) count d)
     = (Some chunk,
        firstn (Z.to_nat chunk)
               (skipn (Z.to_nat (bulk_in_copied d)) (bulk_in_buffer d))) /\
     In (EvCopyOut (bulk_in_copied d) chunk true)
        (hist (snd (ugci_read f env (S fuel) count d)))).
Proof.
  intros Hreach. pose proof (reachable_Inv d Hreach) as HI.
  split; [|split; [|split; [|split]]].
  - pose proof (inv_copied d HI). pose proof (inv_filled d HI).
    pose proof (inv_buf d HI). lia.
  - intros o Hok Hsame.
    pose proof (Inv_exec o d Hok HI) as HI'.
    destruct (extends_exec o d) as [new Hnew].
    pose proof (inv_hist _ HI') as Hf'. rewrite Hnew in Hf', Hsame.
    exact (frontier_mono new (hist d) _ _ (inv_hist d HI) Hf' Hsame).
  - exact (inv_hist d HI).
  - intros new off len ok h Hh Hs. pose proof (inv_hist d HI) as Hf.
    rewrite Hh in Hf. exact (frontier_behind new h off len ok _ Hf Hs).
  - intros f env fuel count Hcount Hlock Hif Ho He Hav Hfault chunk.
    unfold ugci_read. rewrite (inv_urb d HI), Hlock, Hif.
    replace (count =? 0) with false by lia. cbn [negb orb].
    rewrite (ugci_read_retry_data env (f_nonblock f) count fuel 0 d HI Ho He
                                  Hav Hcount).
    rewrite Hfault. cbn [negb fst snd]. fold chunk.
    split; [reflexivity|].
    destruct (bulk_in_filled d - bulk_in_copied d <? count).
    + destruct (extends_ugci_do_read_io (submit_rv env 0%nat)
                  (count - chunk) (after_copy true count d)) as [new Hnew].
      rewrite Hnew. apply in_or_app. right. left. reflexivity.
    + left. reflexivity.
Qed.

(** ** Calls during which no new failure arises *)






(** ** The copy step *)

Lemma Inv_after_copy (ok : bool) (count : Z) (d : usb_ugci) :
  Inv d -> 0 <= count -> Inv (after_copy ok count d).
Proof.
  intros [Hsn Hs Hsz Hb Hc Hf Hu He Hr Hh] Hcount. unfold after_copy.
  constructor; simpl; auto; try lia.
  - destruct Hr as [Hr | [n (H1 & H2 & H3 & H4 & H5)]]; [left; exact Hr|].
    right. exists n. rewrite H4, H5.
    replace (Z.min (0 - 0) count) with 0 by lia.
    repeat split; auto; lia.
  - rewrite Hh.
    replace (bulk_in_copied d <=? bulk_in_copied d) with true by lia.
    replace (0 <=? Z.min (bulk_in_filled d - bulk_in_copied d) count)
      with true by lia.
    reflexivity.
Qed.

Lemma pending_after_copy (ok : bool) (count : Z) (d : usb_ugci) :
  Inv d -> 0 <= count ->
  pending (after_copy ok count d)
  = skipn (Z.to_nat (Z.min (bulk_in_filled d - bulk_in_copied d) count))
          (pending d).
Proof.
  intros HI Hcount. pose proof (inv_copied d HI) as Hc.
  unfold pending, after_copy. simpl.
  set (chunk := Z.min (bulk_in_filled d - bulk_in_copied d) count).
  assert (Hchunk : 0 <= chunk <= bulk_in_filled d - bulk_in_copied d)
    by (unfold chunk; lia).
  rewrite skipn_firstn_comm, skipn_skipn.
  f_equal; [|f_equal]; lia.
Qed.

(** C10: when the copy to the caller faults, the read returns [-EFAULT] and
    hands out nothing, yet [bulk_in_copied] has moved past the whole chunk.
    If the request did not exceed the data waiting, that is the state left;
    otherwise the read-ahead then discards the transfer altogether.  Either
    way the bytes still pending afterwards are the old ones less the chunk;
    whatever happens to the device later, no [copy_to_user] from the same
    transfer starts below the end of the chunk, and the next successful
    read starts right behind it. *)
Theorem C10_fault_drops_chunk (d : usb_ugci) :
  reachable d ->
  forall f env fuel count,
    0 < count < 2 ^ 64 -> lock_intr env = false -> interface d = true ->
    ongoing_read d = false -> errors d = 0 ->
    bulk_in_copied d < bulk_in_filled d -> copy_fault env = true ->
    submit_rv env 0%nat <= 0 ->
    let avail := bulk_in_filled d - bulk_in_copied d in
    let chunk := Z.min avail count in
    let r := ugci_read f env (S fuel) count d in
    fst r = (Some (- EFAULT), []) /\
    bulk_in_copied (after_copy false count d) = bulk_in_copied d + chunk /\
    (count <= avail -> snd r = after_copy false count d) /\
    (avail < count ->
     snd r = snd (ugci_do_read_io (submit_rv env 0%nat) (count - chunk)
                                  (after_copy false count d)) /\
     bulk_in_filled (snd r) = 0 /\ bulk_in_copied (snd r) = 0) /\
    In (EvCopyOut (bulk_in_copied d) chunk false) (hist (snd r)) /\
    pending (snd r) = skipn (Z.to_nat chunk) (pending d) /\
    (forall ops new,
       Forall op_ok ops ->
       hist (run ops (snd r)) = new ++ hist (after_copy false count d) ->
       submissions new = O ->
       forall off' len' ok',
         In (EvCopyOut off' len' ok') new ->
         bulk_in_copied d + chunk <= off') /\
    (count < avail ->
     forall f2 env2 fuel2 count2,
       0 < count2 < 2 ^ 64 -> lock_intr env2 = false ->
       copy_fault env2 = false ->
       let chunk2 := Z.min (avail - chunk) count2 in
       fst (ugci_read f2 env2 (S fuel2) count2 (snd r))
       = (Some chunk2,
          firstn (Z.to_nat chunk2)
                 (skipn (Z.to_nat (bulk_in_copied d + chunk))
                        (bulk_in_buffer d)))).
Proof.
  intros Hreach f env fuel count Hcount Hlock Hif Ho He Hav Hfault Hsub
         avail chunk r.
  pose proof (reachable_Inv d Hreach) as HI.
  assert (Hr : r = (Some (- EFAULT), [],
                    if avail <? count
                    then snd (ugci_do_read_io (submit_rv env 0%nat)
                                (count - chunk) (after_copy false count d))
                    else after_copy false count d)).
  { unfold r, ugci_read. rewrite (inv_urb d HI), Hlock, Hif.
    replace (count =? 0) with false by lia. cbn [negb orb].
    rewrite (ugci_read_retry_data env (f_nonblock f) count fuel 0 d HI Ho He
                                  Hav (conj (proj1 Hcount) (proj2 Hcount))).
    rewrite Hfault. reflexivity. }
  assert (HIc : Inv (after_copy false count d))
    by (apply Inv_after_copy; [exact HI | lia]).
  assert (HIr : Inv (snd r)).
  { rewrite Hr. cbn [snd]. destruct (avail <? count); [|exact HIc].
    apply Inv_ugci_do_read_io; [exact HIc | exact Ho | | exact Hsub].
    unfold chunk. lia. }
  pose proof (pending_after_copy false count d HI) as Hpend.
  fold avail in Hpend. fold chunk in Hpend.
  assert (Hlater : forall ops new,
            Forall op_ok ops ->
            hist (run ops (snd r)) = new ++ hist (after_copy false count d) ->
            submissions new = O ->
            forall off' len' ok',
              In (EvCopyOut off' len' ok') new ->
              bulk_in_copied d + chunk <= off').
  { intros ops new Hops Hh Hs.
    pose proof (inv_hist _ (Inv_run ops (snd r) Hops HIr)) as Hf.
    rewrite Hh in Hf.
    change (hist (after_copy false count d))
      with (EvCopyOut (bulk_in_copied d) chunk false :: hist d) in Hf.
    exact (proj2 (frontier_behind new (hist d) (bulk_in_copied d) chunk
                                  false _ Hf Hs)). }
  clearbody r. subst r. cbn [fst snd] in *.
  split; [reflexivity|]. split; [reflexivity|].
  split; [intros Hle; replace (avail <? count) with false by lia;
          reflexivity|].
  split; [intros Hlt; replace (avail <? count) with true by lia;
          repeat split; unfold ugci_do_read_io, usb_submit_urb_in;
          destruct (submit_rv env 0%nat <? 0), (submit_rv env 0%nat =? 0);
          reflexivity|].
  split.
  { destruct (avail <? count).
    - destruct (extends_ugci_do_read_io (submit_rv env 0%nat)
                  (count - chunk) (after_copy false count d)) as [new Hnew].
      rewrite Hnew. apply in_or_app. right. left. reflexivity.
    - left. reflexivity. }
  split.
  { destruct (avail <? count) eqn:Elt.
    - assert (Hempty : pending (snd (ugci_do_read_io (submit_rv env 0%nat)
                          (count - chunk) (after_copy false count d))) = []).
      { unfold pending, ugci_do_read_io, usb_submit_urb_in.
        destruct (submit_rv env 0%nat <? 0), (submit_rv env 0%nat =? 0);
          reflexivity. }
      rewrite Hempty. symmetry. apply skipn_all2.
      unfold pending. rewrite length_firstn. unfold chunk, avail. lia.
    - apply Hpend. lia. }
  split; [exact Hlater|].
  intros Hlt f2 env2 fuel2 count2 Hcount2 Hlock2 Hfault2.
  replace (avail <? count) with false by lia.
  unfold ugci_read. rewrite (inv_urb _ HIc), Hlock2.
  replace (count2 =? 0) with false by lia.
  change (interface (after_copy false count d)) with (interface d).
  rewrite Hif. cbn [negb orb].
  assert (Hav2 : bulk_in_copied (after_copy false count d)
                 < bulk_in_filled (after_copy false count d))
    by (simpl; unfold avail in *; lia).
  rewrite (ugci_read_retry_data env2 (f_nonblock f2) count2 fuel2 0
             (after_copy false count d) HIc Ho He Hav2 Hcount2).
  rewrite Hfault2. cbn [negb fst].
  change (bulk_in_filled (after_copy false count d))
    with (bulk_in_filled d).
  change (bulk_in_buffer (after_copy false count d))
    with (bulk_in_buffer d).
  change (bulk_in_copied (after_copy false count d))
    with (bulk_in_copied d + chunk).
  replace (bulk_in_filled d - (bulk_in_copied d + chunk))
    with (avail - chunk) by (unfold avail; lia).
  reflexivity.
Qed.

(** * Further properties *)

(** ** What input and output leave alone *)

Lemma same_attachment_refl (d : usb_ugci) : same_attachment d d.
Proof. repeat split. Qed.

Lemma same_attachment_trans (d1 d2 d3 : usb_ugci) :
  same_attachment d1 d2 -> same_attachment d2 d3 -> same_attachment d1 d3.
Proof.
  unfold same_attachment. intros (A1 & A2 & A3 & A4 & A5 & A6 & A7)
                                 (B1 & B2 & B3 & B4 & B5 & B6 & B7).
  repeat split; congruence.
Qed.

Lemma same_attachment_giveback_bulk_in
    (status : Z) (data : list byte) (d : usb_ugci) :
  same_attachment d (giveback_bulk_in status data d).
Proof.
  unfold giveback_bulk_in, ugci_read_bulk_callback.
  destruct (in_flight_reads d); [repeat split|].
  destruct (status =? 0); [|destruct (unlink_status status)]; repeat split.
Qed.

Lemma same_attachment_giveback_bulk_out
    (i : nat) (status : Z) (d : usb_ugci) :
  same_attachment d (giveback_bulk_out i status d).
Proof.
  unfold giveback_bulk_out, ugci_write_bulk_callback.
  destruct (nth_error (submitted d) i); [|repeat split].
  destruct (status =? 0); [|destruct (unlink_status status)]; repeat split.
Qed.

Lemma same_attachment_kill_anchored (n : nat) (d : usb_ugci) :
  same_attachment d (kill_anchored n d).
Proof.
  revert d. induction n as [|n IH]; intros d; simpl;
    [apply same_attachment_refl|].
  eapply same_attachment_trans;
    [apply same_attachment_giveback_bulk_out | apply IH].
Qed.

Lemma same_attachment_ugci_draw_down (evs : list (nat * Z)) (d : usb_ugci) :
  same_attachment d (ugci_draw_down evs d).
Proof.
  unfold ugci_draw_down, usb_wait_anchor_empty_timeout.
  assert (H1 : same_attachment d (fold_left
             (fun acc ev => giveback_bulk_out (fst ev) (snd ev) acc) evs d)).
  { revert d. induction evs as [|ev evs IH]; intros d; simpl;
      [apply same_attachment_refl|].
    eapply same_attachment_trans;
      [apply same_attachment_giveback_bulk_out | apply IH]. }
  eapply same_attachment_trans; [exact H1|].
  assert (H2 : forall d0, same_attachment d0 (usb_kill_urb_in d0)).
  { intros d0. unfold usb_kill_urb_in. destruct (bulk_in_urb d0);
      [apply same_attachment_giveback_bulk_in | apply same_attachment_refl]. }
  destruct (submitted (fold_left _ evs d)); simpl; [apply H2|].
  eapply same_attachment_trans;
    [apply same_attachment_kill_anchored | apply H2].
Qed.

Lemma same_attachment_ugci_do_read_io (rv count : Z) (d : usb_ugci) :
  same_attachment d (snd (ugci_do_read_io rv count d)).
Proof.
  unfold ugci_do_read_io, usb_submit_urb_in.
  destruct (rv <? 0), (rv =? 0); repeat split.
Qed.

Lemma same_attachment_read_wait
    (nonblock : bool) (w : wait_outcome) (d : usb_ugci) :
  same_attachment d (snd (read_wait nonblock w d)).
Proof.
  unfold read_wait, wait_bulk_in. destruct (ongoing_read d); [|repeat split].
  destruct nonblock; [repeat split|].
  destruct w as [|status data]; [repeat split|].
  destruct (ongoing_read (giveback_bulk_in status data d)); simpl;
    apply same_attachment_giveback_bulk_in.
Qed.

Lemma same_attachment_ugci_read_retry
    (env : read_env) (nonblock : bool) (count : Z) (fuel i : nat)
    (d : usb_ugci) :
  same_attachment d (snd (ugci_read_retry fuel i env nonblock count d)).
Proof.
  revert i d. induction fuel as [|fuel IH]; intros i d; simpl;
    [apply same_attachment_refl|].
  pose proof (same_attachment_read_wait nonblock (wait_ev env i) d) as Hw.
  destruct (read_wait nonblock (wait_ev env i) d) as [rv d1]; simpl in Hw.
  destruct (rv <? 0); [exact Hw|].
  eapply same_attachment_trans; [exact Hw|].
  assert (Hretry : forall c,
            same_attachment d1
              (snd (let '(rv0, d2) :=
                      ugci_do_read_io (submit_rv env i) c d1 in
                    if rv0 <? 0 then (Some rv0, [], d2)
                    else ugci_read_retry fuel (S i) env nonblock count d2))).
  { intros c.
    pose proof (same_attachment_ugci_do_read_io (submit_rv env i) c d1)
      as H2.
    destruct (ugci_do_read_io (submit_rv env i) c d1) as [rv0 d2];
      simpl in H2.
    destruct (rv0 <? 0); [exact H2|].
    eapply same_attachment_trans; [exact H2 | apply IH]. }
  destruct (errors d1 <? 0); [repeat split|].
  destruct (bulk_in_filled d1 =? 0); simpl; [apply Hretry|].
  destruct (size_t (bulk_in_filled d1 - bulk_in_copied d1) =? 0);
    [apply Hretry|].
  simpl.
  destruct (size_t (bulk_in_filled d1 - bulk_in_copied d1) <? count);
    [|repeat split].
  eapply same_attachment_trans;
    [|apply same_attachment_ugci_do_read_io]. repeat split.
Qed.

Lemma same_attachment_ugci_read
    (f : file) (env : read_env) (fuel : nat) (count : Z) (d : usb_ugci) :
  same_attachment d (snd (ugci_read f env fuel count d)).
Proof.
  unfold ugci_read.
  destruct (negb (bulk_in_urb d) || (count =? 0)); [repeat split|].
  destruct (lock_intr env); [repeat split|].
  destruct (negb (interface d)); [repeat split|].
  apply same_attachment_ugci_read_retry.
Qed.

Lemma same_attachment_down_limit_sem
    (nonblock : bool) (w : option (nat * Z)) (d : usb_ugci) :
  same_attachment d (snd (down_limit_sem nonblock w d)).
Proof.
  unfold down_limit_sem. destruct (0 <? limit_sem d); [repeat split|].
  destruct nonblock; [repeat split|].
  destruct w as [[i status]|]; [|repeat split].
  destruct (0 <? limit_sem (giveback_bulk_out i status d)); simpl;
    apply same_attachment_giveback_bulk_out.
Qed.

Lemma same_attachment_ugci_write
    (f : file) (env : write_env) (user_buffer : list byte) (count : Z)
    (d : usb_ugci) :
  same_attachment d (snd (ugci_write f env user_buffer count d)).
Proof.
  rewrite ugci_write_eq. destruct (count =? 0); [repeat split|].
  pose proof (same_attachment_down_limit_sem (f_nonblock f) (sem_wait env) d)
    as Hd.
  destruct (down_limit_sem (f_nonblock f) (sem_wait env) d) as [rc d1];
    simpl in Hd.
  destruct (rc =? 0); simpl; [|exact Hd].
  eapply same_attachment_trans; [exact Hd|].
  destruct (errors d1 <? 0); simpl;
    repeat match goal with
           | |- context [if ?b then _ else _] => destruct b; simpl
           | |- context [match copy_from_user ?b ?n with _ => _ end] =>
               destruct (copy_from_user b n); simpl
           end; repeat split.
Qed.

(** Nothing re-attaches a detached device. *)
Lemma detached_exec (o : op) (d : usb_ugci) :
  detached d ->
  detached (exec o d) /\ bulk_in_urb (exec o d) = bulk_in_urb d.
Proof.
  intros (Hi & Hm & Hd).
  assert (Hsame : forall d', same_attachment d d' ->
            detached d' /\ bulk_in_urb d' = bulk_in_urb d).
  { intros d' (A1 & A2 & A3 & A4 & A5 & A6 & A7).
    unfold detached. repeat split; congruence. }
  destruct o as [pm_rv|f|f evs|f env fuel count|f env ub count|status data
                |i status| |evs| |evs| ]; simpl.
  - unfold ugci_open. rewrite Hm. simpl. repeat split; assumption.
  - unfold ugci_release. destruct (private_data f); simpl;
      repeat split; assumption.
  - unfold ugci_flush. destruct (private_data f); simpl;
      [|repeat split; assumption].
    destruct (Hsame _ (same_attachment_ugci_draw_down evs d))
      as ((B1 & B2 & B3) & B4).
    repeat split; assumption.
  - apply Hsame, same_attachment_ugci_read.
  - apply Hsame, same_attachment_ugci_write.
  - apply Hsame, same_attachment_giveback_bulk_in.
  - apply Hsame, same_attachment_giveback_bulk_out.
  - unfold ugci_disconnect, kref_put, usb_kill_anchored_urbs.
    set (d3 := set_interface false (set_minor false (set_intfdata false d))).
    destruct (same_attachment_kill_anchored (length (submitted d3)) d3)
      as (A1 & A2 & A3 & A4 & A5 & A6 & A7).
    repeat split; simpl; assumption.
  - unfold ugci_suspend. rewrite Hd. simpl. repeat split; assumption.
  - repeat split; assumption.
  - unfold ugci_pre_reset.
    destruct (same_attachment_ugci_draw_down evs (set_io_mutex true d))
      as (A1 & A2 & A3 & A4 & A5 & A6 & A7).
    simpl in A1, A2, A4, A5. repeat split; congruence.
  - repeat split; assumption.
Qed.

Lemma detached_run (ops : list op) (d : usb_ugci) :
  detached d ->
  detached (run ops d) /\ bulk_in_urb (run ops d) = bulk_in_urb d.
Proof.
  revert d. unfold run. induction ops as [|o ops IH]; intros d Hd; simpl;
    [split; [exact Hd | reflexivity]|].
  destruct (detached_exec o d Hd) as [Hd1 Hu1].
  destruct (IH (exec o d) Hd1) as [Hd2 Hu2].
  split; [exact Hd2 | congruence].
Qed.

Lemma detached_ugci_disconnect (d : usb_ugci) :
  detached (ugci_disconnect d) /\
  bulk_in_urb (ugci_disconnect d) = bulk_in_urb d.
Proof.
  unfold ugci_disconnect, kref_put, usb_kill_anchored_urbs.
  set (d3 := set_interface false (set_minor false (set_intfdata false d))).
  destruct (same_attachment_kill_anchored (length (submitted d3)) d3)
    as (A1 & A2 & A3 & A4 & A5 & A6 & A7).
  unfold detached. repeat split; simpl; assumption.
Qed.

(** X1: detaching is final.  Whatever calls and completions follow
    [ugci_disconnect], the device stays detached: every read of a non-zero
    length that gets the mutex returns [-ENODEV] and every open returns
    [-ENODEV], both without touching the state. *)
Theorem X1_detach_is_final
    (ops : list op) (d : usb_ugci) (f : file) (env : read_env) (fuel : nat)
    (count pm_rv : Z) :
  bulk_in_urb d = true -> count <> 0 -> lock_intr env = false ->
  let d' := run ops (ugci_disconnect d) in
  detached d' /\
  ugci_read f env fuel count d' = (Some (- ENODEV), [], d') /\
  ugci_open pm_rv d' = (- ENODEV, d').
Proof.
  intros Hu Hcount Hlock d'.
  destruct (detached_ugci_disconnect d) as [Hd0 Hu0].
  destruct (detached_run ops (ugci_disconnect d) Hd0) as [Hd1 Hu1].
  fold d' in Hd1, Hu1.
  split; [exact Hd1|]. destruct Hd1 as (Hi & Hm & Hdata).
  split.
  - unfold ugci_read. rewrite Hu1, Hu0, Hu, Hlock, Hi.
    apply Z.eqb_neq in Hcount. rewrite Hcount. reflexivity.
  - unfold ugci_open. rewrite Hm. reflexivity.
Qed.

(** ** What the read path leaves alone *)

Lemma same_outbound_trans (d1 d2 d3 : usb_ugci) :
  same_outbound d1 d2 -> same_outbound d2 d3 -> same_outbound d1 d3.
Proof.
  unfold same_outbound. intros (A1 & A2) (B1 & B2). split; congruence.
Qed.

Lemma same_outbound_giveback_bulk_in
    (status : Z) (data : list byte) (d : usb_ugci) :
  same_outbound d (giveback_bulk_in status data d).
Proof.
  unfold giveback_bulk_in, ugci_read_bulk_callback.
  destruct (in_flight_reads d); [split; reflexivity|].
  destruct (status =? 0); [|destruct (unlink_status status)];
    split; reflexivity.
Qed.

Lemma same_outbound_ugci_do_read_io (rv count : Z) (d : usb_ugci) :
  same_outbound d (snd (ugci_do_read_io rv count d)).
Proof.
  unfold ugci_do_read_io, usb_submit_urb_in.
  destruct (rv <? 0), (rv =? 0); split; reflexivity.
Qed.

Lemma same_outbound_read_wait
    (nonblock : bool) (w : wait_outcome) (d : usb_ugci) :
  same_outbound d (snd (read_wait nonblock w d)).
Proof.
  unfold read_wait, wait_bulk_in.
  destruct (ongoing_read d); [|split; reflexivity].
  destruct nonblock; [split; reflexivity|].
  destruct w as [|status data]; [split; reflexivity|].
  destruct (ongoing_read (giveback_bulk_in status data d)); simpl;
    apply same_outbound_giveback_bulk_in.
Qed.

Lemma same_outbound_ugci_read_retry
    (env : read_env) (nonblock : bool) (count : Z) (fuel i : nat)
    (d : usb_ugci) :
  same_outbound d (snd (ugci_read_retry fuel i env nonblock count d)).
Proof.
  revert i d. induction fuel as [|fuel IH]; intros i d; simpl;
    [split; reflexivity|].
  pose proof (same_outbound_read_wait nonblock (wait_ev env i) d) as Hw.
  destruct (read_wait nonblock (wait_ev env i) d) as [rv d1]; simpl in Hw.
  destruct (rv <? 0); [exact Hw|].
  eapply same_outbound_trans; [exact Hw|].
  assert (Hretry : forall c,
            same_outbound d1
              (snd (let '(rv0, d2) :=
                      ugci_do_read_io (submit_rv env i) c d1 in
                    if rv0 <? 0 then (Some rv0, [], d2)
                    else ugci_read_retry fuel (S i) env nonblock count d2))).
  { intros c.
    pose proof (same_outbound_ugci_do_read_io (submit_rv env i) c d1) as H2.
    destruct (ugci_do_read_io (submit_rv env i) c d1) as [rv0 d2];
      simpl in H2.
    destruct (rv0 <? 0); [exact H2|].
    eapply same_outbound_trans; [exact H2 | apply IH]. }
  destruct (errors d1 <? 0); [split; reflexivity|].
  destruct (bulk_in_filled d1 =? 0); simpl; [apply Hretry|].
  destruct (size_t (bulk_in_filled d1 - bulk_in_copied d1) =? 0);
    [apply Hretry|].
  simpl.
  destruct (size_t (bulk_in_filled d1 - bulk_in_copied d1) <? count);
    [|split; reflexivity].
  eapply same_outbound_trans; [|apply same_outbound_ugci_do_read_io].
  split; reflexivity.
Qed.

Lemma same_outbound_ugci_read
    (f : file) (env : read_env) (fuel : nat) (count : Z) (d : usb_ugci) :
  same_outbound d (snd (ugci_read f env fuel count d)).
Proof.
  unfold ugci_read.
  destruct (negb (bulk_in_urb d) || (count =? 0)); [split; reflexivity|].
  destruct (lock_intr env); [split; reflexivity|].
  destruct (negb (interface d)); [split; reflexivity|].
  apply same_outbound_ugci_read_retry.
Qed.

(** ** Writing to a detached device *)

Ltac fin :=
  repeat split;
  try solve [lia | reflexivity | intros; lia | intros; discriminate].

Lemma ugci_write_detached
    (f : file) (env : write_env) (user_buffer : list byte) (count : Z)
    (d : usb_ugci) :
  interface d = false -> submitted d = [] -> count <> 0 ->
  fst (ugci_write f env user_buffer count d) < 0 /\
  same_outbound d (snd (ugci_write f env user_buffer count d)) /\
  (0 < limit_sem d -> 0 <= errors d ->
   alloc_urb_ok env = true -> alloc_buf_ok env = true ->
   Z.min count (size_t MAX_TRANSFER) <= Z.of_nat (length user_buffer) ->
   fst (ugci_write f env user_buffer count d) = - ENODEV).
Proof.
  intros Hi Hs Hcount. apply Z.eqb_neq in Hcount.
  assert (Hrep : forall e, report e < 0)
    by (intros e; unfold report; destruct (e =? - EPIPE);
        unfold EPIPE, EIO; lia).
  rewrite ugci_write_eq. unfold down_limit_sem, same_outbound.
  rewrite Hcount.
  destruct (0 <? limit_sem d) eqn:Esem.
  - cbn [Z.eqb negb errors set_limit_sem].
    destruct (errors d <? 0) eqn:Eerr.
    + pose proof (Hrep (errors d)).
      replace (report (errors d) <? 0) with true by lia.
      simpl. fin.
    + rewrite Eerr.
      destruct (alloc_urb_ok env) eqn:Eau; cbn [negb];
        [|simpl; unfold ENOMEM; fin].
      destruct (alloc_buf_ok env) eqn:Eab; cbn [negb];
        [|simpl; unfold ENOMEM; fin].
      unfold copy_from_user.
      destruct (Z.min count (size_t MAX_TRANSFER)
                <=? Z.of_nat (length user_buffer)) eqn:Elen;
        [|simpl; unfold EFAULT; fin].
      cbn [interface set_limit_sem]. rewrite Hi. simpl.
      unfold ENODEV; fin.
  - destruct (f_nonblock f).
    + simpl. unfold EAGAIN. fin.
    + destruct (sem_wait env) as [[i status]|].
      * rewrite (giveback_bulk_out_idle i status d Hs), Esem. simpl.
        unfold ERESTARTSYS; fin.
      * simpl. unfold ERESTARTSYS; fin.
Qed.

Lemma giveback_bulk_in_keeps_submitted
    (status : Z) (data : list byte) (d : usb_ugci) :
  submitted (giveback_bulk_in status data d) = submitted d.
Proof. apply same_outbound_giveback_bulk_in. Qed.

Lemma ugci_draw_down_keeps_empty (evs : list (nat * Z)) (d : usb_ugci) :
  submitted d = [] -> submitted (ugci_draw_down evs d) = [].
Proof.
  intros Hs. unfold ugci_draw_down, usb_wait_anchor_empty_timeout.
  assert (H1 : fold_left
                 (fun acc ev => giveback_bulk_out (fst ev) (snd ev) acc)
                 evs d = d).
  { induction evs as [|ev evs IH]; simpl; [reflexivity|].
    rewrite giveback_bulk_out_idle by exact Hs. exact IH. }
  rewrite H1, Hs. simpl. unfold usb_kill_urb_in.
  destruct (bulk_in_urb d); [|exact Hs].
  rewrite giveback_bulk_in_keeps_submitted. exact Hs.
Qed.

Lemma quiet_outbound_exec (o : op) (d : usb_ugci) :
  detached d -> submitted d = [] -> submitted (exec o d) = [].
Proof.
  intros Hd Hs. pose proof Hd as (Hi & Hm & Hdata).
  destruct o as [pm_rv|f|f evs|f env fuel count|f env ub count|status data
                |i status| |evs| |evs| ]; simpl.
  - unfold ugci_open. rewrite Hm. exact Hs.
  - unfold ugci_release. destruct (private_data f); exact Hs.
  - unfold ugci_flush. destruct (private_data f); simpl; [|exact Hs].
    apply ugci_draw_down_keeps_empty. exact Hs.
  - destruct (same_outbound_ugci_read f env fuel count d) as [H _].
    congruence.
  - destruct (Z.eq_dec count 0) as [-> | Hc]; [exact Hs|].
    destruct (ugci_write_detached f env ub count d Hi Hs Hc)
      as (_ & (H & _) & _).
    congruence.
  - rewrite giveback_bulk_in_keeps_submitted. exact Hs.
  - rewrite giveback_bulk_out_idle by exact Hs. exact Hs.
  - unfold ugci_disconnect, kref_put. simpl.
    apply usb_kill_anchored_urbs_empty.
  - unfold ugci_suspend. rewrite Hdata. exact Hs.
  - exact Hs.
  - unfold ugci_pre_reset. apply ugci_draw_down_keeps_empty. exact Hs.
  - exact Hs.
Qed.

(** X2: after [ugci_disconnect] no outbound URB is ever anchored again.
    Whatever follows, a write of a non-zero length fails, leaves the anchor
    empty and gives back the permit it took; when nothing else stops it
    first, the error is [-ENODEV]. *)
Theorem X2_no_write_after_detach
    (ops : list op) (d : usb_ugci) (f : file) (env : write_env)
    (user_buffer : list byte) (count : Z) :
  count <> 0 ->
  let d' := run ops (ugci_disconnect d) in
  let r := ugci_write f env user_buffer count d' in
  submitted d' = [] /\
  fst r < 0 /\ submitted (snd r) = [] /\ limit_sem (snd r) = limit_sem d' /\
  (0 < limit_sem d' -> 0 <= errors d' ->
   alloc_urb_ok env = true -> alloc_buf_ok env = true ->
   Z.min count (size_t MAX_TRANSFER) <= Z.of_nat (length user_buffer) ->
   fst r = - ENODEV).
Proof.
  intros Hcount d' r.
  assert (Hboth : detached d' /\ submitted d' = []).
  { unfold d', run.
    assert (H0 : detached (ugci_disconnect d) /\
                 submitted (ugci_disconnect d) = []).
    { split; [apply detached_ugci_disconnect|].
      unfold ugci_disconnect, kref_put. simpl.
      apply usb_kill_anchored_urbs_empty. }
    revert H0. generalize (ugci_disconnect d).
    induction ops as [|o ops IH]; intros d0 [Hd0 Hs0]; simpl;
      [split; assumption|].
    apply IH. split; [apply detached_exec; exact Hd0
                     | apply quiet_outbound_exec; assumption]. }
  destruct Hboth as [(Hi & _) Hs].
  destruct (ugci_write_detached f env user_buffer count d' Hi Hs Hcount)
    as (H1 & (H2 & H3) & H4).
  fold r in H1, H2, H3, H4.
  split; [exact Hs|]. split; [exact H1|].
  split; [congruence|]. split; [exact H3 | exact H4].
Qed.

(** ** Reference counting *)

(** X3: a successful open takes one reference and the matching release gives
    it back, restoring the state exactly; an open whose power-management
    request fails returns that error and takes nothing. *)
Theorem X3_open_release_round_trip (f : file) (pm_rv : Z) (d : usb_ugci) :
  minor d = true -> intfdata d = true -> private_data f = true ->
  fst (ugci_open 0 d) = 0 /\
  kref (snd (ugci_open 0 d)) = kref d + 1 /\
  ugci_release f (snd (ugci_open 0 d)) = (0, d) /\
  (pm_rv <> 0 -> ugci_open pm_rv d = (pm_rv, d)).
Proof.
  intros Hm Hd Hf. unfold ugci_open, ugci_release, kref_put.
  rewrite Hm, Hd, Hf. simpl.
  split; [reflexivity|]. split; [reflexivity|]. split.
  - destruct d. unfold set_kref. simpl. do 2 f_equal. lia.
  - intros Hpm. apply Z.eqb_neq in Hpm. rewrite Hpm. reflexivity.
Qed.

Lemma kref_ugci_disconnect (d : usb_ugci) :
  kref (ugci_disconnect d) = kref d - 1.
Proof.
  unfold ugci_disconnect, kref_put, usb_kill_anchored_urbs.
  set (d3 := set_interface false (set_minor false (set_intfdata false d))).
  destruct (same_attachment_kill_anchored (length (submitted d3)) d3)
    as (_ & _ & _ & _ & _ & A6 & _).
  simpl. change (submitted d) with (submitted d3). rewrite A6. reflexivity.
Qed.

(** X4: an open file keeps the object alive across a disconnect.  With only
    the reference taken at probe time, a disconnect frees the object at once;
    with a file open, the disconnect leaves it allocated and the release of
    that file frees it. *)
Theorem X4_open_file_outlives_disconnect (f : file) (d : usb_ugci) :
  kref d = 1 -> minor d = true -> intfdata d = true ->
  private_data f = true ->
  let d1 := snd (ugci_open 0 d) in
  let d2 := ugci_disconnect d1 in
  let d3 := snd (ugci_release f d2) in
  deleted (ugci_disconnect d) = true /\
  deleted d1 = false /\ deleted d2 = false /\ deleted d3 = true.
Proof.
  intros Hk Hm Hd Hf. cbv zeta.
  assert (Hk1 : kref (snd (ugci_open 0 d)) = 2).
  { unfold ugci_open. rewrite Hm, Hd. simpl. rewrite Hk. reflexivity. }
  assert (Hk2 : kref (ugci_disconnect (snd (ugci_open 0 d))) = 1)
    by (rewrite kref_ugci_disconnect; lia).
  assert (Hk3 : kref (snd (ugci_release f
                             (ugci_disconnect (snd (ugci_open 0 d))))) = 0).
  { unfold ugci_release, kref_put. rewrite Hf.
    cbn [negb snd kref set_kref]. lia. }
  unfold deleted. rewrite kref_ugci_disconnect, Hk, Hk1, Hk2, Hk3.
  repeat split.
Qed.

(** ** Draining *)

Lemma Inv_quiescent (d : usb_ugci) :
  Inv d -> submitted d = [] -> in_flight_reads d = [] ->
  ongoing_read d = false /\ limit_sem d = WRITES_IN_FLIGHT.
Proof.
  intros HI Hs Hr. split.
  - destruct (inv_read d HI) as [[_ H]|[n (H & _)]]; [exact H | congruence].
  - pose proof (inv_sem d HI) as H. rewrite Hs in H. simpl in H. lia.
Qed.

(** X6: after [ugci_draw_down] the device is quiescent: no outbound URB is
    anchored, no inbound transfer is in flight, [ongoing_read] is clear and
    all [WRITES_IN_FLIGHT] permits are free.  Suspend of a registered device
    and pre-reset are such drains. *)
Theorem X6_drain_leaves_device_quiescent
    (evs : list (nat * Z)) (d : usb_ugci) :
  reachable d -> statuses_ok evs ->
  let quiescent d' :=
    submitted d' = [] /\ in_flight_reads d' = [] /\
    ongoing_read d' = false /\ limit_sem d' = WRITES_IN_FLIGHT in
  quiescent (ugci_draw_down evs d) /\
  (intfdata d = true -> quiescent (ugci_suspend evs d)) /\
  quiescent (ugci_pre_reset evs d).
Proof.
  intros Hreach Hok quiescent. pose proof (reachable_Inv d Hreach) as HI.
  assert (Hq : forall d0, Inv d0 -> quiescent (ugci_draw_down evs d0)).
  { intros d0 HI0.
    destruct (ugci_draw_down_drained evs d0 Hok HI0) as [Hs Hr].
    destruct (Inv_quiescent _ (Inv_ugci_draw_down evs d0 Hok HI0) Hs Hr)
      as [Ho Hl].
    unfold quiescent. auto. }
  split; [apply Hq; exact HI|]. split.
  - intros Hd. unfold ugci_suspend. rewrite Hd. apply Hq. exact HI.
  - unfold ugci_pre_reset. apply Hq.
    destruct HI; constructor; simpl; auto.
Qed.

(** X5: a reset is reported as [-EPIPE].  Pre-reset takes [io_mutex] and
    drains; post-reset releases it and leaves [-EPIPE] in [errors], whatever
    the drain had recorded; the next read returns [-EPIPE] and clears it. *)
Theorem X5_reset_is_reported_as_epipe
    (evs : list (nat * Z)) (d : usb_ugci) (f : file) (env : read_env)
    (fuel : nat) (count : Z) :
  reachable d -> statuses_ok evs -> interface d = true ->
  count <> 0 -> lock_intr env = false ->
  let d1 := ugci_pre_reset evs d in
  let d2 := ugci_post_reset d1 in
  io_mutex d1 = true /\ submitted d1 = [] /\ in_flight_reads d1 = [] /\
  io_mutex d2 = false /\ errors d2 = - EPIPE /\
  ugci_read f env (S fuel) count d2 = (Some (- EPIPE), [], set_errors 0 d2).
Proof.
  intros Hreach Hok Hif Hcount Hlock d1 d2.
  pose proof (reachable_Inv d Hreach) as HI.
  assert (HIm : Inv (set_io_mutex true d))
    by (destruct HI; constructor; simpl; auto).
  destruct (ugci_draw_down_drained evs _ Hok HIm) as [Hs Hr].
  pose proof (Inv_ugci_draw_down evs _ Hok HIm) as HI1.
  destruct (Inv_quiescent _ HI1 Hs Hr) as [Ho _].
  destruct (same_attachment_ugci_draw_down evs (set_io_mutex true d))
    as (A1 & A2 & _ & _ & _ & _ & A7).
  fold (ugci_pre_reset evs d) in Hs, Hr, Ho, A1, A2, A7, HI1.
  fold d1 in Hs, Hr, Ho, A1, A2, A7, HI1. simpl in A1, A2, A7.
  split; [exact A7|]. split; [exact Hs|]. split; [exact Hr|].
  split; [reflexivity|]. split; [reflexivity|].
  unfold ugci_read, d2, ugci_post_reset. simpl.
  rewrite A1, A2, Hif, (inv_urb d HI), Hlock.
  apply Z.eqb_neq in Hcount. rewrite Hcount. simpl.
  unfold read_wait. simpl. rewrite Ho. reflexivity.
Qed.

Lemma same_buffer_trans (d1 d2 d3 : usb_ugci) :
  same_buffer d1 d2 -> same_buffer d2 d3 -> same_buffer d1 d3.
Proof.
  unfold same_buffer. intros (A1 & A2 & A3) (B1 & B2 & B3).
  repeat split; congruence.
Qed.

Lemma same_buffer_giveback_bulk_out (i : nat) (status : Z) (d : usb_ugci) :
  same_buffer d (giveback_bulk_out i status d).
Proof.
  unfold giveback_bulk_out, ugci_write_bulk_callback.
  destruct (nth_error (submitted d) i); [|repeat split].
  destruct (status =? 0); [|destruct (unlink_status status)]; repeat split.
Qed.

Lemma same_buffer_kill_anchored (n : nat) (d : usb_ugci) :
  same_buffer d (kill_anchored n d).
Proof.
  revert d. induction n as [|n IH]; intros d; simpl; [repeat split|].
  eapply same_buffer_trans;
    [apply same_buffer_giveback_bulk_out | apply IH].
Qed.

Lemma same_buffer_ugci_draw_down (evs : list (nat * Z)) (d : usb_ugci) :
  same_buffer d (ugci_draw_down evs d).
Proof.
  unfold ugci_draw_down, usb_wait_anchor_empty_timeout.
  assert (H1 : same_buffer d (fold_left
             (fun acc ev => giveback_bulk_out (fst ev) (snd ev) acc) evs d)).
  { revert d. induction evs as [|ev evs IH]; intros d; simpl;
      [repeat split|].
    eapply same_buffer_trans;
      [apply same_buffer_giveback_bulk_out | apply IH]. }
  eapply same_buffer_trans; [exact H1|].
  assert (H2 : forall d0, same_buffer d0 (usb_kill_urb_in d0)).
  { intros d0. unfold usb_kill_urb_in, giveback_bulk_in.
    destruct (bulk_in_urb d0); [|repeat split].
    destruct (in_flight_reads d0) as [|n rest]; [repeat split|].
    rewrite firstn_nil. repeat split. }
  destruct (submitted (fold_left _ evs d)); simpl; [apply H2|].
  eapply same_buffer_trans; [apply same_buffer_kill_anchored | apply H2].
Qed.

(** X14: suspend and resume lose no received data.  Across a suspend followed
    by a resume the inbound buffer, the fill level and the read offset are
    unchanged, so the bytes still to be handed to a reader are the same;
    resume itself does nothing, in particular it does not restart the
    inbound transfer that suspend cancelled. *)
Theorem X14_suspend_resume_keep_data (evs : list (nat * Z)) (d : usb_ugci) :
  reachable d -> statuses_ok evs ->
  let d' := ugci_resume (ugci_suspend evs d) in
  bulk_in_buffer d' = bulk_in_buffer d /\
  bulk_in_filled d' = bulk_in_filled d /\
  bulk_in_copied d' = bulk_in_copied d /\
  pending d' = pending d /\
  (intfdata d = true -> in_flight_reads d' = [] /\ ongoing_read d' = false).
Proof.
  intros Hreach Hok d'. pose proof (reachable_Inv d Hreach) as HI.
  assert (Hb : same_buffer d d').
  { unfold d', ugci_resume, ugci_suspend.
    destruct (intfdata d); simpl;
      [apply same_buffer_ugci_draw_down | repeat split]. }
  destruct Hb as (B1 & B2 & B3).
  split; [exact B1|]. split; [exact B2|]. split; [exact B3|].
  split; [unfold pending; rewrite B1, B2, B3; reflexivity|].
  intros Hd. unfold d', ugci_resume, ugci_suspend. rewrite Hd. simpl.
  destruct (ugci_draw_down_drained evs d Hok HI) as [Hs Hr].
  destruct (Inv_quiescent _ (Inv_ugci_draw_down evs d Hok HI) Hs Hr)
    as [Ho _].
  split; assumption.
Qed.

(** ** A flush that has to cancel *)

Lemma errors_giveback_bulk_out_killed (i : nat) (d : usb_ugci) :
  (i < length (submitted d))%nat ->
  errors (giveback_bulk_out i (- ENOENT) d) = - ENOENT.
Proof.
  intros Hi. unfold giveback_bulk_out.
  destruct (nth_error (submitted d) i) eqn:E;
    [reflexivity | apply nth_error_None in E; lia].
Qed.

Lemma errors_kill_anchored (n : nat) (d : usb_ugci) :
  (1 <= n <= length (submitted d))%nat ->
  errors (kill_anchored n d) = - ENOENT.
Proof.
  revert d. induction n as [|n IH]; intros d Hn; [lia|]. simpl.
  assert (Hlast : (pred (length (submitted d)) < length (submitted d))%nat)
    by lia.
  destruct n as [|n].
  - simpl. apply errors_giveback_bulk_out_killed. exact Hlast.
  - apply IH. rewrite giveback_bulk_out_length by exact Hlast. lia.
Qed.

(** X12: a flush that has to cancel anything reports a failure.  If, when the
    wait for the outbound URBs ends, a URB is still anchored or an inbound
    transfer is in flight, the cancellation leaves [-ENOENT] in [errors] and
    [ugci_flush] returns [-EIO], even if nothing had gone wrong before. *)
Theorem X12_flush_reports_its_own_cancellations
    (f : file) (evs : list (nat * Z)) (d : usb_ugci) :
  reachable d -> statuses_ok evs -> private_data f = true ->
  let d1 := snd (usb_wait_anchor_empty_timeout evs d) in
  submitted d1 <> [] \/ in_flight_reads d1 <> [] ->
  errors (ugci_draw_down evs d) = - ENOENT /\
  fst (ugci_flush f evs d) = - EIO.
Proof.
  intros Hreach Hok Hf d1 Hbusy.
  pose proof (reachable_Inv d Hreach) as HI.
  assert (He : errors (ugci_draw_down evs d) = - ENOENT).
  { unfold ugci_draw_down. unfold d1 in Hbusy.
    unfold usb_wait_anchor_empty_timeout in *. cbn [snd] in Hbusy.
    pose proof (Inv_givebacks evs d Hok HI) as HI1.
    set (dw := fold_left _ evs d) in *.
    assert (Hin : forall d2, Inv d2 ->
              errors d2 = - ENOENT \/ in_flight_reads d2 <> [] ->
              errors (usb_kill_urb_in d2) = - ENOENT).
    { intros d2 HI2 Hcase. unfold usb_kill_urb_in, giveback_bulk_in.
      rewrite (inv_urb d2 HI2).
      destruct (in_flight_reads d2) as [|n rest];
        [|reflexivity].
      destruct Hcase as [H | H]; [exact H | congruence]. }
    destruct (submitted dw) as [|u us] eqn:Es; simpl.
    - apply Hin; [exact HI1|]. right.
      destruct Hbusy as [H | H]; [congruence | exact H].
    - apply Hin; [apply Inv_kill_anchored; exact HI1|]. left.
      unfold usb_kill_anchored_urbs. apply errors_kill_anchored.
      rewrite Es. simpl. lia. }
  split; [exact He|].
  unfold ugci_flush. rewrite Hf. cbn [negb fst]. rewrite He. reflexivity.
Qed.

(** ** The first read on a fresh device *)

(** X13: [ugci_probe] returns 0 exactly when it leaves a device.  On that
    device the first non-blocking read of [count] bytes asks the core for
    [min maxp count] bytes, returns [-EAGAIN] and leaves that one request in
    flight with [ongoing_read] set. *)
Theorem X13_first_read_after_probe
    (p : probe_env) (d : usb_ugci) (f : file) (env : read_env) (fuel : nat)
    (count : Z) :
  probe_ok p -> ugci_probe p = (0, Some d) ->
  0 < count < 2 ^ 64 -> f_nonblock f = true -> lock_intr env = false ->
  submit_rv env 0%nat = 0 ->
  let r := ugci_read f env (S (S fuel)) count d in
  (forall p', fst (ugci_probe p') = 0 <-> snd (ugci_probe p') <> None) /\
  fst r = (Some (- EAGAIN), []) /\
  in_flight_reads (snd r) = [Z.min (maxp p) count] /\
  ongoing_read (snd r) = true /\
  hist (snd r) = [EvSubmitIn (Z.min (maxp p) count) 0].
Proof.
  intros Hp Hprobe Hcount Hnb Hlock Hsub r.
  split.
  { intros p'. unfold ugci_probe.
    destruct (kzalloc_ok p'); simpl;
      [|split; [discriminate | congruence]].
    destruct (endpoints_rv p' =? 0) eqn:E1; simpl;
      [|apply Z.eqb_neq in E1; split; [contradiction | congruence]].
    destruct (kmalloc_ok p'); simpl; [|split; [discriminate | congruence]].
    destruct (alloc_in_urb_ok p'); simpl;
      [|split; [discriminate | congruence]].
    destruct (register_rv p' =? 0) eqn:E2; simpl;
      [|apply Z.eqb_neq in E2; split; [contradiction | congruence]].
    split; [discriminate | reflexivity]. }
  unfold probe_ok in Hp. unfold ugci_probe in Hprobe.
  destruct (kzalloc_ok p); [|discriminate].
  destruct (endpoints_rv p =? 0); [|discriminate].
  destruct (kmalloc_ok p); [|discriminate].
  destruct (alloc_in_urb_ok p); [|discriminate].
  destruct (register_rv p =? 0); [|discriminate].
  rewrite size_t_small in Hprobe by lia. injection Hprobe as <-.
  unfold r, ugci_read. cbn [bulk_in_urb interface negb orb].
  replace (count =? 0) with false by lia. rewrite Hlock, Hnb.
  cbn [ugci_read_retry]. unfold read_wait. cbn [ongoing_read].
  change (0 <? 0) with false. cbv iota. cbn [errors bulk_in_filled].
  change (0 <? 0) with false. cbv iota. change (0 =? 0) with true.
  cbn [negb]. unfold ugci_do_read_io, usb_submit_urb_in. rewrite Hsub.
  cbn [bulk_in_size set_ongoing_read set_bulk_in_filled set_bulk_in_copied].
  rewrite urb_len_small by lia.
  change (0 <? 0) with false. change (0 =? 0) with true. cbv iota.
  cbn [ongoing_read set_in_flight_reads record]. repeat split.
Qed.

(** ** Passes of the read loop *)

(** With nothing left in the buffer a pass starts a transfer. *)
Lemma ugci_read_retry_empty
    (env : read_env) (nonblock : bool) (count : Z) (fuel i : nat)
    (d : usb_ugci) :
  ongoing_read d = false -> errors d = 0 ->
  bulk_in_filled d = bulk_in_copied d ->
  ugci_read_retry (S fuel) i env nonblock count d
  = (let '(rv0, d2) := ugci_do_read_io (submit_rv env i) count d in
     if rv0 <? 0 then (Some rv0, [], d2)
     else ugci_read_retry fuel (S i) env nonblock count d2).
Proof.
  intros Ho He Hfc. cbn [ugci_read_retry]. unfold read_wait. rewrite Ho.
  change (0 <? 0) with false. cbv iota. rewrite He.
  change (0 <? 0) with false. cbv iota.
  destruct (bulk_in_filled d =? 0); cbn [negb]; [reflexivity|].
  rewrite Hfc, Z.sub_diag. reflexivity.
Qed.

(** A sleeping pass continues as a pass entered after the completion. *)
Lemma ugci_read_retry_woken
    (env : read_env) (count : Z) (fuel i : nat) (d : usb_ugci)
    (status : Z) (data : list byte) :
  ongoing_read d = true -> wait_ev env i = WaitCompleted status data ->
  ongoing_read (giveback_bulk_in status data d) = false ->
  ugci_read_retry (S fuel) i env false count d
  = ugci_read_retry (S fuel) i env false count
                    (giveback_bulk_in status data d).
Proof.
  intros Ho Hw Ho1. cbn [ugci_read_retry]. unfold read_wait, wait_bulk_in.
  rewrite Ho, Hw, Ho1. reflexivity.
Qed.

Lemma ugci_do_read_io_accepted_state (count : Z) (d : usb_ugci) :
  in_flight_reads d = [] ->
  fst (ugci_do_read_io 0 count d) = 0 /\
  in_flight_reads (snd (ugci_do_read_io 0 count d))
  = [to_u32 (to_int (Z.min (bulk_in_size d) count))] /\
  ongoing_read (snd (ugci_do_read_io 0 count d)) = true /\
  errors (snd (ugci_do_read_io 0 count d)) = errors d /\
  bulk_in_copied (snd (ugci_do_read_io 0 count d)) = 0 /\
  bulk_in_buffer (snd (ugci_do_read_io 0 count d)) = bulk_in_buffer d.
Proof.
  intros Hr. unfold ugci_do_read_io, usb_submit_urb_in. simpl.
  rewrite Hr. repeat split.
Qed.

Lemma giveback_bulk_in_success_state
    (data : list byte) (len : Z) (d : usb_ugci) :
  in_flight_reads d = [len] ->
  bulk_in_filled (giveback_bulk_in 0 data d)
  = Z.of_nat (length (firstn (Z.to_nat len) data)) /\
  bulk_in_copied (giveback_bulk_in 0 data d) = bulk_in_copied d /\
  bulk_in_buffer (giveback_bulk_in 0 data d)
  = overlay (firstn (Z.to_nat len) data) (bulk_in_buffer d) /\
  ongoing_read (giveback_bulk_in 0 data d) = false /\
  errors (giveback_bulk_in 0 data d) = errors d.
Proof.
  intros Hr. unfold giveback_bulk_in, ugci_read_bulk_callback.
  rewrite Hr. repeat split.
Qed.

(** X7: a read that cannot start its transfer fails at once.  With nothing
    left in the buffer, if [usb_submit_urb] refuses the request the read
    returns [-ENOMEM] when the core said [-ENOMEM] and [-EIO] for any other
    refusal; nothing is in flight afterwards, [ongoing_read] is clear again,
    the buffer is empty and the refusal is logged. *)
Theorem X7_read_submission_failure
    (d : usb_ugci) (f : file) (env : read_env) (fuel : nat) (count : Z) :
  reachable d -> 0 < count < 2 ^ 64 -> lock_intr env = false ->
  interface d = true -> ongoing_read d = false -> errors d = 0 ->
  bulk_in_filled d = bulk_in_copied d -> submit_rv env 0%nat < 0 ->
  let rv := submit_rv env 0%nat in
  let r := ugci_read f env (S fuel) count d in
  fst r = (Some (if rv =? - ENOMEM then - ENOMEM else - EIO), []) /\
  ongoing_read (snd r) = false /\ in_flight_reads (snd r) = [] /\
  bulk_in_filled (snd r) = 0 /\ bulk_in_copied (snd r) = 0 /\
  errors (snd r) = 0 /\
  hist (snd r)
  = EvLog rv :: EvSubmitIn (Z.min (bulk_in_size d) count) rv :: hist d.
Proof.
  intros Hreach Hcount Hlock Hif Ho He Hfc Hrv rv r.
  pose proof (reachable_Inv d Hreach) as HI.
  pose proof (Inv_idle d HI Ho) as Hidle.
  pose proof (inv_size d HI) as Hsz.
  unfold r, ugci_read. rewrite (inv_urb d HI), Hlock, Hif.
  replace (count =? 0) with false by lia. cbn [negb orb].
  rewrite ugci_read_retry_empty by assumption.
  unfold ugci_do_read_io, usb_submit_urb_in. fold rv.
  replace (rv <? 0) with true by (unfold rv; lia).
  replace (rv =? 0) with false by (unfold rv; lia).
  rewrite urb_len_small by lia.
  assert (Hneg : ((if rv =? - ENOMEM then rv else - EIO) <? 0) = true).
  { destruct (rv =? - ENOMEM); [unfold rv; lia | reflexivity]. }
  rewrite Hneg. cbn [fst snd].
  split.
  { destruct (rv =? - ENOMEM) eqn:E; [|reflexivity].
    apply Z.eqb_eq in E. rewrite E. reflexivity. }
  simpl. repeat split; assumption.
Qed.

(** ** Admission with every permit taken *)

Lemma limit_sem_giveback_bulk_out (i : nat) (status : Z) (d : usb_ugci) :
  (i < length (submitted d))%nat ->
  limit_sem (giveback_bulk_out i status d) = limit_sem d + 1.
Proof.
  intros Hi. unfold giveback_bulk_out, ugci_write_bulk_callback.
  destruct (nth_error (submitted d) i) eqn:E;
    [|apply nth_error_None in E; lia].
  destruct (status =? 0); [|destruct (unlink_status status)]; reflexivity.
Qed.

(** X8: with all [WRITES_IN_FLIGHT] URBs outstanding, a non-blocking write
    returns [-EAGAIN] and a blocking write ended by a signal returns
    [-ERESTARTSYS], both leaving the state untouched; a blocking write
    released by the completion of one of the URBs goes on exactly as the same
    write issued after that completion. *)
Theorem X8_write_with_no_permit_left
    (d : usb_ugci) (f : file) (env : write_env) (user_buffer : list byte)
    (count : Z) :
  reachable d -> Z.of_nat (length (submitted d)) = WRITES_IN_FLIGHT ->
  count <> 0 ->
  (f_nonblock f = true ->
   ugci_write f env user_buffer count d = (- EAGAIN, d)) /\
  (f_nonblock f = false -> sem_wait env = None ->
   ugci_write f env user_buffer count d = (- ERESTARTSYS, d)) /\
  (f_nonblock f = false ->
   forall i status,
     sem_wait env = Some (i, status) -> (i < length (submitted d))%nat ->
     ugci_write f env user_buffer count d
     = ugci_write f env user_buffer count (giveback_bulk_out i status d)).
Proof.
  intros Hreach Hfull Hcount. pose proof (reachable_Inv d Hreach) as HI.
  assert (Hsem : limit_sem d = 0) by (pose proof (inv_sem d HI); lia).
  apply Z.eqb_neq in Hcount.
  split; [|split].
  - intros Hnb. rewrite ugci_write_eq. unfold down_limit_sem.
    rewrite Hcount, Hsem, Hnb. reflexivity.
  - intros Hnb Hw. rewrite ugci_write_eq.
    unfold down_limit_sem.
    rewrite Hcount, Hsem, Hnb, Hw. reflexivity.
  - intros Hnb i status Hw Hi.
    pose proof (limit_sem_giveback_bulk_out i status d Hi) as Hup.
    rewrite Hsem in Hup.
    rewrite !ugci_write_eq. unfold down_limit_sem.
    rewrite Hcount, Hsem, Hnb, Hw, Hup. simpl.
    destruct (sem_wait env) as [[j st]|]; reflexivity.
Qed.

(** ** What a read returns *)

Lemma ugci_read_retry_shape
    (env : read_env) (nonblock : bool) (count : Z) :
  0 < count < 2 ^ 64 ->
  (forall i, wait_ok (wait_ev env i)) ->
  (forall i, submit_rv env i <= 0) ->
  forall (fuel i : nat) (d : usb_ugci) rv out d',
    Inv d ->
    ugci_read_retry fuel i env nonblock count d = (Some rv, out, d') ->
    (rv < 0 /\ (rv <> - EFAULT -> out = [])) \/
    (0 < rv /\ rv <= count /\ rv <= bulk_in_size d /\
     Z.of_nat (length out) = rv).
Proof.
  intros Hcount Hw Hsub. induction fuel as [|fuel IH];
    intros i d rv out d' HI H; simpl in H; [discriminate|].
  destruct (read_wait_spec nonblock (wait_ev env i) d (Hw i) HI)
    as [HI1 Hidle].
  destruct (same_attachment_read_wait nonblock (wait_ev env i) d)
    as (_ & _ & Hsz1 & _).
  destruct (read_wait nonblock (wait_ev env i) d) as [rv1 d1];
    simpl in *.
  destruct (rv1 <? 0) eqn:Erv1.
  { injection H as <- <- _. left. split; [lia | intros _; reflexivity]. }
  specialize (Hidle eq_refl).
  assert (Hretry :
            (let '(rv0, d2) := ugci_do_read_io (submit_rv env i) count d1 in
             if rv0 <? 0 then (Some rv0, [], d2)
             else ugci_read_retry fuel (S i) env nonblock count d2)
            = (Some rv, out, d') ->
            (rv < 0 /\ (rv <> - EFAULT -> out = [])) \/
            (0 < rv /\ rv <= count /\ rv <= bulk_in_size d /\
             Z.of_nat (length out) = rv)).
  { intros H2.
    pose proof (Inv_ugci_do_read_io (submit_rv env i) count d1 HI1 Hidle
                  (Z.lt_le_incl _ _ (proj1 Hcount)) (Hsub i)) as HI2.
    destruct (same_attachment_ugci_do_read_io (submit_rv env i) count d1)
      as (_ & _ & Hsz2 & _).
    destruct (ugci_do_read_io (submit_rv env i) count d1) as [rv0 d2];
      simpl in *.
    destruct (rv0 <? 0) eqn:Erv0.
    - injection H2 as <- <- _. left. split; [lia | intros _; reflexivity].
    - rewrite <- Hsz1, <- Hsz2. exact (IH (S i) d2 rv out d' HI2 H2). }
  destruct (errors d1 <? 0).
  { injection H as <- <- _. left. split; [|intros _; reflexivity].
    unfold report. destruct (errors d1 =? - EPIPE); unfold EPIPE, EIO; lia. }
  destruct (bulk_in_filled d1 =? 0); simpl in H; [exact (Hretry H)|].
  pose proof (inv_copied d1 HI1) as Hc1.
  pose proof (inv_filled d1 HI1) as Hf1.
  pose proof (inv_size d1 HI1) as Hs1.
  pose proof (inv_buf d1 HI1) as Hb1.
  rewrite (size_t_small (bulk_in_filled d1 - bulk_in_copied d1)) in H by lia.
  destruct (bulk_in_filled d1 - bulk_in_copied d1 =? 0) eqn:Eav;
    [exact (Hretry H)|].
  injection H as <- <- _.
  destruct (copy_fault env); simpl.
  { left. split; [unfold EFAULT; lia | intros Hne; contradiction]. }
  right. rewrite to_int_small by lia.
  rewrite length_firstn, length_skipn. lia.
Qed.

(** X10: what a read of a non-zero length can return.  If the call returns,
    the value is either negative or a positive number of bytes, no larger
    than the length asked for nor than the endpoint's packet size, and then
    exactly that many bytes were handed out.  It is never 0.  A negative
    value other than [-EFAULT] is returned before [copy_to_user] is reached,
    so nothing was handed out; about [-EFAULT], where the copy itself failed
    and may have written part of the chunk, nothing is said here. *)
Theorem X10_read_result_shape
    (d : usb_ugci) (f : file) (env : read_env) (fuel : nat) (count : Z)
    (rv : Z) (out : list byte) (d' : usb_ugci) :
  reachable d -> op_ok (OpRead f env fuel count) -> count <> 0 ->
  ugci_read f env fuel count d = (Some rv, out, d') ->
  (rv < 0 /\ (rv <> - EFAULT -> out = [])) \/
  (0 < rv /\ rv <= count /\ rv <= bulk_in_size d /\
   Z.of_nat (length out) = rv).
Proof.
  intros Hreach (Hcount & Hw & Hsub) Hne H.
  pose proof (reachable_Inv d Hreach) as HI.
  unfold ugci_read in H. rewrite (inv_urb d HI) in H.
  replace (count =? 0) with false in H by lia. cbn [negb orb] in H.
  destruct (lock_intr env).
  { injection H as <- <- _. left.
    split; [unfold EINTR; lia | intros _; reflexivity]. }
  destruct (negb (interface d)).
  { injection H as <- <- _. left.
    split; [unfold ENODEV; lia | intros _; reflexivity]. }
  apply (ugci_read_retry_shape env (f_nonblock f) count) with (4 := HI) in H;
    [exact H | lia | exact Hw | exact Hsub].
Qed.

(** ** Reads in sequence *)

Lemma firstn_add {A : Type} (a b : nat) (l : list A) :
  firstn (a + b) l = firstn a l ++ firstn b (skipn a l).
Proof.
  revert l. induction a as [|a IH]; intros l; [reflexivity|].
  destruct l as [|x l]; simpl; [rewrite firstn_nil; reflexivity|].
  rewrite IH. reflexivity.
Qed.

(** X11: reads split and join.  When at least [c1 + c2] bytes are waiting in
    the buffer, a read of [c1] bytes followed by a read of [c2] bytes hands
    out, in order, the very bytes that one read of [c1 + c2] bytes would, and
    leaves the buffer and its offsets in the same state. *)
Theorem X11_reads_split_and_join
    (d : usb_ugci) (f : file) (env : read_env) (fuel : nat) (c1 c2 : Z) :
  reachable d -> 0 < c1 -> 0 < c2 ->
  c1 + c2 <= bulk_in_filled d - bulk_in_copied d ->
  lock_intr env = false -> interface d = true -> ongoing_read d = false ->
  errors d = 0 -> copy_fault env = false ->
  let r1 := ugci_read f env (S fuel) c1 d in
  let r2 := ugci_read f env (S fuel) c2 (snd r1) in
  let r := ugci_read f env (S fuel) (c1 + c2) d in
  fst (fst r1) = Some c1 /\ fst (fst r2) = Some c2 /\
  fst (fst r) = Some (c1 + c2) /\
  snd (fst r1) ++ snd (fst r2) = snd (fst r) /\
  same_buffer (snd r) (snd r2).
Proof.
  intros Hreach Hc1 Hc2 Hsum Hlock Hif Ho He Hfault.
  pose proof (reachable_Inv d Hreach) as HI.
  pose proof (inv_copied d HI) as Hc.
  pose proof (inv_filled d HI) as Hf.
  pose proof (inv_size d HI) as Hsz.
  assert (Hread : forall c d0,
            Inv d0 -> interface d0 = true -> ongoing_read d0 = false ->
            errors d0 = 0 -> 0 < c ->
            c <= bulk_in_filled d0 - bulk_in_copied d0 ->
            ugci_read f env (S fuel) c d0
            = (Some c,
               firstn (Z.to_nat c)
                      (skipn (Z.to_nat (bulk_in_copied d0))
                             (bulk_in_buffer d0)),
               after_copy true c d0)).
  { intros c d0 HI0 Hif0 Ho0 He0 Hpos Hle.
    pose proof (inv_filled d0 HI0). pose proof (inv_size d0 HI0).
    pose proof (inv_copied d0 HI0).
    unfold ugci_read. rewrite (inv_urb d0 HI0), Hlock, Hif0.
    replace (c =? 0) with false by lia. cbn [negb orb].
    rewrite (ugci_read_retry_data env (f_nonblock f) c fuel 0 d0 HI0 Ho0 He0)
      by lia.
    rewrite Hfault. cbn [negb].
    replace (Z.min (bulk_in_filled d0 - bulk_in_copied d0) c) with c by lia.
    replace (bulk_in_filled d0 - bulk_in_copied d0 <? c) with false by lia.
    reflexivity. }
  assert (HI1 : Inv (after_copy true c1 d))
    by (apply Inv_after_copy; [exact HI | lia]).
  assert (Hcop1 : bulk_in_copied (after_copy true c1 d)
                  = bulk_in_copied d + c1).
  { unfold after_copy. simpl. lia. }
  cbv zeta.
  rewrite (Hread c1 d HI Hif Ho He Hc1) by lia. cbn [fst snd].
  rewrite (Hread c2 (after_copy true c1 d) HI1 Hif Ho He Hc2)
    by (rewrite Hcop1; simpl; lia).
  rewrite (Hread (c1 + c2) d HI Hif Ho He) by lia. cbn [fst snd].
  split; [reflexivity|]. split; [reflexivity|]. split; [reflexivity|].
  split.
  - rewrite Hcop1.
    change (bulk_in_buffer (after_copy true c1 d)) with (bulk_in_buffer d).
    rewrite (Z2Nat.inj_add c1 c2) by lia. rewrite firstn_add.
    rewrite skipn_skipn. rewrite (Z2Nat.inj_add (bulk_in_copied d) c1) by lia.
    rewrite (Nat.add_comm (Z.to_nat (bulk_in_copied d))). reflexivity.
  - unfold same_buffer, after_copy. simpl. repeat split; lia.
Qed.

(** ** From the device to the reader *)

(** X9: a blocking read returns what arrived.  On an idle device whose buffer
    has nothing left, a blocking read of [count] bytes asks for
    [min bulk_in_size count] bytes and sleeps; when the transfer completes
    successfully with [data], the call returns the bytes of [data] that fit
    the request, unchanged and in order, and their number. *)
Theorem X9_blocking_read_returns_what_arrived
    (d : usb_ugci) (f : file) (env : read_env) (fuel : nat) (count : Z)
    (data : list byte) :
  reachable d -> 0 < count < 2 ^ 64 -> 0 < bulk_in_size d ->
  lock_intr env = false -> interface d = true -> f_nonblock f = false ->
  ongoing_read d = false -> errors d = 0 ->
  bulk_in_filled d = bulk_in_copied d ->
  submit_rv env 0%nat = 0 -> wait_ev env 1%nat = WaitCompleted 0 data ->
  data <> [] -> copy_fault env = false ->
  let got := firstn (Z.to_nat (Z.min (bulk_in_size d) count)) data in
  fst (ugci_read f env (S (S fuel)) count d)
  = (Some (Z.of_nat (length got)), got).
Proof.
  intros Hreach Hcount Hsize Hlock Hif Hnb Ho He Hfc Hsub Hw Hdata Hfault
         got.
  pose proof (reachable_Inv d Hreach) as HI.
  pose proof (Inv_idle d HI Ho) as Hidle.
  pose proof (inv_size d HI) as Hsz.
  pose proof (inv_buf d HI) as Hbuf.
  unfold ugci_read. rewrite (inv_urb d HI), Hlock, Hif, Hnb.
  replace (count =? 0) with false by lia. cbn [negb orb].
  (* first pass: the transfer is started *)
  rewrite ugci_read_retry_empty by assumption. rewrite Hsub.
  destruct (ugci_do_read_io_accepted_state count d Hidle)
    as (Hrv & Hfl & Ho2 & He2 & Hc2 & Hb2).
  pose proof (Inv_ugci_do_read_io 0 count d HI Ho
                (Z.lt_le_incl _ _ (proj1 Hcount)) (Z.le_refl 0)) as HI2.
  destruct (ugci_do_read_io 0 count d) as [rv0 d2]. cbn [fst snd] in *.
  subst rv0. change (0 <? 0) with false. cbv iota.
  rewrite urb_len_small in Hfl by lia.
  (* second pass: the sleeper is woken by the completion *)
  destruct (giveback_bulk_in_success_state data _ d2 Hfl)
    as (Hf3 & Hc3 & Hb3 & Ho3 & He3).
  pose proof (Inv_giveback_bulk_in 0 data d2 (Z.le_refl 0) HI2) as HI3.
  rewrite (ugci_read_retry_woken env count fuel 1 d2 0 data Ho2 Hw Ho3).
  fold got in Hf3, Hb3.
  assert (Hgot : (0 < length got)%nat).
  { unfold got. rewrite length_firstn.
    destruct data as [|b data]; [congruence|]. simpl. lia. }
  assert (Hfit : Z.of_nat (length got) <= count).
  { unfold got. rewrite length_firstn. lia. }
  rewrite (ugci_read_retry_data env false count fuel 1
             (giveback_bulk_in 0 data d2) HI3 Ho3)
    by (rewrite ?He3, ?He2, ?Hf3, ?Hc3, ?Hc2; auto; lia).
  rewrite Hfault, Hf3, Hc3, Hc2, Hb3. cbn [negb fst].
  replace (Z.min (Z.of_nat (length got) - 0) count)
    with (Z.of_nat (length got)) by lia.
  rewrite Nat2Z.id. change (Z.to_nat 0) with O. rewrite skipn_O.
  unfold overlay. rewrite firstn_app, firstn_all, Nat.sub_diag.
  rewrite firstn_O, app_nil_r. reflexivity.
Qed.

(** ** A write and its completion *)

Lemma remove_nth_last {A : Type} (l : list A) (u : A) :
  remove_nth (length l) (l ++ [u]) = l.
Proof.
  unfold remove_nth.
  rewrite firstn_app, firstn_all, Nat.sub_diag, firstn_O, app_nil_r.
  rewrite skipn_all2 by (rewrite last_length; lia).
  apply app_nil_r.
Qed.

(** X15: a write and the successful completion of its URB cancel out.  A
    write that is admitted at once and submitted appends one URB to the
    anchor; when that URB completes with status 0 the device is back in the
    state it had before the write. *)
Theorem X15_write_then_completion_round_trip
    (d : usb_ugci) (f : file) (env : write_env) (user_buffer : list byte)
    (count : Z) :
  count <> 0 -> 0 < limit_sem d -> 0 <= errors d ->
  alloc_urb_ok env = true -> alloc_buf_ok env = true ->
  Z.min count (size_t MAX_TRANSFER) <= Z.of_nat (length user_buffer) ->
  interface d = true -> out_submit_rv env = 0 ->
  let r := ugci_write f env user_buffer count d in
  length (submitted (snd r)) = S (length (submitted d)) /\
  limit_sem (snd r) = limit_sem d - 1 /\
  giveback_bulk_out (length (submitted d)) 0 (snd r) = d.
Proof.
  intros Hcount Hsem Herr Hau Hab Hlen Hif Hsub r.
  set (buf := firstn (Z.to_nat (Z.min count (size_t MAX_TRANSFER)))
                     user_buffer).
  assert (Hr : snd r
               = set_coherent (buf :: coherent d)
                   (usb_anchor_urb
                      (mkUrb buf
                         (to_u32 (to_int (Z.min count (size_t MAX_TRANSFER)))))
                      (set_limit_sem (limit_sem d - 1) d))).
  { unfold r. rewrite ugci_write_eq. unfold down_limit_sem.
    apply Z.eqb_neq in Hcount. rewrite Hcount.
    replace (0 <? limit_sem d) with true by lia.
    cbn [Z.eqb negb errors set_limit_sem].
    replace (errors d <? 0) with false by lia.
    replace (errors d <? 0) with false by lia.
    rewrite Hau, Hab. unfold copy_from_user.
    replace (Z.min count (size_t MAX_TRANSFER)
             <=? Z.of_nat (length user_buffer)) with true by lia.
    cbn [negb interface set_limit_sem]. rewrite Hif, Hsub. reflexivity. }
  rewrite Hr. unfold usb_anchor_urb. simpl.
  split; [apply last_length|]. split; [reflexivity|].
  unfold giveback_bulk_out.
  cbn [submitted set_submitted set_limit_sem set_coherent].
  rewrite nth_error_app2 by lia. rewrite Nat.sub_diag. cbn [nth_error].
  rewrite remove_nth_last. unfold ugci_write_bulk_callback.
  change (0 =? 0) with true. cbv iota.
  destruct d. unfold usb_free_coherent, set_submitted, set_limit_sem. simpl.
  rewrite bytes_eqb_refl. f_equal. lia.
Qed.

(** ** An error and the data behind it *)

(** X16: a recorded error is reported before buffered data, and the data is
    kept.  With an error recorded and bytes waiting, a read returns the error
    and hands out nothing; the bytes waiting are the same afterwards, and the
    next read returns them from the offset where the reader stood. *)
Theorem X16_error_first_data_kept
    (d : usb_ugci) (f : file) (env : read_env) (fuel : nat) (count : Z) :
  reachable d -> errors d <> 0 -> 0 < count < 2 ^ 64 ->
  lock_intr env = false -> interface d = true -> ongoing_read d = false ->
  bulk_in_copied d < bulk_in_filled d -> copy_fault env = false ->
  let chunk := Z.min (bulk_in_filled d - bulk_in_copied d) count in
  let r1 := ugci_read f env (S fuel) count d in
  let r2 := ugci_read f env (S fuel) count (snd r1) in
  fst r1 = (Some (report (errors d)), []) /\
  pending (snd r1) = pending d /\
  fst r2 = (Some chunk, firstn (Z.to_nat chunk) (pending d)).
Proof.
  intros Hreach Hne Hcount Hlock Hif Ho Hav Hfault chunk.
  pose proof (reachable_Inv d Hreach) as HI.
  assert (Hneg : (errors d <? 0) = true)
    by (pose proof (inv_err d HI); lia).
  assert (HI0 : Inv (set_errors 0 d))
    by (destruct HI; constructor; simpl; auto; lia).
  assert (Hr1 : ugci_read f env (S fuel) count d
                = (Some (report (errors d)), [], set_errors 0 d)).
  { unfold ugci_read. rewrite (inv_urb d HI), Hlock, Hif.
    replace (count =? 0) with false by lia.
    cbn [negb orb ugci_read_retry]. unfold read_wait. rewrite Ho.
    change (0 <? 0) with false. cbv iota. rewrite Hneg. reflexivity. }
  cbv zeta. rewrite Hr1. cbn [fst snd].
  split; [reflexivity|]. split; [reflexivity|].
  unfold ugci_read. rewrite (inv_urb _ HI0), Hlock.
  change (interface (set_errors 0 d)) with (interface d). rewrite Hif.
  replace (count =? 0) with false by lia. cbn [negb orb].
  rewrite (ugci_read_retry_data env (f_nonblock f) count fuel 0
             (set_errors 0 d) HI0 Ho eq_refl Hav Hcount).
  rewrite Hfault. cbn [negb fst].
  change (bulk_in_filled (set_errors 0 d)) with (bulk_in_filled d).
  change (bulk_in_copied (set_errors 0 d)) with (bulk_in_copied d).
  change (bulk_in_buffer (set_errors 0 d)) with (bulk_in_buffer d).
  fold chunk. unfold pending. rewrite firstn_firstn.
  replace (Init.Nat.min (Z.to_nat chunk)
             (Z.to_nat (bulk_in_filled d - bulk_in_copied d)))
    with (Z.to_nat chunk) by (unfold chunk; lia).
  reflexivity.
Qed.

Lemma reachable_run (ops : list op) (d : usb_ugci) :
  Forall op_ok ops -> reachable d -> reachable (run ops d).
Proof.
  intros Hok. revert d. unfold run.
  induction Hok as [|o ops Ho _ IH]; intros d Hd; simpl; [exact Hd|].
  apply IH. apply reach_exec; assumption.
Qed.

(** ** Failing exits of a write *)

(** X17: the error codes of an admitted write, in the order the source tests
    them.  With a permit at hand and no error recorded: a failed allocation
    of the URB or of its buffer gives [-ENOMEM], an unreadable caller buffer
    [-EFAULT], a detached device [-ENODEV]; each leaves the device exactly as
    it was.  A submission the core refuses is returned with the core's own
    code, unmapped, and leaves only a log entry. *)
Theorem X17_write_failure_codes
    (d : usb_ugci) (f : file) (env : write_env) (user_buffer : list byte)
    (count : Z) :
  count <> 0 -> 0 < limit_sem d -> 0 <= errors d ->
  let writesize := Z.min count (size_t MAX_TRANSFER) in
  let r := ugci_write f env user_buffer count d in
  (alloc_urb_ok env = false -> r = (- ENOMEM, d)) /\
  (alloc_urb_ok env = true -> alloc_buf_ok env = false ->
   r = (- ENOMEM, d)) /\
  (alloc_urb_ok env = true -> alloc_buf_ok env = true ->
   Z.of_nat (length user_buffer) < writesize -> r = (- EFAULT, d)) /\
  (alloc_urb_ok env = true -> alloc_buf_ok env = true ->
   writesize <= Z.of_nat (length user_buffer) -> interface d = false ->
   r = (- ENODEV, d)) /\
  (alloc_urb_ok env = true -> alloc_buf_ok env = true ->
   writesize <= Z.of_nat (length user_buffer) -> interface d = true ->
   out_submit_rv env <> 0 ->
   r = (out_submit_rv env, dev_err (out_submit_rv env) d)).
Proof.
  intros Hcount Hsem Herr writesize r.
  assert (Hback : up_limit_sem (set_limit_sem (limit_sem d - 1) d) = d).
  { destruct d. unfold up_limit_sem, set_limit_sem. simpl. f_equal. lia. }
  assert (Hr : r
    = if negb (alloc_urb_ok env)
      then (- ENOMEM, up_limit_sem (set_limit_sem (limit_sem d - 1) d))
      else if negb (alloc_buf_ok env)
      then (- ENOMEM, up_limit_sem (set_limit_sem (limit_sem d - 1) d))
      else
        match copy_from_user user_buffer writesize with
        | None => (- EFAULT, up_limit_sem (set_limit_sem (limit_sem d - 1) d))
        | Some buf =>
            if negb (interface d)
            then (- ENODEV,
                  up_limit_sem (set_limit_sem (limit_sem d - 1) d))
            else
              let d3 := usb_anchor_urb
                          (mkUrb buf (to_u32 (to_int writesize)))
                          (set_limit_sem (limit_sem d - 1) d) in
              if negb (out_submit_rv env =? 0)
              then (out_submit_rv env,
                    up_limit_sem
                      (usb_unanchor_urb (dev_err (out_submit_rv env) d3)))
              else (to_ssize_t writesize, set_coherent (buf :: coherent d3) d3)
        end).
  { unfold r. rewrite ugci_write_eq. unfold down_limit_sem.
    fold writesize.
    apply Z.eqb_neq in Hcount. rewrite Hcount.
    replace (0 <? limit_sem d) with true by lia.
    cbn [Z.eqb negb errors set_limit_sem].
    replace (errors d <? 0) with false by lia.
    replace (errors d <? 0) with false by lia.
    reflexivity. }
  rewrite Hr, Hback. unfold copy_from_user.
  split; [intros ->; reflexivity|].
  split; [intros -> ->; reflexivity|].
  split.
  { intros -> -> Hlen.
    replace (writesize <=? Z.of_nat (length user_buffer)) with false by lia.
    reflexivity. }
  split.
  { intros -> -> Hlen ->.
    replace (writesize <=? Z.of_nat (length user_buffer)) with true by lia.
    reflexivity. }
  intros -> -> Hlen -> Hsub.
  replace (writesize <=? Z.of_nat (length user_buffer)) with true by lia.
  apply Z.eqb_neq in Hsub. rewrite Hsub. cbn [negb]. cbv zeta.
  f_equal. unfold usb_unanchor_urb, usb_anchor_urb, dev_err.
  cbn [submitted set_submitted record set_limit_sem].
  rewrite removelast_last.
  destruct d. unfold up_limit_sem, set_limit_sem, set_submitted, record.
  simpl. f_equal. lia.
Qed.

(** ** The two directions *)

Lemma same_buffer_down_limit_sem
    (nonblock : bool) (w : option (nat * Z)) (d : usb_ugci) :
  same_buffer d (snd (down_limit_sem nonblock w d)) /\
  same_inbound d (snd (down_limit_sem nonblock w d)).
Proof.
  unfold down_limit_sem.
  destruct (0 <? limit_sem d); [split; repeat split|].
  destruct nonblock; [split; repeat split|].
  destruct w as [[i status]|]; [|split; repeat split].
  pose proof (same_buffer_giveback_bulk_out i status d) as (B1 & B2 & B3).
  pose proof (same_inbound_giveback_bulk_out i status d)
    as (A1 & A2 & A3 & A4 & A5 & A6 & A7).
  destruct (0 <? limit_sem (giveback_bulk_out i status d)); simpl;
    split; repeat split; assumption.
Qed.

(** X18: the two directions do not disturb each other.  A read, whatever it
    does, leaves the anchored outbound URBs and the number of free permits
    as they were; a write, whatever it does, leaves the inbound buffer, its
    two offsets, [ongoing_read] and the inbound transfer in flight as they
    were. *)
Theorem X18_directions_are_independent
    (d : usb_ugci) (f : file) (renv : read_env) (fuel : nat)
    (wenv : write_env) (user_buffer : list byte) (count : Z) :
  (submitted (snd (ugci_read f renv fuel count d)) = submitted d /\
   limit_sem (snd (ugci_read f renv fuel count d)) = limit_sem d) /\
  (let d' := snd (ugci_write f wenv user_buffer count d) in
   bulk_in_buffer d' = bulk_in_buffer d /\
   bulk_in_filled d' = bulk_in_filled d /\
   bulk_in_copied d' = bulk_in_copied d /\
   ongoing_read d' = ongoing_read d /\
   in_flight_reads d' = in_flight_reads d).
Proof.
  split; [apply same_outbound_ugci_read|].
  rewrite ugci_write_eq. destruct (count =? 0); [repeat split|].
  destruct (same_buffer_down_limit_sem (f_nonblock f) (sem_wait wenv) d)
    as ((B1 & B2 & B3) & (A1 & A2 & _)).
  destruct (down_limit_sem (f_nonblock f) (sem_wait wenv) d) as [rc d1];
    simpl in *.
  destruct (rc =? 0); simpl; [|repeat split; assumption].
  destruct (errors d1 <? 0); simpl;
    repeat match goal with
           | |- context [if ?b then _ else _] => destruct b; simpl
           | |- context [match copy_from_user ?b ?n with _ => _ end] =>
               destruct (copy_from_user b n); simpl
           end; repeat split; assumption.
Qed.

(** ** Claims that depend on the page size *)

(** Every Linux port has pages of at least 4 KiB and far below 2 GiB. *)
Hypothesis PAGE_SIZE_range : 512 <= PAGE_SIZE < 2 ^ 31.


(** C7: a write of [count > 0] bytes that succeeds returns
    [min count MAX_TRANSFER]; the URB it leaves anchored carries exactly that
    many bytes, the first ones of the caller's buffer; on return the URB is
    still in flight and the permit still taken, nothing having been waited
    for after admission.  With the resources at hand the write does succeed.
    A write of 0 bytes returns 0 and changes nothing. *)
Theorem C7_write_accepts_prefix
    (f : file) (env : write_env) (user_buffer : list byte) (count : Z)
    (d : usb_ugci) :
  0 < count < 2 ^ 64 -> out_submit_rv env <= 0 ->
  let r := ugci_write f env user_buffer count d in
  let writesize := Z.min count MAX_TRANSFER in
  (0 <= fst r ->
   fst r = writesize /\
   exists d1,
     down_limit_sem (f_nonblock f) (sem_wait env) d = (0, d1) /\
     submitted (snd r)
     = submitted d1
       ++ [mkUrb (firstn (Z.to_nat writesize) user_buffer) writesize] /\
     Z.of_nat (length (firstn (Z.to_nat writesize) user_buffer))
     = writesize /\
     limit_sem (snd r) = limit_sem d1) /\
  (forall d1,
     down_limit_sem (f_nonblock f) (sem_wait env) d = (0, d1) ->
     0 <= errors d1 -> alloc_urb_ok env = true -> alloc_buf_ok env = true ->
     writesize <= Z.of_nat (length user_buffer) -> interface d1 = true ->
     out_submit_rv env = 0 ->
     fst r = writesize /\ In (mkUrb (firstn (Z.to_nat writesize) user_buffer)
                                   writesize) (submitted (snd r))) /\
  (forall f' env' user_buffer' d',
     ugci_write f' env' user_buffer' 0 d' = (0, d')).
Proof.
  intros Hcount Hsub r writesize.
  assert (Hmax : size_t MAX_TRANSFER = MAX_TRANSFER)
    by (apply size_t_small; unfold MAX_TRANSFER; lia).
  assert (Hws : 0 <= writesize < 2 ^ 31)
    by (unfold writesize, MAX_TRANSFER; lia).
  assert (Hne : count <> 0) by lia.
  assert (Hconv : to_ssize_t writesize = writesize /\
                  to_u32 (to_int writesize) = writesize).
  { split; [apply to_ssize_t_small; lia|].
    rewrite to_int_small by lia. apply to_u32_small. lia. }
  destruct Hconv as [Hss Hu32].
  split; [|split].
  - intros Hpos.
    destruct (down_limit_sem (f_nonblock f) (sem_wait env) d) as [rc d1]
      eqn:Hdown.
    destruct (Z.eq_dec rc 0) as [-> | Hrc].
    + pose proof (ugci_write_admitted f env user_buffer count d d1 Hne Hsub
                                      Hdown) as Hadm.
      cbv zeta in Hadm. fold r in Hadm. rewrite Hmax in Hadm.
      fold writesize in Hadm. rewrite Hss, Hu32 in Hadm.
      destruct Hadm as [(H1 & _)|(H1 & H2 & H3 & H4 & _)]; [lia|].
      split; [exact H1|]. exists d1. split; [reflexivity|].
      split; [exact H3|]. split; [|exact H2].
      rewrite length_firstn. lia.
    + exfalso. apply Z.eqb_neq in Hrc. apply Z.eqb_neq in Hne.
      unfold r in Hpos. rewrite ugci_write_eq in Hpos.
      rewrite Hne, Hdown, Hrc in Hpos.
      simpl in Hpos. destruct (f_nonblock f); unfold EAGAIN, ERESTARTSYS in *;
        lia.
  - intros d1 Hdown Herr Hau Hab Hlen Hif Hs0.
    pose proof (ugci_write_admitted f env user_buffer count d d1 Hne Hsub
                                    Hdown) as Hadm.
    cbv zeta in Hadm. fold r in Hadm. rewrite Hmax in Hadm.
    fold writesize in Hadm. rewrite Hss, Hu32 in Hadm.
    destruct Hadm as [(H1 & H2 & H3 & H4)|(H1 & H2 & H3 & _)].
    + exfalso. unfold r in H1. rewrite ugci_write_eq in H1.
      apply Z.eqb_neq in Hne. rewrite Hne, Hdown in H1.
      replace (errors d1 <? 0) with false in H1 by lia.
      rewrite Hmax in H1. fold writesize in H1.
      cbn [Z.eqb negb] in H1.
      replace (errors d1 <? 0) with false in H1 by lia.
      rewrite Hau, Hab in H1. unfold copy_from_user in H1.
      replace (writesize <=? Z.of_nat (length user_buffer)) with true in H1
        by lia.
      rewrite Hif, Hs0 in H1. cbn [Z.eqb negb fst] in H1.
      rewrite Hss in H1.
      destruct (errors d1 <? 0); cbn [fst] in H1; lia.
    + split; [exact H1|]. rewrite H3. apply in_or_app. right. left.
      reflexivity.
  - intros f' env' ub' d'. reflexivity.
Qed.


End Driver.

(** * The properties on a concrete device

    [PAGE_SIZE] is 4096; the device is [attached64] and the states it
    reaches. *)

Ltac reach_attached64 :=
  apply (reach_probe 4096 probe64);
  [unfold probe_ok; simpl; lia | reflexivity].

Ltac reach_reading64 :=
  change reading64
    with (exec 4096 (OpRead file_nonblocking env_idle 2 100) attached64);
  apply reach_exec;
  [reach_attached64 | simpl; repeat split; intros; simpl; lia].


Ltac reach_filled64 :=
  change filled64
    with (exec 4096 (OpReadComplete 0 [x41; x42; x43; x44]) reading64);
  apply reach_exec; [reach_reading64 | simpl; lia].

Ltac reach_full64 :=
  change full64
    with (run 4096 (repeat (OpWrite file_blocking wenv_ok [x01] 1) 8)
              attached64);
  apply reachable_run;
  [repeat constructor; simpl; lia | reach_attached64].


(** [full64], with eight writes outstanding: the bound is met for URBs and
    staging buffers alike, a ninth write is refused, and the completion of
    one of the eight, stalled, frees one permit and one staging buffer. *)
Lemma C4_witness :
  reachable 4096 full64 /\
  Z.of_nat (length (submitted full64)) <= WRITES_IN_FLIGHT /\
  Z.of_nat (length (coherent full64)) <= WRITES_IN_FLIGHT /\
  fst (ugci_write 4096 file_nonblocking wenv_ok [x01] 1 full64) < 0 /\
  limit_sem (giveback_bulk_out 3 (- EPIPE) full64) = limit_sem full64 + 1 /\
  S (length (coherent (giveback_bulk_out 3 (- EPIPE) full64)))
  = length (coherent full64).
Proof.
  assert (Hr : reachable 4096 full64) by reach_full64.
  assert (Hc1 : 1 <> 0) by lia.
  assert (Hok : op_ok (OpWrite file_nonblocking wenv_ok [x01] 1))
    by (simpl; lia).
  split; [exact Hr|].
  destruct (C4_writes_in_flight_bounded 4096 full64 Hr)
    as ((_ & _ & Hs & _ & Hc) & Hw & Hg).
  split; [exact Hs|]. split; [exact Hc|].
  destruct (Hw file_nonblocking wenv_ok [x01] 1 1 full64 Hc1 Hok eq_refl)
    as [Hrefused _].
  destruct (Hrefused Hc1) as [Hneg _].
  split; [exact Hneg|].
  destruct (Hg 3%nat (mkUrb [x01] 1) (- EPIPE) eq_refl)
    as (H1 & _ & _ & _ & H5).
  split; [exact H1 | exact H5].
Defined.

(** The offsets of [filled64] are in order. *)
Lemma C5_witness :
  reachable 4096 filled64 /\
  0 <= bulk_in_copied filled64 <= bulk_in_filled filled64 /\
  bulk_in_filled filled64 <= bulk_in_size filled64.
Proof.
  assert (Hr : reachable 4096 filled64) by reach_filled64.
  split; [exact Hr|].
  destruct (C5_buffer_offsets 4096 filled64 Hr) as ((H1 & H2 & _) & _).
  split; [exact H1 | exact H2].
Defined.

(** On [reading64] the flag and the transfer in flight agree. *)
Lemma C6_witness :
  reachable 4096 reading64 /\
  (ongoing_read reading64 = true
   <-> length (in_flight_reads reading64) = 1%nat).
Proof.
  assert (Hr : reachable 4096 reading64) by reach_reading64.
  split; [exact Hr|].
  destruct (C6_single_inbound_transfer 4096 reading64 Hr) as (_ & H & _).
  exact H.
Defined.

(** A write of 5000 bytes accepts [4096 - 512] of them. *)
Lemma C7_witness :
  512 <= 4096 < 2 ^ 31 /\ 0 < 5000 < 2 ^ 64 /\ out_submit_rv wenv_ok <= 0 /\
  fst (ugci_write 4096 file_blocking wenv_ok (repeat x42 5000) 5000
                  attached64)
  = Z.min 5000 (MAX_TRANSFER 4096).
Proof.
  assert (Hp : 512 <= 4096 < 2 ^ 31) by lia.
  assert (Hc : 0 < 5000 < 2 ^ 64) by lia.
  assert (Hs : out_submit_rv wenv_ok <= 0) by (simpl; lia).
  split; [exact Hp|]. split; [exact Hc|]. split; [exact Hs|].
  destruct (C7_write_accepts_prefix 4096 Hp file_blocking wenv_ok
              (repeat x42 5000) 5000 attached64 Hc Hs) as (H & _).
  apply H. vm_compute. discriminate.
Defined.

(** Flushing [reading64] twice: the second flush has nothing to report. *)
Lemma C8_witness :
  reachable 4096 reading64 /\ private_data file_blocking = true /\
  statuses_ok [] /\
  forall evs',
    ugci_flush file_blocking evs'
               (snd (ugci_flush file_blocking [] reading64))
    = (0, snd (ugci_flush file_blocking [] reading64)).
Proof.
  assert (Hr : reachable 4096 reading64) by reach_reading64.
  assert (Hs : statuses_ok []) by (apply Forall_nil).
  split; [exact Hr|]. split; [reflexivity|]. split; [exact Hs|].
  destruct (C8_flush_reports_once 4096 file_blocking [] reading64 Hr
              eq_refl Hs) as (_ & _ & _ & _ & _ & H).
  exact H.
Defined.

(** A read of length 0 on the fresh device. *)
Lemma C9_witness :
  (0 = 0 \/ bulk_in_urb attached64 = false) /\
  ugci_read file_blocking env_idle 3 0 attached64 = (Some 0, [], attached64).
Proof.
  split; [left; reflexivity|].
  apply C9_read_nothing_to_do. left. reflexivity.
Defined.

(** A read of 3 of the 4 bytes of [filled64] into an unwritable buffer. *)
Lemma C10_witness :
  reachable 4096 filled64 /\
  fst (ugci_read file_blocking env_fault 1 3 filled64)
  = (Some (- EFAULT), []) /\
  bulk_in_copied (snd (ugci_read file_blocking env_fault 1 3 filled64)) = 3.
Proof.
  assert (Hr : reachable 4096 filled64) by reach_filled64.
  split; [exact Hr|].
  destruct (C10_fault_drops_chunk 4096 filled64 Hr file_blocking env_fault
              0%nat 3)
    as (H1 & _ & H3 & _);
    [lia | reflexivity | reflexivity | reflexivity | reflexivity
    | simpl; lia | reflexivity | simpl; lia |].
  split; [exact H1|]. rewrite H3 by (simpl; lia). reflexivity.
Defined.

(** * The further properties on the concrete device *)

Ltac reach_reset64 :=
  change reset64 with (exec 4096 OpPostReset filled64);
  apply reach_exec; [reach_filled64 | exact I].

(** A read and an open after [reading64] has been detached. *)
Lemma X1_witness :
  bulk_in_urb reading64 = true /\ 100 <> 0 /\ lock_intr env_idle = false /\
  ugci_read file_blocking env_idle 1 100
            (run 4096 [OpResume] (ugci_disconnect reading64))
  = (Some (- ENODEV), [], run 4096 [OpResume] (ugci_disconnect reading64)).
Proof.
  assert (Hc : 100 <> 0) by lia.
  split; [reflexivity|]. split; [exact Hc|]. split; [reflexivity|].
  destruct (X1_detach_is_final 4096 [OpResume] reading64 file_blocking
              env_idle 1 100 0 eq_refl Hc eq_refl) as (_ & H & _).
  exact H.
Defined.

(** A write after [attached64] has been detached. *)
Lemma X2_witness :
  1 <> 0 /\
  fst (ugci_write 4096 file_blocking wenv_ok [x01] 1
                  (run 4096 [] (ugci_disconnect attached64))) < 0.
Proof.
  assert (Hc : 1 <> 0) by lia.
  split; [exact Hc|].
  destruct (X2_no_write_after_detach 4096 [] attached64 file_blocking wenv_ok
              [x01] 1 Hc) as (_ & H & _).
  exact H.
Defined.

(** Open and release on the fresh device. *)
Lemma X3_witness :
  minor attached64 = true /\ intfdata attached64 = true /\
  private_data file_blocking = true /\
  ugci_release file_blocking (snd (ugci_open 0 attached64)) = (0, attached64).
Proof.
  split; [reflexivity|]. split; [reflexivity|]. split; [reflexivity|].
  destruct (X3_open_release_round_trip file_blocking 0 attached64 eq_refl
              eq_refl eq_refl) as (_ & _ & H & _).
  exact H.
Defined.

(** The fresh device, opened once and then unplugged. *)
Lemma X4_witness :
  kref attached64 = 1 /\ minor attached64 = true /\
  intfdata attached64 = true /\ private_data file_blocking = true /\
  deleted (ugci_disconnect (snd (ugci_open 0 attached64))) = false.
Proof.
  split; [reflexivity|]. split; [reflexivity|]. split; [reflexivity|].
  split; [reflexivity|].
  destruct (X4_open_file_outlives_disconnect file_blocking attached64
              eq_refl eq_refl eq_refl eq_refl) as (_ & _ & H & _).
  exact H.
Defined.

(** A reset of [reading64], then a read. *)
Lemma X5_witness :
  reachable 4096 reading64 /\ statuses_ok [] /\
  interface reading64 = true /\ 100 <> 0 /\ lock_intr env_idle = false /\
  errors (ugci_post_reset (ugci_pre_reset [] reading64)) = - EPIPE.
Proof.
  assert (Hr : reachable 4096 reading64) by reach_reading64.
  assert (Hs : statuses_ok []) by (apply Forall_nil).
  assert (Hc : 100 <> 0) by lia.
  split; [exact Hr|]. split; [exact Hs|]. split; [reflexivity|].
  split; [exact Hc|]. split; [reflexivity|].
  destruct (X5_reset_is_reported_as_epipe 4096 [] reading64 file_blocking
              env_idle 0%nat 100 Hr Hs eq_refl Hc eq_refl)
    as (_ & _ & _ & _ & H & _).
  exact H.
Defined.

(** Draining [full64]. *)
Lemma X6_witness :
  reachable 4096 full64 /\ statuses_ok [] /\
  limit_sem (ugci_draw_down [] full64) = WRITES_IN_FLIGHT.
Proof.
  assert (Hr : reachable 4096 full64) by reach_full64.
  assert (Hs : statuses_ok []) by (apply Forall_nil).
  split; [exact Hr|]. split; [exact Hs|].
  destruct (X6_drain_leaves_device_quiescent 4096 [] full64 Hr Hs)
    as ((_ & _ & _ & H) & _).
  exact H.
Defined.

(** The first read on the fresh device, refused for lack of memory. *)
Lemma X7_witness :
  reachable 4096 attached64 /\ 0 < 100 < 2 ^ 64 /\
  submit_rv env_refuse 0%nat < 0 /\
  fst (ugci_read file_blocking env_refuse 1 100 attached64)
  = (Some (- ENOMEM), []).
Proof.
  assert (Hr : reachable 4096 attached64) by reach_attached64.
  assert (Hc : 0 < 100 < 2 ^ 64) by lia.
  assert (Hs : submit_rv env_refuse 0%nat < 0) by (simpl; unfold ENOMEM; lia).
  split; [exact Hr|]. split; [exact Hc|]. split; [exact Hs|].
  destruct (X7_read_submission_failure 4096 attached64 file_blocking
              env_refuse 0%nat 100 Hr Hc eq_refl eq_refl eq_refl eq_refl
              eq_refl Hs) as (H & _).
  exact H.
Defined.

(** A ninth, non-blocking write on [full64]. *)
Lemma X8_witness :
  reachable 4096 full64 /\
  Z.of_nat (length (submitted full64)) = WRITES_IN_FLIGHT /\ 1 <> 0 /\
  ugci_write 4096 file_nonblocking wenv_ok [x01] 1 full64
  = (- EAGAIN, full64).
Proof.
  assert (Hr : reachable 4096 full64) by reach_full64.
  assert (Hc : 1 <> 0) by lia.
  split; [exact Hr|]. split; [reflexivity|]. split; [exact Hc|].
  destruct (X8_write_with_no_permit_left 4096 full64 file_nonblocking wenv_ok
              [x01] 1 Hr eq_refl Hc) as (H & _).
  apply H. reflexivity.
Defined.

(** A blocking read of 100 bytes on the fresh device receives [ABCD]. *)
Lemma X9_witness :
  reachable 4096 attached64 /\ 0 < 100 < 2 ^ 64 /\
  0 < bulk_in_size attached64 /\
  fst (ugci_read file_blocking env_data 2 100 attached64)
  = (Some 4, [x41; x42; x43; x44]).
Proof.
  assert (Hr : reachable 4096 attached64) by reach_attached64.
  assert (Hc : 0 < 100 < 2 ^ 64) by lia.
  assert (Hs : 0 < bulk_in_size attached64) by (simpl; lia).
  split; [exact Hr|]. split; [exact Hc|]. split; [exact Hs|].
  apply (X9_blocking_read_returns_what_arrived 4096 attached64 file_blocking
           env_data 0%nat 100 [x41; x42; x43; x44] Hr Hc Hs);
    try reflexivity.
  discriminate.
Defined.

(** The same read, seen through its result. *)
Lemma X10_witness :
  reachable 4096 attached64 /\
  op_ok (OpRead file_blocking env_data 2 100) /\ 100 <> 0 /\
  ((4 < 0 /\ (4 <> - EFAULT -> [x41; x42; x43; x44] = [])) \/
   (0 < 4 /\ 4 <= 100 /\ 4 <= bulk_in_size attached64 /\
    Z.of_nat (length [x41; x42; x43; x44]) = 4)).
Proof.
  assert (Hr : reachable 4096 attached64) by reach_attached64.
  assert (Ho : op_ok (OpRead file_blocking env_data 2 100))
    by (simpl; repeat split; intros; simpl; lia).
  assert (Hc : 100 <> 0) by lia.
  split; [exact Hr|]. split; [exact Ho|]. split; [exact Hc|].
  apply (X10_read_result_shape 4096 attached64 file_blocking env_data 2 100
           4 [x41; x42; x43; x44]
           (snd (ugci_read file_blocking env_data 2 100 attached64))
           Hr Ho Hc).
  vm_compute. reflexivity.
Defined.

(** One byte, then two, of the four in [filled64]. *)
Lemma X11_witness :
  reachable 4096 filled64 /\ 0 < 1 /\ 0 < 2 /\
  1 + 2 <= bulk_in_filled filled64 - bulk_in_copied filled64 /\
  snd (fst (ugci_read file_blocking env_idle 1 1 filled64))
  ++ snd (fst (ugci_read file_blocking env_idle 1 2
                 (snd (ugci_read file_blocking env_idle 1 1 filled64))))
  = snd (fst (ugci_read file_blocking env_idle 1 (1 + 2) filled64)).
Proof.
  assert (Hr : reachable 4096 filled64) by reach_filled64.
  assert (H1 : 0 < 1) by lia.
  assert (H2 : 0 < 2) by lia.
  assert (H3 : 1 + 2 <= bulk_in_filled filled64 - bulk_in_copied filled64)
    by (simpl; lia).
  split; [exact Hr|]. split; [exact H1|]. split; [exact H2|].
  split; [exact H3|].
  destruct (X11_reads_split_and_join 4096 filled64 file_blocking env_idle
              0%nat 1 2 Hr H1 H2 H3 eq_refl eq_refl eq_refl eq_refl eq_refl)
    as (_ & _ & _ & H & _).
  exact H.
Defined.

(** Flushing [reading64] cancels its transfer. *)
Lemma X12_witness :
  reachable 4096 reading64 /\ statuses_ok [] /\
  private_data file_blocking = true /\
  (submitted (snd (usb_wait_anchor_empty_timeout [] reading64)) <> [] \/
   in_flight_reads (snd (usb_wait_anchor_empty_timeout [] reading64)) <> []) /\
  fst (ugci_flush file_blocking [] reading64) = - EIO.
Proof.
  assert (Hr : reachable 4096 reading64) by reach_reading64.
  assert (Hs : statuses_ok []) by (apply Forall_nil).
  assert (Hb : submitted (snd (usb_wait_anchor_empty_timeout [] reading64))
               <> [] \/
               in_flight_reads
                 (snd (usb_wait_anchor_empty_timeout [] reading64)) <> [])
    by (right; discriminate).
  split; [exact Hr|]. split; [exact Hs|]. split; [reflexivity|].
  split; [exact Hb|].
  destruct (X12_flush_reports_its_own_cancellations 4096 file_blocking []
              reading64 Hr Hs eq_refl Hb) as (_ & H).
  exact H.
Defined.

(** The first non-blocking read after [probe64]. *)
Lemma X13_witness :
  probe_ok probe64 /\ ugci_probe probe64 = (0, Some attached64) /\
  0 < 100 < 2 ^ 64 /\
  in_flight_reads (snd (ugci_read file_nonblocking env_idle 2 100 attached64))
  = [Z.min (maxp probe64) 100].
Proof.
  assert (Hp : probe_ok probe64) by (unfold probe_ok; simpl; lia).
  assert (Hc : 0 < 100 < 2 ^ 64) by lia.
  split; [exact Hp|]. split; [reflexivity|]. split; [exact Hc|].
  destruct (X13_first_read_after_probe probe64 attached64 file_nonblocking
              env_idle 0%nat 100 Hp eq_refl Hc eq_refl eq_refl eq_refl)
    as (_ & _ & H & _).
  exact H.
Defined.

(** Suspend and resume of [filled64]. *)
Lemma X14_witness :
  reachable 4096 filled64 /\ statuses_ok [] /\
  pending (ugci_resume (ugci_suspend [] filled64)) = pending filled64.
Proof.
  assert (Hr : reachable 4096 filled64) by reach_filled64.
  assert (Hs : statuses_ok []) by (apply Forall_nil).
  split; [exact Hr|]. split; [exact Hs|].
  destruct (X14_suspend_resume_keep_data 4096 [] filled64 Hr Hs)
    as (_ & _ & _ & H & _).
  exact H.
Defined.

(** One byte written to the fresh device, and its completion. *)
Lemma X15_witness :
  1 <> 0 /\ 0 < limit_sem attached64 /\ 0 <= errors attached64 /\
  giveback_bulk_out 0 0
    (snd (ugci_write 4096 file_blocking wenv_ok [x01] 1 attached64))
  = attached64.
Proof.
  assert (Hc : 1 <> 0) by lia.
  assert (Hl : 0 < limit_sem attached64) by (simpl; lia).
  assert (He : 0 <= errors attached64) by (simpl; lia).
  assert (Hn : Z.min 1 (size_t (MAX_TRANSFER 4096))
               <= Z.of_nat (length [x01])) by (vm_compute; discriminate).
  split; [exact Hc|]. split; [exact Hl|]. split; [exact He|].
  destruct (X15_write_then_completion_round_trip 4096 attached64
              file_blocking wenv_ok [x01] 1 Hc Hl He eq_refl eq_refl Hn
              eq_refl eq_refl) as (_ & _ & H).
  exact H.
Defined.

(** [reset64]: the reset is reported first, the four bytes follow. *)
Lemma X16_witness :
  reachable 4096 reset64 /\ errors reset64 <> 0 /\ 0 < 100 < 2 ^ 64 /\
  fst (ugci_read file_blocking env_idle 1 100 reset64)
  = (Some (- EPIPE), []).
Proof.
  assert (Hr : reachable 4096 reset64) by reach_reset64.
  assert (He : errors reset64 <> 0) by (simpl; unfold EPIPE; lia).
  assert (Hc : 0 < 100 < 2 ^ 64) by lia.
  split; [exact Hr|]. split; [exact He|]. split; [exact Hc|].
  destruct (X16_error_first_data_kept 4096 reset64 file_blocking env_idle
              0%nat 100 Hr He Hc eq_refl eq_refl eq_refl)
    as (H & _); [simpl; lia | reflexivity |].
  exact H.
Defined.

(** A write on the fresh device for which no URB can be allocated. *)
Lemma X17_witness :
  1 <> 0 /\ 0 < limit_sem attached64 /\ 0 <= errors attached64 /\
  ugci_write 4096 file_blocking (mkWriteEnv None false true 0) [x01] 1
             attached64
  = (- ENOMEM, attached64).
Proof.
  assert (Hc : 1 <> 0) by lia.
  assert (Hl : 0 < limit_sem attached64) by (simpl; lia).
  assert (He : 0 <= errors attached64) by (simpl; lia).
  split; [exact Hc|]. split; [exact Hl|]. split; [exact He|].
  destruct (X17_write_failure_codes 4096 attached64 file_blocking
              (mkWriteEnv None false true 0) [x01] 1 Hc Hl He) as (H & _).
  apply H. reflexivity.
Defined.
